(** * percytech shared-database: the brand-scoped data-access layer

    A shallow embedding of [packages/shared-database]: the row types of the
    [Database] interface, the process-wide Supabase client, the
    [BrandAwareSupabase] wrapper, and the [CustomerOperations] and
    [ConversationOperations] classes, together with a model of the hosted
    store built from [schemas/tables.sql].

    The operations are written against the connection as an interface, the
    way the TypeScript takes an injected [SupabaseClient]; [Pg] is the
    instance that the schema describes.  An [await] is a function of the
    store's state, [new Date().toISOString()] an explicit argument, a thrown
    [Error] the [Throw] result.  The two [search] methods and
    [getWithCustomer], which rest on PostgREST's [or]/[ilike] filter syntax
    and on embedded resources, are not part of the development. *)

From stdpp Require Import base list strings option infinite sorting.
From Stdlib Require Import Floats Uint63.


(** ** JavaScript values the code relies on *)

Module Js.

(** An awaited call either returns a value or throws [new Error(msg)]. *)
Inductive Result (A : Type) : Type :=
| Ok (a : A)
| Throw (msg : string).
Arguments Ok {A} a.
Arguments Throw {A} msg.

(** Truthiness of a [string | undefined]: [undefined] and the empty
    string are the falsy ones. *)
Definition truthy (v : option string) : bool :=
  match v with
  | Some s => negb (String.eqb s "")
  | None => false
  end.

(** [a || b] on [string | undefined]. *)
Definition or (a b : option string) : option string :=
  if truthy a then a else b.

(** A JS number holding a count. *)
Definition number_of_nat (n : nat) : float :=
  PrimFloat.of_uint63 (Uint63.of_Z (Z.of_nat n)).

(** A JS number holding an integer column value. *)
Definition number_of_Z (z : Z) : float :=
  if decide (z < 0)%Z
  then PrimFloat.opp (PrimFloat.of_uint63 (Uint63.of_Z (- z)))
  else PrimFloat.of_uint63 (Uint63.of_Z z).

(** [[...new Set(l)]]: the elements of [l] in order of first occurrence. *)
Fixpoint set_spread_from (seen l : list string) : list string :=
  match l with
  | [] => []
  | x :: l' =>
      if bool_decide (x ∈ seen) then set_spread_from seen l'
      else x :: set_spread_from (x :: seen) l'
  end.

Definition set_spread (l : list string) : list string :=
  set_spread_from [] l.

End Js.

Import Js.

(** ** Enumerations ([types/brand.ts], [types/customer.ts],
       [types/conversation.ts], and the enum types of [tables.sql]) *)

Inductive BrandId := gnymble | percymd | percytext.

Module CustomerStage.
Inductive t := lead | marketing | trial | active | churned | dormant.
End CustomerStage.

Module CustomerSource.
Inductive t :=
| website | sms_campaign | email_campaign | referral
| organic | paid_ads | social | other.
End CustomerSource.

Module MessageDirection.
Inductive t := inbound | outbound.
End MessageDirection.

Module MessageStatus.
Inductive t := pending | sent | delivered | failed | undelivered.
End MessageStatus.

Module ConversationStatus.
Inductive t := active | paused | completed | archived.
End ConversationStatus.

#[global] Instance BrandId_eq_dec : EqDecision BrandId.
Proof. solve_decision. Defined.
#[global] Instance CustomerStage_eq_dec : EqDecision CustomerStage.t.
Proof. solve_decision. Defined.
#[global] Instance CustomerSource_eq_dec : EqDecision CustomerSource.t.
Proof. solve_decision. Defined.
#[global] Instance MessageDirection_eq_dec : EqDecision MessageDirection.t.
Proof. solve_decision. Defined.
#[global] Instance MessageStatus_eq_dec : EqDecision MessageStatus.t.
Proof. solve_decision. Defined.
#[global] Instance ConversationStatus_eq_dec : EqDecision ConversationStatus.t.
Proof. solve_decision. Defined.

(** UUIDs and ISO-8601 timestamps travel as strings; [metadata] is an
    opaque JSON document. *)
Definition Uuid := string.
Definition Timestamp := string.
Definition Json := string.

(** ** Brand context ([types/brand.ts]) *)

Module BrandConfig.
Record t := mk {
  id : BrandId;
  name : string;
  domain : string;
  platform_domain : string;
  primary_color : string;
  logo_url : string;
  support_email : string;
  is_active : bool;
}.
End BrandConfig.

Definition BRAND_CONFIGS (b : BrandId) : BrandConfig.t :=
  match b with
  | gnymble =>
      BrandConfig.mk gnymble "Gnymble" "gnymble.com" "app.gnymble.com"
        "#4F46E5" "/brands/gnymble/logo.svg" "support@gnymble.com" true
  | percymd =>
      BrandConfig.mk percymd "PercyMD" "percymd.com" "app.percymd.com"
        "#059669" "/brands/percymd/logo.svg" "support@percymd.com" true
  | percytext =>
      BrandConfig.mk percytext "PercyText" "percytext.com" "app.percytext.com"
        "#DC2626" "/brands/percytext/logo.svg" "support@percytext.com" true
  end.

Definition getBrandConfig (brand_id : BrandId) : BrandConfig.t :=
  BRAND_CONFIGS brand_id.

Module BrandContext.
Record t := mk {
  brand_id : BrandId;
  config : BrandConfig.t;
  user_id : option Uuid;
  is_admin : option bool;
}.
End BrandContext.

(** ** Rows and payloads (the [Database] interface of [client/supabase.ts]) *)

Module Customer.
Record t := mk {
  id : Uuid;
  brand_id : BrandId;
  email : string;
  phone : option string;
  first_name : option string;
  last_name : option string;
  stage : CustomerStage.t;
  source : CustomerSource.t;
  is_active : bool;
  marketing_qualified_at : option Timestamp;
  trial_started_at : option Timestamp;
  subscribed_at : option Timestamp;
  churned_at : option Timestamp;
  metadata : option Json;
  tags : option (list string);
  created_at : Timestamp;
  updated_at : Timestamp;
  created_by : option Uuid;
}.
End Customer.

(** [Tables.customers.Insert]; [id] is always left to the store. *)
Module CustomerInsert.
Record t := mk {
  brand_id : BrandId;
  email : string;
  phone : option string;
  first_name : option string;
  last_name : option string;
  stage : option CustomerStage.t;
  source : option CustomerSource.t;
  is_active : option bool;
  marketing_qualified_at : option Timestamp;
  trial_started_at : option Timestamp;
  subscribed_at : option Timestamp;
  churned_at : option Timestamp;
  metadata : option Json;
  tags : option (list string);
  created_at : option Timestamp;
  updated_at : option Timestamp;
  created_by : option Uuid;
}.
End CustomerInsert.

(** [Tables.customers.Update]: a column is written when its key is present.
    The payloads built here never carry [null], so a present key holds a
    value. *)
Module CustomerUpdate.
Record t := mk {
  brand_id : option BrandId;
  email : option string;
  phone : option string;
  first_name : option string;
  last_name : option string;
  stage : option CustomerStage.t;
  source : option CustomerSource.t;
  is_active : option bool;
  marketing_qualified_at : option Timestamp;
  trial_started_at : option Timestamp;
  subscribed_at : option Timestamp;
  churned_at : option Timestamp;
  metadata : option Json;
  tags : option (list string);
  created_at : option Timestamp;
  updated_at : option Timestamp;
  created_by : option Uuid;
}.
End CustomerUpdate.

(** [CreateCustomer] of [types/customer.ts]. *)
Module CreateCustomer.
Record t := mk {
  email : string;
  phone : option string;
  first_name : option string;
  last_name : option string;
  stage : option CustomerStage.t;
  source : option CustomerSource.t;
  metadata : option Json;
  tags : option (list string);
}.
End CreateCustomer.

(** [Partial<CreateCustomer>] *)
Module PartialCreateCustomer.
Record t := mk {
  email : option string;
  phone : option string;
  first_name : option string;
  last_name : option string;
  stage : option CustomerStage.t;
  source : option CustomerSource.t;
  metadata : option Json;
  tags : option (list string);
}.

(** The object literal [{}]. *)
Definition empty : t := mk None None None None None None None None.
End PartialCreateCustomer.

(** [UpdateCustomer] of [types/customer.ts]: every key optional. *)
Module UpdateCustomer.
Record t := mk {
  email : option string;
  phone : option string;
  first_name : option string;
  last_name : option string;
  stage : option CustomerStage.t;
  is_active : option bool;
  marketing_qualified_at : option Timestamp;
  trial_started_at : option Timestamp;
  subscribed_at : option Timestamp;
  churned_at : option Timestamp;
  metadata : option Json;
  tags : option (list string);
}.

(** The object literal [{}]. *)
Definition empty : t :=
  mk None None None None None None None None None None None None.

(** Assignments [updateData.key = v]. *)
Definition set_stage (v : CustomerStage.t) (u : t) : t :=
  mk (email u) (phone u) (first_name u) (last_name u) (Some v)
     (is_active u) (marketing_qualified_at u) (trial_started_at u)
     (subscribed_at u) (churned_at u) (metadata u) (tags u).
Definition set_is_active (v : bool) (u : t) : t :=
  mk (email u) (phone u) (first_name u) (last_name u) (stage u)
     (Some v) (marketing_qualified_at u) (trial_started_at u)
     (subscribed_at u) (churned_at u) (metadata u) (tags u).
Definition set_marketing_qualified_at (v : Timestamp) (u : t) : t :=
  mk (email u) (phone u) (first_name u) (last_name u) (stage u)
     (is_active u) (Some v) (trial_started_at u)
     (subscribed_at u) (churned_at u) (metadata u) (tags u).
Definition set_trial_started_at (v : Timestamp) (u : t) : t :=
  mk (email u) (phone u) (first_name u) (last_name u) (stage u)
     (is_active u) (marketing_qualified_at u) (Some v)
     (subscribed_at u) (churned_at u) (metadata u) (tags u).
Definition set_subscribed_at (v : Timestamp) (u : t) : t :=
  mk (email u) (phone u) (first_name u) (last_name u) (stage u)
     (is_active u) (marketing_qualified_at u) (trial_started_at u)
     (Some v) (churned_at u) (metadata u) (tags u).
Definition set_churned_at (v : Timestamp) (u : t) : t :=
  mk (email u) (phone u) (first_name u) (last_name u) (stage u)
     (is_active u) (marketing_qualified_at u) (trial_started_at u)
     (subscribed_at u) (Some v) (metadata u) (tags u).
Definition set_tags (v : list string) (u : t) : t :=
  mk (email u) (phone u) (first_name u) (last_name u) (stage u)
     (is_active u) (marketing_qualified_at u) (trial_started_at u)
     (subscribed_at u) (churned_at u) (metadata u) (Some v).
End UpdateCustomer.

Module Conversation.
Record t := mk {
  id : Uuid;
  brand_id : BrandId;
  customer_id : Uuid;
  customer_phone : string;
  brand_phone : string;
  status : ConversationStatus.t;
  campaign_id : option Uuid;
  campaign_name : option string;
  message_count : Z;
  last_message_at : option Timestamp;
  last_inbound_at : option Timestamp;
  last_outbound_at : option Timestamp;
  opted_out_at : option Timestamp;
  opt_out_reason : option string;
  metadata : option Json;
  tags : option (list string);
  created_at : Timestamp;
  updated_at : Timestamp;
}.
End Conversation.

(** [Tables.conversations.Insert]. *)
Module ConversationInsert.
Record t := mk {
  brand_id : BrandId;
  customer_id : Uuid;
  customer_phone : string;
  brand_phone : string;
  status : option ConversationStatus.t;
  campaign_id : option Uuid;
  campaign_name : option string;
  message_count : option Z;
  last_message_at : option Timestamp;
  last_inbound_at : option Timestamp;
  last_outbound_at : option Timestamp;
  opted_out_at : option Timestamp;
  opt_out_reason : option string;
  metadata : option Json;
  tags : option (list string);
  created_at : option Timestamp;
  updated_at : option Timestamp;
}.
End ConversationInsert.

(** [Tables.conversations.Update]. *)
Module ConversationUpdate.
Record t := mk {
  brand_id : option BrandId;
  customer_id : option Uuid;
  customer_phone : option string;
  brand_phone : option string;
  status : option ConversationStatus.t;
  campaign_id : option Uuid;
  campaign_name : option string;
  message_count : option Z;
  last_message_at : option Timestamp;
  last_inbound_at : option Timestamp;
  last_outbound_at : option Timestamp;
  opted_out_at : option Timestamp;
  opt_out_reason : option string;
  metadata : option Json;
  tags : option (list string);
  created_at : option Timestamp;
  updated_at : option Timestamp;
}.

(** The object literal [{}]. *)
Definition empty : t :=
  mk None None None None None None None None None None None None None None
     None None None.

(** Assignments [updateData.key = v]. *)
Definition set_status (v : ConversationStatus.t) (u : t) : t :=
  mk (brand_id u) (customer_id u) (customer_phone u) (brand_phone u)
    (Some v) (campaign_id u) (campaign_name u) (message_count u)
    (last_message_at u) (last_inbound_at u) (last_outbound_at u)
    (opted_out_at u) (opt_out_reason u) (metadata u) (tags u)
    (created_at u) (updated_at u).
Definition set_last_message_at (v : Timestamp) (u : t) : t :=
  mk (brand_id u) (customer_id u) (customer_phone u) (brand_phone u)
    (status u) (campaign_id u) (campaign_name u) (message_count u)
    (Some v) (last_inbound_at u) (last_outbound_at u) (opted_out_at u)
    (opt_out_reason u) (metadata u) (tags u) (created_at u) (updated_at u).
Definition set_last_inbound_at (v : Timestamp) (u : t) : t :=
  mk (brand_id u) (customer_id u) (customer_phone u) (brand_phone u)
    (status u) (campaign_id u) (campaign_name u) (message_count u)
    (last_message_at u) (Some v) (last_outbound_at u) (opted_out_at u)
    (opt_out_reason u) (metadata u) (tags u) (created_at u) (updated_at u).
Definition set_last_outbound_at (v : Timestamp) (u : t) : t :=
  mk (brand_id u) (customer_id u) (customer_phone u) (brand_phone u)
    (status u) (campaign_id u) (campaign_name u) (message_count u)
    (last_message_at u) (last_inbound_at u) (Some v) (opted_out_at u)
    (opt_out_reason u) (metadata u) (tags u) (created_at u) (updated_at u).
Definition set_opted_out_at (v : Timestamp) (u : t) : t :=
  mk (brand_id u) (customer_id u) (customer_phone u) (brand_phone u)
    (status u) (campaign_id u) (campaign_name u) (message_count u)
    (last_message_at u) (last_inbound_at u) (last_outbound_at u) (Some v)
    (opt_out_reason u) (metadata u) (tags u) (created_at u) (updated_at u).
Definition set_opt_out_reason (v : option string) (u : t) : t :=
  mk (brand_id u) (customer_id u) (customer_phone u) (brand_phone u)
    (status u) (campaign_id u) (campaign_name u) (message_count u)
    (last_message_at u) (last_inbound_at u) (last_outbound_at u)
    (opted_out_at u) v (metadata u) (tags u) (created_at u) (updated_at u).
Definition set_updated_at (v : Timestamp) (u : t) : t :=
  mk (brand_id u) (customer_id u) (customer_phone u) (brand_phone u)
    (status u) (campaign_id u) (campaign_name u) (message_count u)
    (last_message_at u) (last_inbound_at u) (last_outbound_at u)
    (opted_out_at u) (opt_out_reason u) (metadata u) (tags u)
    (created_at u) (Some v).
End ConversationUpdate.

(** [CreateConversation] of [types/conversation.ts]. *)
Module CreateConversation.
Record t := mk {
  customer_id : Uuid;
  customer_phone : string;
  brand_phone : string;
  campaign_id : option Uuid;
  campaign_name : option string;
  metadata : option Json;
  tags : option (list string);
}.
End CreateConversation.

Module Message.
Record t := mk {
  id : Uuid;
  conversation_id : Uuid;
  direction : MessageDirection.t;
  content : string;
  media_urls : option (list string);
  status : option MessageStatus.t;
  external_id : option string;
  metadata : option Json;
  sent_at : Timestamp;
  delivered_at : option Timestamp;
  created_at : Timestamp;
}.
End Message.

(** [Tables.messages.Insert]. *)
Module MessageInsert.
Record t := mk {
  conversation_id : Uuid;
  direction : MessageDirection.t;
  content : string;
  media_urls : option (list string);
  status : option MessageStatus.t;
  external_id : option string;
  metadata : option Json;
  sent_at : option Timestamp;
  delivered_at : option Timestamp;
  created_at : option Timestamp;
}.
End MessageInsert.

(** [CreateMessage] of [types/conversation.ts]. *)
Module CreateMessage.
Record t := mk {
  conversation_id : Uuid;
  direction : MessageDirection.t;
  content : string;
  media_urls : option (list string);
  external_id : option string;
  metadata : option Json;
}.
End CreateMessage.

(** ** The wire interface of the hosted store (supabase-js / PostgREST) *)

Module Postgrest.

Record Error := mkError {
  code : string;
  message : string;
}.

(** What awaiting a query builder yields: [{ data, error }] with exactly
    one of the two set. *)
Inductive Response (A : Type) : Type :=
| Data (data : A)
| Failure (error : Error).
Arguments Data {A} data.
Arguments Failure {A} error.

(** The code the store answers a [.single()] request with when the result
    is not exactly one row. *)
Definition PGRST116 : string := "PGRST116".

(** A [select] builder: the predicates chained so far, then the [order]
    and [limit] modifiers. *)
Record Query (F O : Type) := mkQuery {
  filters : list F;
  order : option O;
  limit : option nat;
}.
Arguments mkQuery {F O} filters order limit.
Arguments filters {F O} q.
Arguments order {F O} q.
Arguments limit {F O} q.

(** [.from(table).select(...)] *)
Definition select {F O : Type} : Query F O := mkQuery [] None None.

(** Chaining one more predicate ([.eq], [.is], [.gte], [.lte]). *)
Definition where_ {F O : Type} (f : F) (q : Query F O) : Query F O :=
  mkQuery (filters q ++ [f]) (order q) (limit q).

Definition order_by {F O : Type} (o : O) (q : Query F O) : Query F O :=
  mkQuery (filters q) (Some o) (limit q).

Definition limit_to {F O : Type} (n : nat) (q : Query F O) : Query F O :=
  mkQuery (filters q) (order q) (Some n).

(** The predicates the operations put on each table. *)
Inductive CustomerFilter :=
| cust_eq_brand_id (v : BrandId)
| cust_eq_id (v : Uuid)
| cust_eq_email (v : string)
| cust_eq_phone (v : string)
| cust_eq_stage (v : CustomerStage.t)
| cust_eq_is_active (v : bool).

Inductive CustomerOrder :=
| cust_created_at_desc.

Inductive ConversationFilter :=
| conv_eq_brand_id (v : BrandId)
| conv_eq_id (v : Uuid)
| conv_eq_customer_id (v : Uuid)
| conv_eq_customer_phone (v : string)
| conv_eq_brand_phone (v : string)
| conv_eq_status (v : ConversationStatus.t)
| conv_is_opted_out_at_null
| conv_gte_created_at (v : Timestamp)
| conv_lte_created_at (v : Timestamp).

Inductive ConversationOrder :=
| conv_created_at_desc
| conv_last_message_at_desc.

Inductive MessageFilter :=
| msg_eq_conversation_id (v : Uuid).

Inductive MessageOrder :=
| msg_sent_at_desc.

End Postgrest.

Import Postgrest.

(** The connection handle [SupabaseClient<Database>]: the requests this
    package sends, against a store whose state has type [S].  A read leaves
    the store as it is; a write answers and yields the next state. *)
Module SupabaseClient.
Record t (S : Type) := mk {
  customers_select :
    Query CustomerFilter CustomerOrder → S → Response (list Customer.t);
  customers_single :
    Query CustomerFilter CustomerOrder → S → Response Customer.t;
  customers_insert_single :
    CustomerInsert.t → S → Response Customer.t * S;
  customers_update_single :
    CustomerUpdate.t → list CustomerFilter → S → Response Customer.t * S;
  conversations_select :
    Query ConversationFilter ConversationOrder → S →
    Response (list Conversation.t);
  conversations_single :
    Query ConversationFilter ConversationOrder → S →
    Response Conversation.t;
  conversations_insert_single :
    ConversationInsert.t → S → Response Conversation.t * S;
  conversations_update :
    ConversationUpdate.t → list ConversationFilter → S → Response () * S;
  conversations_update_single :
    ConversationUpdate.t → list ConversationFilter → S →
    Response Conversation.t * S;
  messages_select :
    Query MessageFilter MessageOrder → S → Response (list Message.t);
  messages_insert_single :
    MessageInsert.t → S → Response Message.t * S;
}.
Arguments customers_select {S} c q s : rename.
Arguments customers_single {S} c q s : rename.
Arguments customers_insert_single {S} c p s : rename.
Arguments customers_update_single {S} c p fs s : rename.
Arguments conversations_select {S} c q s : rename.
Arguments conversations_single {S} c q s : rename.
Arguments conversations_insert_single {S} c p s : rename.
Arguments conversations_update {S} c p fs s : rename.
Arguments conversations_update_single {S} c p fs s : rename.
Arguments messages_select {S} c q s : rename.
Arguments messages_insert_single {S} c p s : rename.
End SupabaseClient.

(** ** [client/supabase.ts] *)

(** [createClient]'s third argument. *)
Record ClientOptions := { persistSession : bool }.

(** [process.env] as far as this package reads it. *)
Record Env := {
  NEXT_PUBLIC_SUPABASE_URL : option string;
  NEXT_PUBLIC_SUPABASE_ANON_KEY : option string;
}.

Section Client.

Context {S : Type}.

(** [createClient] of supabase-js, taken as a constructor that returns. *)
Variable createClient : string → string → ClientOptions → SupabaseClient.t S.

(** The process: its environment and the module-level
    [let supabaseClient = null]. *)
Record Process := {
  env : Env;
  supabaseClient : option (SupabaseClient.t S);
}.

Definition createSupabaseClient (url anonKey : option string) (p : Process)
  : Result (SupabaseClient.t S) * Process :=
  match supabaseClient p with
  | Some c => (Ok c, p)
  | None =>
      let supabaseUrl := Js.or url (NEXT_PUBLIC_SUPABASE_URL (env p)) in
      let supabaseAnonKey :=
        Js.or anonKey (NEXT_PUBLIC_SUPABASE_ANON_KEY (env p)) in
      if negb (truthy supabaseUrl) || negb (truthy supabaseAnonKey)
      then (Throw "Missing Supabase configuration", p)
      else
        let c :=
          createClient (default "" supabaseUrl) (default "" supabaseAnonKey)
            {| persistSession := false |} in
        (Ok c, {| env := env p; supabaseClient := Some c |})
  end.

Definition getSupabaseClient (p : Process)
  : Result (SupabaseClient.t S) * Process :=
  match supabaseClient p with
  | None => createSupabaseClient None None p
  | Some c => (Ok c, p)
  end.

End Client.

Arguments Process S : clear implicits.

Module BrandAwareSupabase.
Section Wrapper.
Context {S : Type}.

Record t := mk {
  client : SupabaseClient.t S;
  brandContext : BrandContext.t;
}.

(** [new BrandAwareSupabase(brandContext, client?)] *)
Definition new
    (createClient : string → string → ClientOptions → SupabaseClient.t S)
    (brandContext : BrandContext.t)
    (client : option (SupabaseClient.t S)) (p : Process S)
  : Result t * Process S :=
  match client with
  | Some c => (Ok (mk c brandContext), p)
  | None =>
      match getSupabaseClient createClient p with
      | (Ok c, p') => (Ok (mk c brandContext), p')
      | (Throw e, p') => (Throw e, p')
      end
  end.

(** [get customers()] *)
Definition customers (db : t) : Query CustomerFilter CustomerOrder :=
  where_ (cust_eq_brand_id (BrandContext.brand_id (brandContext db)))
    select.

(** [get conversations()] *)
Definition conversations (db : t)
  : Query ConversationFilter ConversationOrder :=
  where_ (conv_eq_brand_id (BrandContext.brand_id (brandContext db)))
    select.

(** [get raw()] *)
Definition raw (db : t) : SupabaseClient.t S := client db.

(** [get context()] *)
Definition context (db : t) : BrandContext.t := brandContext db.

End Wrapper.
Arguments t S : clear implicits.
End BrandAwareSupabase.

(** [createBrandClient] *)
Definition createBrandClient {S : Type}
    (createClient : string → string → ClientOptions → SupabaseClient.t S)
    (brandContext : BrandContext.t) (p : Process S)
  : Result (BrandAwareSupabase.t S) * Process S :=
  BrandAwareSupabase.new createClient brandContext None p.

(** ** [utils/customer-ops.ts] *)

(** A JS object used as a counter table: [m[k] = (m[k] || 0) + 1] keeps the
    position of a key that is already there and appends a new one. *)
Fixpoint bump {K : Type} `{EqDecision K} (k : K) (m : list (K * nat))
  : list (K * nat) :=
  match m with
  | [] => [(k, 1)]
  | (k', n) :: m' =>
      if decide (k = k') then (k', n + 1) :: m' else (k', n) :: bump k m'
  end.

(** [m[k] || 0] *)
Fixpoint count_of {K : Type} `{EqDecision K} (k : K) (m : list (K * nat))
  : nat :=
  match m with
  | [] => 0
  | (k', n) :: m' => if decide (k = k') then n else count_of k m'
  end.

Module CustomerAnalytics.
Record t := mk {
  total : nat;
  byStage : list (CustomerStage.t * nat);
  bySource : list (CustomerSource.t * nat);
  conversionRate : float;
  avgTimeToConversion : float;
}.
End CustomerAnalytics.

Module CustomerOperations.
Section Ops.
Context {S : Type}.
Variable db : BrandAwareSupabase.t S.

Import BrandAwareSupabase SupabaseClient.

(** [create(data)]; the two timestamps are the two [new Date()] reads. *)
Definition create (data : CreateCustomer.t) (now1 now2 : Timestamp) (s : S)
  : Result Customer.t * S :=
  let customerData :=
    {| CustomerInsert.brand_id := BrandContext.brand_id (context db);
       CustomerInsert.email := CreateCustomer.email data;
       CustomerInsert.phone := CreateCustomer.phone data;
       CustomerInsert.first_name := CreateCustomer.first_name data;
       CustomerInsert.last_name := CreateCustomer.last_name data;
       CustomerInsert.stage :=
         Some (default CustomerStage.lead (CreateCustomer.stage data));
       CustomerInsert.source :=
         Some (default CustomerSource.website (CreateCustomer.source data));
       CustomerInsert.is_active := Some true;
       CustomerInsert.marketing_qualified_at := None;
       CustomerInsert.trial_started_at := None;
       CustomerInsert.subscribed_at := None;
       CustomerInsert.churned_at := None;
       CustomerInsert.metadata := CreateCustomer.metadata data;
       CustomerInsert.tags := CreateCustomer.tags data;
       CustomerInsert.created_at := Some now1;
       CustomerInsert.updated_at := Some now2;
       CustomerInsert.created_by := BrandContext.user_id (context db) |} in
  match customers_insert_single (raw db) customerData s with
  | (Failure error, s') =>
      (Throw ("Failed to create customer: " ++ message error), s')
  | (Data customer, s') => (Ok customer, s')
  end.

Definition getById (id : Uuid) (s : S) : Result (option Customer.t) :=
  match customers_single (client db)
          (where_ (cust_eq_id id) (customers db)) s with
  | Failure error =>
      if String.eqb (code error) "PGRST116" then Ok None
      else Throw ("Failed to get customer: " ++ message error)
  | Data data => Ok (Some data)
  end.

Definition getByEmail (email : string) (s : S)
  : Result (option Customer.t) :=
  match customers_single (client db)
          (where_ (cust_eq_email email) (customers db)) s with
  | Failure error =>
      if String.eqb (code error) "PGRST116" then Ok None
      else Throw ("Failed to get customer by email: " ++ message error)
  | Data data => Ok (Some data)
  end.

Definition getByPhone (phone : string) (s : S)
  : Result (option Customer.t) :=
  match customers_single (client db)
          (where_ (cust_eq_phone phone) (customers db)) s with
  | Failure error =>
      if String.eqb (code error) "PGRST116" then Ok None
      else Throw ("Failed to get customer by phone: " ++ message error)
  | Data data => Ok (Some data)
  end.

(** The object [{ ...data, updated_at: now }] that [update] sends. *)
Definition update_payload (data : UpdateCustomer.t) (now : Timestamp)
  : CustomerUpdate.t :=
  {| CustomerUpdate.brand_id := None;
     CustomerUpdate.email := UpdateCustomer.email data;
     CustomerUpdate.phone := UpdateCustomer.phone data;
     CustomerUpdate.first_name := UpdateCustomer.first_name data;
     CustomerUpdate.last_name := UpdateCustomer.last_name data;
     CustomerUpdate.stage := UpdateCustomer.stage data;
     CustomerUpdate.source := None;
     CustomerUpdate.is_active := UpdateCustomer.is_active data;
     CustomerUpdate.marketing_qualified_at :=
       UpdateCustomer.marketing_qualified_at data;
     CustomerUpdate.trial_started_at := UpdateCustomer.trial_started_at data;
     CustomerUpdate.subscribed_at := UpdateCustomer.subscribed_at data;
     CustomerUpdate.churned_at := UpdateCustomer.churned_at data;
     CustomerUpdate.metadata := UpdateCustomer.metadata data;
     CustomerUpdate.tags := UpdateCustomer.tags data;
     CustomerUpdate.created_at := None;
     CustomerUpdate.updated_at := Some now;
     CustomerUpdate.created_by := None |}.

(** [update(id, data)]: the payload goes out with the [id] and [brand_id]
    predicates. *)
Definition update (id : Uuid) (data : UpdateCustomer.t) (now : Timestamp)
    (s : S) : Result Customer.t * S :=
  let updateData := update_payload data now in
  match customers_update_single (raw db) updateData
          [cust_eq_id id;
           cust_eq_brand_id (BrandContext.brand_id (context db))] s with
  | (Failure error, s') =>
      (Throw ("Failed to update customer: " ++ message error), s')
  | (Data customer, s') => (Ok customer, s')
  end.

(** [progressStage(id, newStage)]; [now] is read here, [now_update]
    inside [update]. *)
Definition progressStage (id : Uuid) (newStage : CustomerStage.t)
    (now now_update : Timestamp) (s : S) : Result Customer.t * S :=
  let updateData := UpdateCustomer.set_stage newStage UpdateCustomer.empty in
  let updateData :=
    match newStage with
    | CustomerStage.marketing =>
        UpdateCustomer.set_marketing_qualified_at now updateData
    | CustomerStage.trial =>
        UpdateCustomer.set_trial_started_at now updateData
    | CustomerStage.active =>
        UpdateCustomer.set_subscribed_at now updateData
    | CustomerStage.churned =>
        UpdateCustomer.set_is_active false
          (UpdateCustomer.set_churned_at now updateData)
    | _ => updateData
    end in
  update id updateData now_update s.

(** [getByStage(stage, limit = 50)] *)
Definition getByStage (stage : CustomerStage.t) (limit : option nat)
    (s : S) : Result (list Customer.t) :=
  match customers_select (client db)
          (limit_to (default 50 limit)
             (order_by cust_created_at_desc
                (where_ (cust_eq_is_active true)
                   (where_ (cust_eq_stage stage) (customers db))))) s with
  | Failure error =>
      Throw ("Failed to get customers by stage: " ++ message error)
  | Data data => Ok data
  end.

(** [findOrCreate(email, data = {})]: the customer is created from
    [{ email, ...data }]. *)
Definition findOrCreate (email : string)
    (data : option PartialCreateCustomer.t) (now1 now2 : Timestamp)
    (s : S) : Result Customer.t * S :=
  let data := default PartialCreateCustomer.empty data in
  match getByEmail email s with
  | Throw e => (Throw e, s)
  | Ok (Some existing) => (Ok existing, s)
  | Ok None =>
      create
        {| CreateCustomer.email :=
             default email (PartialCreateCustomer.email data);
           CreateCustomer.phone := PartialCreateCustomer.phone data;
           CreateCustomer.first_name :=
             PartialCreateCustomer.first_name data;
           CreateCustomer.last_name :=
             PartialCreateCustomer.last_name data;
           CreateCustomer.stage := PartialCreateCustomer.stage data;
           CreateCustomer.source := PartialCreateCustomer.source data;
           CreateCustomer.metadata := PartialCreateCustomer.metadata data;
           CreateCustomer.tags := PartialCreateCustomer.tags data |}
        now1 now2 s
  end.

Definition addTags (id : Uuid) (tags : list string) (now : Timestamp)
    (s : S) : Result Customer.t * S :=
  match getById id s with
  | Throw e => (Throw e, s)
  | Ok None => (Throw "Customer not found", s)
  | Ok (Some customer) =>
      let existingTags := default [] (Customer.tags customer) in
      let newTags := set_spread (existingTags ++ tags) in
      update id (UpdateCustomer.set_tags newTags UpdateCustomer.empty)
        now s
  end.

Definition removeTags (id : Uuid) (tags : list string) (now : Timestamp)
    (s : S) : Result Customer.t * S :=
  match getById id s with
  | Throw e => (Throw e, s)
  | Ok None => (Throw "Customer not found", s)
  | Ok (Some customer) =>
      let existingTags := default [] (Customer.tags customer) in
      let newTags :=
        List.filter (λ tag, negb (bool_decide (tag ∈ tags)))
          existingTags in
      update id (UpdateCustomer.set_tags newTags UpdateCustomer.empty)
        now s
  end.

(** [getAnalytics()]; the column list of the [select] narrows each row
    to the fields read below. *)
Definition getAnalytics (s : S) : Result CustomerAnalytics.t :=
  match customers_select (raw db)
          (where_ (cust_eq_brand_id (BrandContext.brand_id (context db)))
             select) s with
  | Failure error =>
      Throw ("Failed to get customer analytics: " ++ message error)
  | Data data =>
      let byStage :=
        fold_left (λ acc customer, bump (Customer.stage customer) acc)
          data [] in
      let bySource :=
        fold_left (λ acc customer, bump (Customer.source customer) acc)
          data [] in
      let leads := count_of CustomerStage.lead byStage in
      let active := count_of CustomerStage.active byStage in
      Ok {| CustomerAnalytics.total := length data;
            CustomerAnalytics.byStage := byStage;
            CustomerAnalytics.bySource := bySource;
            CustomerAnalytics.conversionRate :=
              if bool_decide (0 < leads)
              then (number_of_nat active / number_of_nat leads * 100)%float
              else 0%float;
            CustomerAnalytics.avgTimeToConversion := 0%float |}
  end.

End Ops.
End CustomerOperations.

(** ** [utils/conversation-ops.ts] *)

Module ConversationAnalytics.
Record t := mk {
  total : nat;
  active : nat;
  optedOut : nat;
  byStatus : list (ConversationStatus.t * nat);
  avgMessagesPerConversation : float;
  totalMessages : Z;
}.
End ConversationAnalytics.

(** The optional [campaignData] argument of [findOrCreate]. *)
Module CampaignData.
Record t := mk {
  campaign_id : option Uuid;
  campaign_name : option string;
}.
End CampaignData.

(** The optional [timeRange] argument of [getAnalytics]. *)
Module TimeRange.
Record t := mk {
  start : Timestamp;
  end_ : Timestamp;
}.
End TimeRange.

Module ConversationOperations.
Section Ops.
Context {S : Type}.
Variable db : BrandAwareSupabase.t S.

Import BrandAwareSupabase SupabaseClient.

(** [create(data)]; the two timestamps are the two [new Date()] reads. *)
Definition create (data : CreateConversation.t) (now1 now2 : Timestamp)
    (s : S) : Result Conversation.t * S :=
  let conversationData :=
    {| ConversationInsert.brand_id := BrandContext.brand_id (context db);
       ConversationInsert.customer_id := CreateConversation.customer_id data;
       ConversationInsert.customer_phone :=
         CreateConversation.customer_phone data;
       ConversationInsert.brand_phone := CreateConversation.brand_phone data;
       ConversationInsert.status := Some ConversationStatus.active;
       ConversationInsert.campaign_id := CreateConversation.campaign_id data;
       ConversationInsert.campaign_name :=
         CreateConversation.campaign_name data;
       ConversationInsert.message_count := Some 0%Z;
       ConversationInsert.last_message_at := None;
       ConversationInsert.last_inbound_at := None;
       ConversationInsert.last_outbound_at := None;
       ConversationInsert.opted_out_at := None;
       ConversationInsert.opt_out_reason := None;
       ConversationInsert.metadata := CreateConversation.metadata data;
       ConversationInsert.tags := CreateConversation.tags data;
       ConversationInsert.created_at := Some now1;
       ConversationInsert.updated_at := Some now2 |} in
  match conversations_insert_single (raw db) conversationData s with
  | (Failure error, s') =>
      (Throw ("Failed to create conversation: " ++ message error), s')
  | (Data conversation, s') => (Ok conversation, s')
  end.

Definition getById (id : Uuid) (s : S) : Result (option Conversation.t) :=
  match conversations_single (client db)
          (where_ (conv_eq_id id) (conversations db)) s with
  | Failure error =>
      if String.eqb (code error) "PGRST116" then Ok None
      else Throw ("Failed to get conversation: " ++ message error)
  | Data data => Ok (Some data)
  end.

Definition getByCustomer (customerId : Uuid) (s : S)
  : Result (list Conversation.t) :=
  match conversations_select (client db)
          (order_by conv_created_at_desc
             (where_ (conv_eq_customer_id customerId) (conversations db)))
          s with
  | Failure error =>
      Throw ("Failed to get conversations for customer: "
             ++ message error)
  | Data data => Ok data
  end.

Definition getByPhones (customerPhone brandPhone : string) (s : S)
  : Result (option Conversation.t) :=
  match conversations_single (client db)
          (where_ (conv_eq_status ConversationStatus.active)
             (where_ (conv_eq_brand_phone brandPhone)
                (where_ (conv_eq_customer_phone customerPhone)
                   (conversations db)))) s with
  | Failure error =>
      if String.eqb (code error) "PGRST116" then Ok None
      else Throw ("Failed to get conversation by phones: "
                  ++ message error)
  | Data data => Ok (Some data)
  end.

Definition findOrCreate (customerId : Uuid)
    (customerPhone brandPhone : string)
    (campaignData : option CampaignData.t) (now1 now2 : Timestamp)
    (s : S) : Result Conversation.t * S :=
  let create_new :=
    create
      {| CreateConversation.customer_id := customerId;
         CreateConversation.customer_phone := customerPhone;
         CreateConversation.brand_phone := brandPhone;
         CreateConversation.campaign_id :=
           campaignData ≫= CampaignData.campaign_id;
         CreateConversation.campaign_name :=
           campaignData ≫= CampaignData.campaign_name;
         CreateConversation.metadata := None;
         CreateConversation.tags := None |} now1 now2 s in
  match getByPhones customerPhone brandPhone s with
  | Throw e => (Throw e, s)
  | Ok (Some existing) =>
      if bool_decide
           (Conversation.status existing = ConversationStatus.active)
      then (Ok existing, s)
      else create_new
  | Ok None => create_new
  end.

(** [addMessage(data)]: the message insert, then the update of the
    conversation's activity stamps. *)
Definition addMessage (data : CreateMessage.t) (now : Timestamp) (s : S)
  : Result Message.t * S :=
  let messageData :=
    {| MessageInsert.conversation_id := CreateMessage.conversation_id data;
       MessageInsert.direction := CreateMessage.direction data;
       MessageInsert.content := CreateMessage.content data;
       MessageInsert.media_urls := CreateMessage.media_urls data;
       MessageInsert.status := None;
       MessageInsert.external_id := CreateMessage.external_id data;
       MessageInsert.metadata := CreateMessage.metadata data;
       MessageInsert.sent_at := Some now;
       MessageInsert.delivered_at := None;
       MessageInsert.created_at := Some now |} in
  match messages_insert_single (raw db) messageData s with
  | (Failure messageError, s1) =>
      (Throw ("Failed to create message: " ++ message messageError), s1)
  | (Data message_, s1) =>
      let updateData :=
        ConversationUpdate.set_updated_at now
          (ConversationUpdate.set_last_message_at now
             ConversationUpdate.empty) in
      let updateData :=
        if bool_decide
             (CreateMessage.direction data = MessageDirection.inbound)
        then ConversationUpdate.set_last_inbound_at now updateData
        else ConversationUpdate.set_last_outbound_at now updateData in
      match conversations_update (raw db) updateData
              [conv_eq_id (CreateMessage.conversation_id data);
               conv_eq_brand_id (BrandContext.brand_id (context db))]
              s1 with
      | (Failure conversationError, s2) =>
          (Throw ("Failed to update conversation stats: "
                  ++ message conversationError), s2)
      | (Data _, s2) => (Ok message_, s2)
      end
  end.

(** [getMessages(conversationId, limit = 50)] *)
Definition getMessages (conversationId : Uuid) (limit : option nat)
    (s : S) : Result (list Message.t) :=
  match messages_select (raw db)
          (limit_to (default 50 limit)
             (order_by msg_sent_at_desc
                (where_ (msg_eq_conversation_id conversationId) select)))
          s with
  | Failure error => Throw ("Failed to get messages: " ++ message error)
  | Data data => Ok data
  end.

Definition updateStatus (id : Uuid) (status : ConversationStatus.t)
    (now : Timestamp) (s : S) : Result Conversation.t * S :=
  match conversations_update_single (raw db)
          (ConversationUpdate.set_updated_at now
             (ConversationUpdate.set_status status
                ConversationUpdate.empty))
          [conv_eq_id id;
           conv_eq_brand_id (BrandContext.brand_id (context db))] s with
  | (Failure error, s') =>
      (Throw ("Failed to update conversation status: " ++ message error),
       s')
  | (Data data, s') => (Ok data, s')
  end.

(** [optOut(id, reason?)]: an [undefined] reason leaves its key out of
    the payload. *)
Definition optOut (id : Uuid) (reason : option string) (now : Timestamp)
    (s : S) : Result Conversation.t * S :=
  match conversations_update_single (raw db)
          (ConversationUpdate.set_updated_at now
             (ConversationUpdate.set_status ConversationStatus.archived
                (ConversationUpdate.set_opt_out_reason reason
                   (ConversationUpdate.set_opted_out_at now
                      ConversationUpdate.empty))))
          [conv_eq_id id;
           conv_eq_brand_id (BrandContext.brand_id (context db))] s with
  | (Failure error, s') =>
      (Throw ("Failed to opt out conversation: " ++ message error), s')
  | (Data data, s') => (Ok data, s')
  end.

(** [getActive(limit = 50)] *)
Definition getActive (limit : option nat) (s : S)
  : Result (list Conversation.t) :=
  match conversations_select (client db)
          (limit_to (default 50 limit)
             (order_by conv_last_message_at_desc
                (where_ conv_is_opted_out_at_null
                   (where_ (conv_eq_status ConversationStatus.active)
                      (conversations db))))) s with
  | Failure error =>
      Throw ("Failed to get active conversations: " ++ message error)
  | Data data => Ok data
  end.

(** [getAnalytics(timeRange?)] *)
Definition getAnalytics (timeRange : option TimeRange.t) (s : S)
  : Result ConversationAnalytics.t :=
  let query := conversations db in
  let query :=
    match timeRange with
    | Some r =>
        where_ (conv_lte_created_at (TimeRange.end_ r))
          (where_ (conv_gte_created_at (TimeRange.start r)) query)
    | None => query
    end in
  match conversations_select (client db) query s with
  | Failure error =>
      Throw ("Failed to get conversation analytics: " ++ message error)
  | Data data =>
      let byStatus :=
        fold_left (λ acc conv, bump (Conversation.status conv) acc)
          data [] in
      let active :=
        fold_left
          (λ acc conv,
             if bool_decide
                  (Conversation.status conv = ConversationStatus.active)
             then acc + 1 else acc)
          data 0 in
      let optedOut :=
        fold_left
          (λ acc conv,
             if truthy (Conversation.opted_out_at conv)
             then acc + 1 else acc)
          data 0 in
      let totalMessages :=
        fold_left (λ acc conv, (acc + Conversation.message_count conv)%Z)
          data 0%Z in
      Ok {| ConversationAnalytics.total := length data;
            ConversationAnalytics.active := active;
            ConversationAnalytics.optedOut := optedOut;
            ConversationAnalytics.byStatus := byStatus;
            ConversationAnalytics.avgMessagesPerConversation :=
              if bool_decide (0 < length data)
              then (number_of_Z totalMessages
                    / number_of_nat (length data))%float
              else 0%float;
            ConversationAnalytics.totalMessages := totalMessages |}
  end.

End Ops.
End ConversationOperations.

(** [createDatabaseClient] of [index.ts]: the per-request handle. *)
Module DatabaseClient.
Record t (S : Type) := mk {
  client : BrandAwareSupabase.t S;
  raw : SupabaseClient.t S;
  context : BrandContext.t;
}.
Arguments mk {S} client raw context.
Arguments client {S} _.
Arguments raw {S} _.
Arguments context {S} _.
End DatabaseClient.

Definition createDatabaseClient {S : Type}
    (createClient : string → string → ClientOptions → SupabaseClient.t S)
    (brandContext : BrandContext.t) (p : Process S)
  : Result (DatabaseClient.t S) * Process S :=
  match createBrandClient createClient brandContext p with
  | (Ok client, p') =>
      (Ok (DatabaseClient.mk client (BrandAwareSupabase.raw client)
             (BrandAwareSupabase.context client)), p')
  | (Throw e, p') => (Throw e, p')
  end.

(** ** The hosted store ([schemas/tables.sql] behind PostgREST)

    The three tables with their primary keys, unique constraints, foreign
    keys, column defaults and [updated_at] triggers.  Every request runs in
    its own transaction, so a request that fails leaves the tables as they
    were.  Values are taken at their TypeScript types: the textual validity
    of uuid and timestamp literals and the length limits of the [VARCHAR]
    columns are outside the model.  So are the row-level-security policies:
    they compare [brand_id] with the session setting [app.current_brand],
    which nothing in this package sets, and the connection is taken to run
    under a role they do not restrict. *)

Module Pg.

Record Db := mkDb {
  customers : list Customer.t;
  conversations : list Conversation.t;
  messages : list Message.t;
  (** [NOW()] as the server sees it *)
  now : Timestamp;
}.

Definition set_customers (rows : list Customer.t) (db : Db) : Db :=
  mkDb rows (conversations db) (messages db) (now db).
Definition set_conversations (rows : list Conversation.t) (db : Db) : Db :=
  mkDb (customers db) rows (messages db) (now db).
Definition set_messages (rows : list Message.t) (db : Db) : Db :=
  mkDb (customers db) (conversations db) rows (now db).

(** *** Errors *)

Definition no_single_row : Error :=
  mkError PGRST116 "JSON object requested, multiple (or no) rows returned".

Definition unique_violation (constraint : string) : Error :=
  mkError "23505"
    ("duplicate key value violates unique constraint " ++ constraint).

Definition foreign_key_violation (constraint : string) : Error :=
  mkError "23503"
    ("insert or update on table violates foreign key constraint "
     ++ constraint).

(** *** Predicates *)

Definition cust_matches (f : CustomerFilter) (c : Customer.t) : bool :=
  match f with
  | cust_eq_brand_id v => bool_decide (Customer.brand_id c = v)
  | cust_eq_id v => bool_decide (Customer.id c = v)
  | cust_eq_email v => bool_decide (Customer.email c = v)
  | cust_eq_phone v => bool_decide (Customer.phone c = Some v)
  | cust_eq_stage v => bool_decide (Customer.stage c = v)
  | cust_eq_is_active v => bool_decide (Customer.is_active c = v)
  end.

Definition conv_matches (f : ConversationFilter) (c : Conversation.t)
  : bool :=
  match f with
  | conv_eq_brand_id v => bool_decide (Conversation.brand_id c = v)
  | conv_eq_id v => bool_decide (Conversation.id c = v)
  | conv_eq_customer_id v => bool_decide (Conversation.customer_id c = v)
  | conv_eq_customer_phone v =>
      bool_decide (Conversation.customer_phone c = v)
  | conv_eq_brand_phone v => bool_decide (Conversation.brand_phone c = v)
  | conv_eq_status v => bool_decide (Conversation.status c = v)
  | conv_is_opted_out_at_null =>
      bool_decide (Conversation.opted_out_at c = None)
  | conv_gte_created_at v => String.leb v (Conversation.created_at c)
  | conv_lte_created_at v => String.leb (Conversation.created_at c) v
  end.

Definition msg_matches (f : MessageFilter) (m : Message.t) : bool :=
  match f with
  | msg_eq_conversation_id v => bool_decide (Message.conversation_id m = v)
  end.

(** A row is selected when it satisfies every chained predicate. *)
Definition satisfies {F A : Type} (matches : F → A → bool) (fs : list F)
    (row : A) : bool :=
  forallb (λ f, matches f row) fs.

(** *** [ORDER BY ... DESC] and [LIMIT] *)

(** [a] sorts strictly before [b] in descending order; [NULL]s come first,
    as Postgres places them for [DESC]. *)
Definition before_desc (a b : option Timestamp) : bool :=
  match a, b with
  | None, Some _ => true
  | Some x, Some y => String.ltb y x
  | _, None => false
  end.

Fixpoint insert_desc {A : Type} (key : A → option Timestamp) (x : A)
    (l : list A) : list A :=
  match l with
  | [] => [x]
  | y :: l' =>
      if before_desc (key y) (key x) then y :: insert_desc key x l'
      else x :: y :: l'
  end.

Definition sort_desc {A : Type} (key : A → option Timestamp) (l : list A)
  : list A :=
  foldr (insert_desc key) [] l.

Definition cust_order_key (o : CustomerOrder) (c : Customer.t)
  : option Timestamp :=
  match o with
  | cust_created_at_desc => Some (Customer.created_at c)
  end.

Definition conv_order_key (o : ConversationOrder) (c : Conversation.t)
  : option Timestamp :=
  match o with
  | conv_created_at_desc => Some (Conversation.created_at c)
  | conv_last_message_at_desc => Conversation.last_message_at c
  end.

Definition msg_order_key (o : MessageOrder) (m : Message.t)
  : option Timestamp :=
  match o with
  | msg_sent_at_desc => Some (Message.sent_at m)
  end.

(** The rows a [select] returns. *)
Definition run {F O A : Type} (matches : F → A → bool)
    (key : O → A → option Timestamp) (q : Query F O) (rows : list A)
  : list A :=
  let hit := List.filter (satisfies matches (filters q)) rows in
  let sorted :=
    match order q with
    | Some o => sort_desc (key o) hit
    | None => hit
    end in
  match limit q with
  | Some n => take n sorted
  | None => sorted
  end.

(** [.single()]: exactly one row, or the [PGRST116] error. *)
Definition single {A : Type} (rows : list A) : Response A :=
  match rows with
  | [row] => Data row
  | _ => Failure no_single_row
  end.

(** *** Constraints *)

(** [customers_brand_email_unique] *)
Definition cust_email_key (c : Customer.t) : BrandId * string :=
  (Customer.brand_id c, Customer.email c).

(** [customers_brand_phone_unique]; rows with a [NULL] phone never
    collide. *)
Definition cust_phone_key (c : Customer.t) : option (BrandId * string) :=
  (λ p, (Customer.brand_id c, p)) <$> Customer.phone c.

(** [conversations_brand_phones_unique] *)
Definition conv_phones_key (c : Conversation.t)
  : BrandId * string * string :=
  (Conversation.brand_id c, Conversation.customer_phone c,
   Conversation.brand_phone c).

Definition customers_ok (rows : list Customer.t) : option Error :=
  if negb (bool_decide (NoDup (cust_email_key <$> rows)))
  then Some (unique_violation "customers_brand_email_unique")
  else if negb (bool_decide (NoDup (omap cust_phone_key rows)))
  then Some (unique_violation "customers_brand_phone_unique")
  else None.

Definition conversations_ok (db : Db) (rows : list Conversation.t)
  : option Error :=
  if negb (bool_decide (NoDup (conv_phones_key <$> rows)))
  then Some (unique_violation "conversations_brand_phones_unique")
  else if negb (forallb
                  (λ c, bool_decide (Conversation.customer_id c
                                     ∈ Customer.id <$> customers db))
                  rows)
  then Some (foreign_key_violation "conversations_customer_id_fkey")
  else None.

(** *** [customers] *)

Definition customers_select (q : Query CustomerFilter CustomerOrder)
    (db : Db) : Response (list Customer.t) :=
  Data (run cust_matches cust_order_key q (customers db)).

Definition customers_single (q : Query CustomerFilter CustomerOrder)
    (db : Db) : Response Customer.t :=
  single (run cust_matches cust_order_key q (customers db)).

(** The row an [INSERT] builds: [uuid_generate_v4()] picks an id no row
    has, and absent columns take their defaults. *)
Definition new_customer (p : CustomerInsert.t) (db : Db) : Customer.t :=
  {| Customer.id := fresh (Customer.id <$> customers db);
     Customer.brand_id := CustomerInsert.brand_id p;
     Customer.email := CustomerInsert.email p;
     Customer.phone := CustomerInsert.phone p;
     Customer.first_name := CustomerInsert.first_name p;
     Customer.last_name := CustomerInsert.last_name p;
     Customer.stage := default CustomerStage.lead (CustomerInsert.stage p);
     Customer.source :=
       default CustomerSource.website (CustomerInsert.source p);
     Customer.is_active := default true (CustomerInsert.is_active p);
     Customer.marketing_qualified_at :=
       CustomerInsert.marketing_qualified_at p;
     Customer.trial_started_at := CustomerInsert.trial_started_at p;
     Customer.subscribed_at := CustomerInsert.subscribed_at p;
     Customer.churned_at := CustomerInsert.churned_at p;
     Customer.metadata := CustomerInsert.metadata p;
     Customer.tags := CustomerInsert.tags p;
     Customer.created_at := default (now db) (CustomerInsert.created_at p);
     Customer.updated_at := default (now db) (CustomerInsert.updated_at p);
     Customer.created_by := CustomerInsert.created_by p |}.

Definition customers_insert_single (p : CustomerInsert.t) (db : Db)
  : Response Customer.t * Db :=
  let row := new_customer p db in
  let rows := customers db ++ [row] in
  match customers_ok rows with
  | Some e => (Failure e, db)
  | None => (Data row, set_customers rows db)
  end.

(** The row an [UPDATE] leaves: present keys overwrite, and the
    [update_customers_updated_at] trigger stamps [updated_at]. *)
Definition patch_customer (p : CustomerUpdate.t) (db : Db)
    (c : Customer.t) : Customer.t :=
  {| Customer.id := Customer.id c;
     Customer.brand_id :=
       default (Customer.brand_id c) (CustomerUpdate.brand_id p);
     Customer.email := default (Customer.email c) (CustomerUpdate.email p);
     Customer.phone :=
       from_option Some (Customer.phone c) (CustomerUpdate.phone p);
     Customer.first_name :=
       from_option Some (Customer.first_name c)
         (CustomerUpdate.first_name p);
     Customer.last_name :=
       from_option Some (Customer.last_name c) (CustomerUpdate.last_name p);
     Customer.stage := default (Customer.stage c) (CustomerUpdate.stage p);
     Customer.source :=
       default (Customer.source c) (CustomerUpdate.source p);
     Customer.is_active :=
       default (Customer.is_active c) (CustomerUpdate.is_active p);
     Customer.marketing_qualified_at :=
       from_option Some (Customer.marketing_qualified_at c)
         (CustomerUpdate.marketing_qualified_at p);
     Customer.trial_started_at :=
       from_option Some (Customer.trial_started_at c)
         (CustomerUpdate.trial_started_at p);
     Customer.subscribed_at :=
       from_option Some (Customer.subscribed_at c)
         (CustomerUpdate.subscribed_at p);
     Customer.churned_at :=
       from_option Some (Customer.churned_at c)
         (CustomerUpdate.churned_at p);
     Customer.metadata :=
       from_option Some (Customer.metadata c) (CustomerUpdate.metadata p);
     Customer.tags :=
       from_option Some (Customer.tags c) (CustomerUpdate.tags p);
     Customer.created_at :=
       default (Customer.created_at c) (CustomerUpdate.created_at p);
     Customer.updated_at := now db;
     Customer.created_by :=
       from_option Some (Customer.created_by c)
         (CustomerUpdate.created_by p) |}.

(** [.update(p)...select().single()] *)
Definition customers_update_single (p : CustomerUpdate.t)
    (fs : list CustomerFilter) (db : Db) : Response Customer.t * Db :=
  let rows :=
    (λ c, if satisfies cust_matches fs c then patch_customer p db c else c)
      <$> customers db in
  match customers_ok rows with
  | Some e => (Failure e, db)
  | None =>
      match List.filter (satisfies cust_matches fs) (customers db) with
      | [c] => (Data (patch_customer p db c), set_customers rows db)
      | _ => (Failure no_single_row, db)
      end
  end.

(** *** [conversations] *)

Definition conversations_select
    (q : Query ConversationFilter ConversationOrder) (db : Db)
  : Response (list Conversation.t) :=
  Data (run conv_matches conv_order_key q (conversations db)).

Definition conversations_single
    (q : Query ConversationFilter ConversationOrder) (db : Db)
  : Response Conversation.t :=
  single (run conv_matches conv_order_key q (conversations db)).

Definition new_conversation (p : ConversationInsert.t) (db : Db)
  : Conversation.t :=
  {| Conversation.id := fresh (Conversation.id <$> conversations db);
     Conversation.brand_id := ConversationInsert.brand_id p;
     Conversation.customer_id := ConversationInsert.customer_id p;
     Conversation.customer_phone := ConversationInsert.customer_phone p;
     Conversation.brand_phone := ConversationInsert.brand_phone p;
     Conversation.status :=
       default ConversationStatus.active (ConversationInsert.status p);
     Conversation.campaign_id := ConversationInsert.campaign_id p;
     Conversation.campaign_name := ConversationInsert.campaign_name p;
     Conversation.message_count :=
       default 0%Z (ConversationInsert.message_count p);
     Conversation.last_message_at := ConversationInsert.last_message_at p;
     Conversation.last_inbound_at := ConversationInsert.last_inbound_at p;
     Conversation.last_outbound_at := ConversationInsert.last_outbound_at p;
     Conversation.opted_out_at := ConversationInsert.opted_out_at p;
     Conversation.opt_out_reason := ConversationInsert.opt_out_reason p;
     Conversation.metadata := ConversationInsert.metadata p;
     Conversation.tags := ConversationInsert.tags p;
     Conversation.created_at :=
       default (now db) (ConversationInsert.created_at p);
     Conversation.updated_at :=
       default (now db) (ConversationInsert.updated_at p) |}.

Definition conversations_insert_single (p : ConversationInsert.t) (db : Db)
  : Response Conversation.t * Db :=
  let row := new_conversation p db in
  let rows := conversations db ++ [row] in
  match conversations_ok db rows with
  | Some e => (Failure e, db)
  | None => (Data row, set_conversations rows db)
  end.

(** Present keys overwrite, and the [update_conversations_updated_at]
    trigger stamps [updated_at]. *)
Definition patch_conversation (p : ConversationUpdate.t) (db : Db)
    (c : Conversation.t) : Conversation.t :=
  {| Conversation.id := Conversation.id c;
     Conversation.brand_id :=
       default (Conversation.brand_id c) (ConversationUpdate.brand_id p);
     Conversation.customer_id :=
       default (Conversation.customer_id c)
         (ConversationUpdate.customer_id p);
     Conversation.customer_phone :=
       default (Conversation.customer_phone c)
         (ConversationUpdate.customer_phone p);
     Conversation.brand_phone :=
       default (Conversation.brand_phone c)
         (ConversationUpdate.brand_phone p);
     Conversation.status :=
       default (Conversation.status c) (ConversationUpdate.status p);
     Conversation.campaign_id :=
       from_option Some (Conversation.campaign_id c)
         (ConversationUpdate.campaign_id p);
     Conversation.campaign_name :=
       from_option Some (Conversation.campaign_name c)
         (ConversationUpdate.campaign_name p);
     Conversation.message_count :=
       default (Conversation.message_count c)
         (ConversationUpdate.message_count p);
     Conversation.last_message_at :=
       from_option Some (Conversation.last_message_at c)
         (ConversationUpdate.last_message_at p);
     Conversation.last_inbound_at :=
       from_option Some (Conversation.last_inbound_at c)
         (ConversationUpdate.last_inbound_at p);
     Conversation.last_outbound_at :=
       from_option Some (Conversation.last_outbound_at c)
         (ConversationUpdate.last_outbound_at p);
     Conversation.opted_out_at :=
       from_option Some (Conversation.opted_out_at c)
         (ConversationUpdate.opted_out_at p);
     Conversation.opt_out_reason :=
       from_option Some (Conversation.opt_out_reason c)
         (ConversationUpdate.opt_out_reason p);
     Conversation.metadata :=
       from_option Some (Conversation.metadata c)
         (ConversationUpdate.metadata p);
     Conversation.tags :=
       from_option Some (Conversation.tags c) (ConversationUpdate.tags p);
     Conversation.created_at :=
       default (Conversation.created_at c)
         (ConversationUpdate.created_at p);
     Conversation.updated_at := now db |}.

Definition patched_conversations (p : ConversationUpdate.t)
    (fs : list ConversationFilter) (db : Db) : list Conversation.t :=
  (λ c, if satisfies conv_matches fs c then patch_conversation p db c
        else c) <$> conversations db.

(** [.update(p).eq(...)] with no [select]: any number of rows, none
    included, is a success. *)
Definition conversations_update (p : ConversationUpdate.t)
    (fs : list ConversationFilter) (db : Db) : Response () * Db :=
  let rows := patched_conversations p fs db in
  match conversations_ok db rows with
  | Some e => (Failure e, db)
  | None => (Data (), set_conversations rows db)
  end.

(** [.update(p)...select().single()] *)
Definition conversations_update_single (p : ConversationUpdate.t)
    (fs : list ConversationFilter) (db : Db)
  : Response Conversation.t * Db :=
  let rows := patched_conversations p fs db in
  match conversations_ok db rows with
  | Some e => (Failure e, db)
  | None =>
      match List.filter (satisfies conv_matches fs) (conversations db) with
      | [c] => (Data (patch_conversation p db c), set_conversations rows db)
      | _ => (Failure no_single_row, db)
      end
  end.

(** *** [messages] *)

Definition messages_select (q : Query MessageFilter MessageOrder) (db : Db)
  : Response (list Message.t) :=
  Data (run msg_matches msg_order_key q (messages db)).

Definition new_message (p : MessageInsert.t) (db : Db) : Message.t :=
  {| Message.id := fresh (Message.id <$> messages db);
     Message.conversation_id := MessageInsert.conversation_id p;
     Message.direction := MessageInsert.direction p;
     Message.content := MessageInsert.content p;
     Message.media_urls := MessageInsert.media_urls p;
     Message.status := MessageInsert.status p;
     Message.external_id := MessageInsert.external_id p;
     Message.metadata := MessageInsert.metadata p;
     Message.sent_at := default (now db) (MessageInsert.sent_at p);
     Message.delivered_at := MessageInsert.delivered_at p;
     Message.created_at := default (now db) (MessageInsert.created_at p) |}.

(** The only constraint on a new message is its foreign key: the
    conversation must exist, under whatever brand. *)
Definition messages_insert_single (p : MessageInsert.t) (db : Db)
  : Response Message.t * Db :=
  let row := new_message p db in
  if bool_decide (MessageInsert.conversation_id p
                  ∈ Conversation.id <$> conversations db)
  then (Data row, set_messages (messages db ++ [row]) db)
  else (Failure (foreign_key_violation "messages_conversation_id_fkey"), db).

(** *** The connection *)

Definition client : SupabaseClient.t Db :=
  SupabaseClient.mk Db
    customers_select customers_single customers_insert_single
    customers_update_single
    conversations_select conversations_single conversations_insert_single
    conversations_update conversations_update_single
    messages_select messages_insert_single.

(** Every connection reaches the one store, whatever its endpoint and
    key. *)
Definition createClient (url anonKey : string) (options : ClientOptions)
  : SupabaseClient.t Db :=
  client.

(** The brand-bound handle over this store. *)
Definition bound (ctx : BrandContext.t) : BrandAwareSupabase.t Db :=
  BrandAwareSupabase.mk client ctx.

(** *** States that satisfy the schema *)

Record consistent (db : Db) : Prop := {
  customers_pkey : NoDup (Customer.id <$> customers db);
  customers_brand_email_unique : NoDup (cust_email_key <$> customers db);
  customers_brand_phone_unique : NoDup (omap cust_phone_key (customers db));
  conversations_pkey : NoDup (Conversation.id <$> conversations db);
  conversations_brand_phones_unique :
    NoDup (conv_phones_key <$> conversations db);
  conversations_customer_id_fkey :
    Forall (λ c, Conversation.customer_id c ∈ Customer.id <$> customers db)
      (conversations db);
  messages_pkey : NoDup (Message.id <$> messages db);
  messages_conversation_id_fkey :
    Forall (λ m, Message.conversation_id m
                 ∈ Conversation.id <$> conversations db)
      (messages db);
}.

Definition consistentb (db : Db) : bool :=
  bool_decide (NoDup (Customer.id <$> customers db))
  && bool_decide (NoDup (cust_email_key <$> customers db))
  && bool_decide (NoDup (omap cust_phone_key (customers db)))
  && bool_decide (NoDup (Conversation.id <$> conversations db))
  && bool_decide (NoDup (conv_phones_key <$> conversations db))
  && bool_decide
       (Forall (λ c, Conversation.customer_id c
                     ∈ Customer.id <$> customers db)
          (conversations db))
  && bool_decide (NoDup (Message.id <$> messages db))
  && bool_decide
       (Forall (λ m, Message.conversation_id m
                     ∈ Conversation.id <$> conversations db)
          (messages db)).

(** The empty store at server time [t]. *)
Definition empty (t : Timestamp) : Db := mkDb [] [] [] t.

End Pg.

(** ** A worked scenario

    One customer of [gnymble], a conversation found-or-created for them and
    one outbound message, all written through the operations on an empty
    store. *)

Module Scenario.

Definition ctx (b : BrandId) : BrandContext.t :=
  BrandContext.mk b (getBrandConfig b) None None.

Definition t0 : Timestamp := "2024-12-15T09:00:00.000Z".
Definition t1 : Timestamp := "2024-12-15T09:01:00.000Z".
Definition t2 : Timestamp := "2024-12-15T09:02:00.000Z".
Definition t3 : Timestamp := "2024-12-15T09:03:00.000Z".
Definition t4 : Timestamp := "2024-12-15T09:04:00.000Z".

Definition s0 : Pg.Db := Pg.empty t0.

Definition s1 : Pg.Db :=
  (CustomerOperations.create (Pg.bound (ctx gnymble))
     (CreateCustomer.mk "a@b.com" None None None None None None None)
     t1 t1 s0).2.

(** The customer's id, as the store chose it. *)
Definition customer_id : Uuid := "0".

(** The customer as stored. *)
Definition customer : Customer.t :=
  {| Customer.id := customer_id;
     Customer.brand_id := gnymble;
     Customer.email := "a@b.com";
     Customer.phone := None;
     Customer.first_name := None;
     Customer.last_name := None;
     Customer.stage := CustomerStage.lead;
     Customer.source := CustomerSource.website;
     Customer.is_active := true;
     Customer.marketing_qualified_at := None;
     Customer.trial_started_at := None;
     Customer.subscribed_at := None;
     Customer.churned_at := None;
     Customer.metadata := None;
     Customer.tags := None;
     Customer.created_at := t1;
     Customer.updated_at := t1;
     Customer.created_by := None |}.

Definition s2 : Pg.Db :=
  (ConversationOperations.findOrCreate (Pg.bound (ctx gnymble)) customer_id
     "+15551234567" "+15557654321" None t2 t2 s1).2.

(** The conversation's id, as the store chose it. *)
Definition conversation_id : Uuid := "0".

Definition hi : CreateMessage.t :=
  CreateMessage.mk conversation_id MessageDirection.outbound "hi"
    None None None.

Definition s3 : Pg.Db :=
  (ConversationOperations.addMessage (Pg.bound (ctx gnymble)) hi t3 s2).2.

(** The conversation as stored after the message. *)
Definition conversation : Conversation.t :=
  {| Conversation.id := conversation_id;
     Conversation.brand_id := gnymble;
     Conversation.customer_id := customer_id;
     Conversation.customer_phone := "+15551234567";
     Conversation.brand_phone := "+15557654321";
     Conversation.status := ConversationStatus.active;
     Conversation.campaign_id := None;
     Conversation.campaign_name := None;
     Conversation.message_count := 0;
     Conversation.last_message_at := Some t3;
     Conversation.last_inbound_at := None;
     Conversation.last_outbound_at := Some t3;
     Conversation.opted_out_at := None;
     Conversation.opt_out_reason := None;
     Conversation.metadata := None;
     Conversation.tags := None;
     Conversation.created_at := t2;
     Conversation.updated_at := t0 |}.

(** The message as stored. *)
Definition stored_hi : Message.t :=
  {| Message.id := "0";
     Message.conversation_id := conversation_id;
     Message.direction := MessageDirection.outbound;
     Message.content := "hi";
     Message.media_urls := None;
     Message.status := None;
     Message.external_id := None;
     Message.metadata := None;
     Message.sent_at := t3;
     Message.delivered_at := None;
     Message.created_at := t3 |}.

(** A reply a handle bound to another brand tries to append. *)
Definition reply : CreateMessage.t :=
  CreateMessage.mk conversation_id MessageDirection.inbound "reply"
    None None None.

(** The store after the conversation has been paused. *)
Definition paused : Pg.Db :=
  (ConversationOperations.updateStatus (Pg.bound (ctx gnymble))
     conversation_id ConversationStatus.paused t4 s3).2.

(** Another store: one [gnymble] customer created with the tag [vip]. *)
Definition vip : Pg.Db :=
  (CustomerOperations.create (Pg.bound (ctx gnymble))
     (CreateCustomer.mk "v@b.com" None None None None None None
        (Some ["vip"]))
     t1 t1 s0).2.

Definition vip_customer : Customer.t :=
  {| Customer.id := "0";
     Customer.brand_id := gnymble;
     Customer.email := "v@b.com";
     Customer.phone := None;
     Customer.first_name := None;
     Customer.last_name := None;
     Customer.stage := CustomerStage.lead;
     Customer.source := CustomerSource.website;
     Customer.is_active := true;
     Customer.marketing_qualified_at := None;
     Customer.trial_started_at := None;
     Customer.subscribed_at := None;
     Customer.churned_at := None;
     Customer.metadata := None;
     Customer.tags := Some ["vip"];
     Customer.created_at := t1;
     Customer.updated_at := t1;
     Customer.created_by := None |}.

End Scenario.

(** ** Helpers of [types/brand.ts], [types/conversation.ts] and
       [types/customer.ts] *)

(** The string each member of the [BrandId] enum is. *)
Definition BrandId_name (b : BrandId) : string :=
  match b with
  | gnymble => "gnymble"
  | percymd => "percymd"
  | percytext => "percytext"
  end.

(** [validateBrandId]: [BrandId.safeParse(input)] succeeds on the three
    enum strings and on nothing else. *)
Definition validateBrandId (input : string) : option BrandId :=
  if String.eqb input "gnymble" then Some gnymble
  else if String.eqb input "percymd" then Some percymd
  else if String.eqb input "percytext" then Some percytext
  else None.

Definition isOptedOut (conversation : Conversation.t) : bool :=
  truthy (Conversation.opted_out_at conversation).

Definition canSendMessage (conversation : Conversation.t) : bool :=
  bool_decide (Conversation.status conversation = ConversationStatus.active)
  && negb (isOptedOut conversation).


(** [getLastMessageDirection]; [later a b] stands for
    [new Date(a) > new Date(b)]. *)
Definition getLastMessageDirection (later : Timestamp → Timestamp → bool)
    (conversation : Conversation.t) : option MessageDirection.t :=
  if negb (truthy (Conversation.last_inbound_at conversation))
     && negb (truthy (Conversation.last_outbound_at conversation))
  then None
  else if negb (truthy (Conversation.last_inbound_at conversation))
  then Some MessageDirection.outbound
  else if negb (truthy (Conversation.last_outbound_at conversation))
  then Some MessageDirection.inbound
  else
    if later (default "" (Conversation.last_inbound_at conversation))
         (default "" (Conversation.last_outbound_at conversation))
    then Some MessageDirection.inbound
    else Some MessageDirection.outbound.


Definition isTrialCustomer (customer : Customer.t) : bool :=
  bool_decide (Customer.stage customer = CustomerStage.trial)
  && truthy (Customer.trial_started_at customer).

Definition isPaidCustomer (customer : Customer.t) : bool :=
  bool_decide (Customer.stage customer = CustomerStage.active)
  && truthy (Customer.subscribed_at customer).

(** ** Sequences of calls

    The write methods a caller reaches through the handle of
    [createDatabaseClient], each with its clock readings, and the store
    they leave when issued one after another by handles of any brands. *)

Inductive Call :=
| customers_create (data : CreateCustomer.t) (now1 now2 : Timestamp)
| customers_update (id : Uuid) (data : UpdateCustomer.t) (now : Timestamp)
| customers_progressStage (id : Uuid) (newStage : CustomerStage.t)
    (now now_update : Timestamp)
| customers_findOrCreate (email : string)
    (data : option PartialCreateCustomer.t) (now1 now2 : Timestamp)
| customers_addTags (id : Uuid) (tags : list string) (now : Timestamp)
| customers_removeTags (id : Uuid) (tags : list string) (now : Timestamp)
| conversations_create (data : CreateConversation.t) (now1 now2 : Timestamp)
| conversations_findOrCreate (customerId : Uuid)
    (customerPhone brandPhone : string)
    (campaignData : option CampaignData.t) (now1 now2 : Timestamp)
| conversations_addMessage (data : CreateMessage.t) (now : Timestamp)
| conversations_updateStatus (id : Uuid) (status : ConversationStatus.t)
    (now : Timestamp)
| conversations_optOut (id : Uuid) (reason : option string)
    (now : Timestamp).

(** The store after one call through the handle bound to [ctx]. *)
Definition perform (ctx : BrandContext.t) (call : Call) (db : Pg.Db)
  : Pg.Db :=
  let h := Pg.bound ctx in
  match call with
  | customers_create data now1 now2 =>
      (CustomerOperations.create h data now1 now2 db).2
  | customers_update id data now =>
      (CustomerOperations.update h id data now db).2
  | customers_progressStage id newStage now now_update =>
      (CustomerOperations.progressStage h id newStage now now_update db).2
  | customers_findOrCreate email data now1 now2 =>
      (CustomerOperations.findOrCreate h email data now1 now2 db).2
  | customers_addTags id tags now =>
      (CustomerOperations.addTags h id tags now db).2
  | customers_removeTags id tags now =>
      (CustomerOperations.removeTags h id tags now db).2
  | conversations_create data now1 now2 =>
      (ConversationOperations.create h data now1 now2 db).2
  | conversations_findOrCreate customerId customerPhone brandPhone
      campaignData now1 now2 =>
      (ConversationOperations.findOrCreate h customerId customerPhone
         brandPhone campaignData now1 now2 db).2
  | conversations_addMessage data now =>
      (ConversationOperations.addMessage h data now db).2
  | conversations_updateStatus id status now =>
      (ConversationOperations.updateStatus h id status now db).2
  | conversations_optOut id reason now =>
      (ConversationOperations.optOut h id reason now db).2
  end.

(** The server's clock moving on. *)
Definition tick (t : Timestamp) (db : Pg.Db) : Pg.Db :=
  Pg.mkDb (Pg.customers db) (Pg.conversations db) (Pg.messages db) t.

(** One step of the outside world: a call by some brand's handle at some
    server time. *)
Definition step (db : Pg.Db) (e : Timestamp * BrandContext.t * Call)
  : Pg.Db :=
  perform e.1.2 e.2 (tick e.1.1 db).

(** The store after a sequence of calls. *)
Definition perform_all (calls : list (Timestamp * BrandContext.t * Call))
    (db : Pg.Db) : Pg.Db :=
  fold_left step calls db.

(** ** What calls leave in place

    How a stored row may differ after calls made through handles of the
    brands in [touched], and how the store may. *)

Definition customer_kept (touched : BrandId → Prop) (x y : Customer.t)
  : Prop :=
  Customer.id y = Customer.id x
  ∧ Customer.brand_id y = Customer.brand_id x
  ∧ Customer.source y = Customer.source x
  ∧ Customer.created_at y = Customer.created_at x
  ∧ Customer.created_by y = Customer.created_by x
  ∧ (¬ touched (Customer.brand_id x) → y = x).

Definition conversation_kept (touched : BrandId → Prop)
    (x y : Conversation.t) : Prop :=
  Conversation.id y = Conversation.id x
  ∧ Conversation.brand_id y = Conversation.brand_id x
  ∧ Conversation.customer_id y = Conversation.customer_id x
  ∧ Conversation.customer_phone y = Conversation.customer_phone x
  ∧ Conversation.brand_phone y = Conversation.brand_phone x
  ∧ Conversation.campaign_id y = Conversation.campaign_id x
  ∧ Conversation.campaign_name y = Conversation.campaign_name x
  ∧ Conversation.message_count y = Conversation.message_count x
  ∧ Conversation.created_at y = Conversation.created_at x
  ∧ (is_Some (Conversation.opted_out_at x)
     → is_Some (Conversation.opted_out_at y))
  ∧ (¬ touched (Conversation.brand_id x) → y = x).

(** The stored rows stay in place, each kept as above; rows are only added
    at the end, customers and conversations under a brand of [touched],
    conversations with a count of 0; messages are added and never
    changed. *)
Record evolves (touched : BrandId → Prop) (db db' : Pg.Db) : Prop := {
  evolves_customers :
    ∃ old new,
      Pg.customers db' = old ++ new
      ∧ Forall2 (customer_kept touched) (Pg.customers db) old
      ∧ Forall (λ c, touched (Customer.brand_id c)) new;
  evolves_conversations :
    ∃ old new,
      Pg.conversations db' = old ++ new
      ∧ Forall2 (conversation_kept touched) (Pg.conversations db) old
      ∧ Forall (λ c, touched (Conversation.brand_id c)
                     ∧ Conversation.message_count c = 0%Z) new;
  evolves_messages : Pg.messages db `prefix_of` Pg.messages db';
}.

(** The brands whose handles issue the calls. *)
Definition callers (calls : list (Timestamp * BrandContext.t * Call))
  : list BrandId :=
  (λ e, BrandContext.brand_id e.1.2) <$> calls.

(** * Properties *)

(** ** Lists *)

Ltac here := apply elem_of_cons; left; done.
Ltac further := apply elem_of_cons; right; done.

(** Case analysis on the first [bool_decide] of the goal. *)
Ltac decide_goal H :=
  match goal with
  | |- context [bool_decide ?P] =>
      destruct (decide P) as [H|H];
      [rewrite (bool_decide_eq_true_2 P H)
      |rewrite (bool_decide_eq_false_2 P H)]
  end.

Section ListFacts.
Context {A : Type}.
Implicit Types (f : A → bool) (l : list A) (x : A).

Lemma elem_of_bfilter f l x : x ∈ List.filter f l ↔ x ∈ l ∧ f x = true.
Proof. rewrite !list_elem_of_In. apply filter_In. Qed.

Lemma bfilter_nil f l : (∀ x, x ∈ l → f x = false) → List.filter f l = [].
Proof.
  induction l as [|y l IH]; intros Hall; [done|].
  simpl. rewrite (Hall y) by here.
  apply IH. intros x Hx. apply Hall. further.
Qed.

Lemma bfilter_nil_inv f l x : List.filter f l = [] → x ∈ l → f x = false.
Proof.
  intros Hnil Hx. destruct (f x) eqn:Hf; [|done].
  assert (x ∈ List.filter f l) as Hin by (by apply elem_of_bfilter).
  rewrite Hnil in Hin. by apply not_elem_of_nil in Hin.
Qed.

(** A predicate that pins a unique key selects exactly the row holding
    it. *)
Lemma bfilter_unique {B : Type} (key : A → B) f l x :
  NoDup (key <$> l) → x ∈ l → f x = true →
  (∀ y, y ∈ l → f y = true → key y = key x) →
  List.filter f l = [x].
Proof.
  induction l as [|z l IH]; intros Hnd Hx Hfx Hkey.
  { by apply not_elem_of_nil in Hx. }
  rewrite fmap_cons in Hnd. apply NoDup_cons in Hnd as [Hz Hnd].
  apply elem_of_cons in Hx as [->|Hx]; simpl.
  - rewrite Hfx. f_equal. apply bfilter_nil. intros y Hy.
    destruct (f y) eqn:Hfy; [|done]. exfalso. apply Hz.
    rewrite <- (Hkey y) by (done || further). by apply list_elem_of_fmap_2.
  - destruct (f z) eqn:Hfz.
    + exfalso. apply Hz. rewrite (Hkey z) by (done || here).
      by apply list_elem_of_fmap_2.
    + apply IH; [done..|]. intros y Hy. apply Hkey. further.
Qed.

(** With a unique key pinned, at most one row is selected. *)
Lemma bfilter_at_most_one {B : Type} (key : A → B) (k : B) f l :
  NoDup (key <$> l) → (∀ y, y ∈ l → f y = true → key y = k) →
  List.filter f l = [] ∨ ∃ x, List.filter f l = [x].
Proof.
  intros Hnd Hkey. destruct (List.filter f l) as [|x rest] eqn:Hf.
  { by left. }
  right. exists x.
  assert (x ∈ l ∧ f x = true) as [Hx Hfx].
  { apply elem_of_bfilter. rewrite Hf. here. }
  rewrite <- Hf. apply (bfilter_unique key); [done..|].
  intros y Hy Hfy. rewrite (Hkey y), (Hkey x); done.
Qed.

Lemma forallb_Forall f l : forallb f l = true ↔ Forall (λ x, f x = true) l.
Proof.
  induction l as [|y l IH]; simpl.
  - split; [constructor|done].
  - rewrite andb_true_iff, Forall_cons, IH. done.
Qed.

End ListFacts.

(** ** [[...new Set(l)]] *)

Lemma elem_of_set_spread_from seen l x :
  x ∈ set_spread_from seen l ↔ x ∈ l ∧ x ∉ seen.
Proof.
  revert seen. induction l as [|y l IH]; intros seen; simpl.
  { rewrite elem_of_nil. tauto. }
  case_bool_decide as Hy.
  - rewrite IH, elem_of_cons. split; [tauto|].
    intros [[->|Hx] Hn]; [done|tauto].
  - rewrite elem_of_cons, IH, !elem_of_cons.
    destruct (decide (x = y)) as [->|Hne]; [tauto|]. tauto.
Qed.

Lemma NoDup_set_spread_from seen l : NoDup (set_spread_from seen l).
Proof.
  revert seen. induction l as [|y l IH]; intros seen; simpl.
  { constructor. }
  case_bool_decide as Hy; [apply IH|].
  apply NoDup_cons. split; [|apply IH].
  rewrite elem_of_set_spread_from, elem_of_cons. tauto.
Qed.

Lemma elem_of_set_spread l x : x ∈ set_spread l ↔ x ∈ l.
Proof.
  unfold set_spread. rewrite elem_of_set_spread_from, elem_of_nil. tauto.
Qed.

Lemma NoDup_set_spread l : NoDup (set_spread l).
Proof. apply NoDup_set_spread_from. Qed.

(** ** Counter tables *)

Section Counters.
Context {K : Type} `{EqDecision K}.
Implicit Types (k : K) (m : list (K * nat)).

Lemma count_of_bump_eq k m : count_of k (bump k m) = S (count_of k m).
Proof.
  induction m as [|[k' n] m IH]; simpl.
  - by rewrite decide_True.
  - destruct (decide (k = k')) as [->|Hne]; simpl.
    + rewrite decide_True by done. lia.
    + by rewrite decide_False.
Qed.

Lemma count_of_bump_ne k k' m : k ≠ k' → count_of k (bump k' m) = count_of k m.
Proof.
  intros Hne. induction m as [|[k'' n] m IH]; simpl.
  - by rewrite decide_False.
  - destruct (decide (k' = k'')) as [->|Hne']; simpl.
    + by rewrite !decide_False.
    + destruct (decide (k = k'')); done.
Qed.

(** Tallying rows by a column counts, for each value, the rows that hold
    it. *)
Lemma count_of_tally {A : Type} (col : A → K) (rows : list A) k m :
  count_of k (fold_left (λ acc row, bump (col row) acc) rows m)
  = count_of k m
    + length (List.filter (λ row, bool_decide (col row = k)) rows).
Proof.
  revert m. induction rows as [|row rows IH]; intros m; simpl; [lia|].
  rewrite IH. case_bool_decide as Hc; simpl.
  - rewrite <- Hc, count_of_bump_eq. lia.
  - by rewrite count_of_bump_ne.
Qed.

End Counters.

(** ** The store: selection *)

Section Selection.
Context {F O A : Type}.
Variable matches : F → A → bool.
Variable key : O → A → option Timestamp.

Lemma insert_desc_perm (k : A → option Timestamp) x l :
  Pg.insert_desc k x l ≡ₚ x :: l.
Proof.
  induction l as [|y l IH]; simpl; [done|].
  destruct (Pg.before_desc (k y) (k x)); [|done].
  rewrite IH. apply Permutation_swap.
Qed.

Lemma sort_desc_perm (k : A → option Timestamp) l : Pg.sort_desc k l ≡ₚ l.
Proof.
  induction l as [|x l IH]; simpl; [done|].
  rewrite insert_desc_perm. by f_equiv.
Qed.

(** Whatever the modifiers, a [select] returns stored rows that satisfy
    all of its predicates. *)
Lemma elem_of_run (q : Query F O) rows x :
  x ∈ Pg.run matches key q rows →
  x ∈ rows ∧ Pg.satisfies matches (filters q) x = true.
Proof.
  unfold Pg.run. intros Hx. apply elem_of_bfilter.
  assert (x ∈ match order q with
              | Some o =>
                  Pg.sort_desc (key o)
                    (List.filter (Pg.satisfies matches (filters q)) rows)
              | None => List.filter (Pg.satisfies matches (filters q)) rows
              end) as Hs.
  { destruct (limit q); [|done]. by eapply subseteq_take. }
  destruct (order q); [|done].
  by rewrite sort_desc_perm in Hs.
Qed.

(** Without modifiers a [select] is the filter itself. *)
Lemma run_plain (fs : list F) rows :
  Pg.run matches key (mkQuery fs None None) rows
  = List.filter (Pg.satisfies matches fs) rows.
Proof. done. Qed.

Lemma satisfies_app fs1 fs2 x :
  Pg.satisfies matches (fs1 ++ fs2) x
  = Pg.satisfies matches fs1 x && Pg.satisfies matches fs2 x.
Proof. unfold Pg.satisfies. apply forallb_app. Qed.

Lemma single_Data (rows : list A) x : Pg.single rows = Data x ↔ rows = [x].
Proof.
  destruct rows as [|y [|z rows]]; simpl; split; intros H;
    by simplify_eq.
Qed.

Lemma single_Failure (rows : list A) e :
  Pg.single rows = Failure e →
  e = Pg.no_single_row ∧ ∀ x, rows ≠ [x].
Proof.
  destruct rows as [|y [|z rows]]; simpl; intros H; simplify_eq;
    split; done.
Qed.

End Selection.

(** ** The store: constraints *)

Lemma customers_ok_None rows :
  Pg.customers_ok rows = None ↔
  NoDup (Pg.cust_email_key <$> rows) ∧ NoDup (omap Pg.cust_phone_key rows).
Proof.
  unfold Pg.customers_ok.
  decide_goal He; simpl; [|split; [done|tauto]].
  decide_goal Hp; simpl; split; (done || tauto).
Qed.

Lemma conversations_ok_None db rows :
  Pg.conversations_ok db rows = None ↔
  NoDup (Pg.conv_phones_key <$> rows)
  ∧ Forall (λ c, Conversation.customer_id c ∈ Customer.id <$> Pg.customers db)
      rows.
Proof.
  unfold Pg.conversations_ok.
  decide_goal Hu; simpl; [|split; [done|tauto]].
  destruct (forallb _ rows) eqn:Hfk; simpl.
  - apply forallb_Forall in Hfk. split; [|done]. intros _. split; [done|].
    eapply Forall_impl; [exact Hfk|]. intros c Hc. simpl in Hc.
    by apply bool_decide_eq_true in Hc.
  - split; [done|]. intros [_ Hall]. exfalso.
    assert (forallb
              (λ c, bool_decide (Conversation.customer_id c
                                 ∈ Customer.id <$> Pg.customers db))
              rows = true) as Ht; [|congruence].
    apply forallb_Forall. eapply Forall_impl; [exact Hall|].
    intros c Hc. by apply bool_decide_eq_true.
Qed.

Lemma consistentb_spec db : Pg.consistentb db = true ↔ Pg.consistent db.
Proof.
  unfold Pg.consistentb. rewrite !andb_true_iff, !bool_decide_eq_true.
  split.
  - intros [[[[[[[? ?] ?] ?] ?] ?] ?] ?]. by constructor.
  - intros []. done.
Qed.

(** An update that leaves a column alone leaves every value of it alone. *)
Lemma patched_column {A B : Type} (col : A → B) (hit : A → bool)
    (patch : A → A) (rows : list A) :
  (∀ x, col (patch x) = col x) →
  col <$> ((λ x, if hit x then patch x else x) <$> rows) = col <$> rows.
Proof.
  intros Hcol. rewrite <- list_fmap_compose. apply list_fmap_ext.
  intros i x _. simpl. destruct (hit x); [apply Hcol|done].
Qed.

Lemma patched_omap {A B : Type} (col : A → option B) (hit : A → bool)
    (patch : A → A) (rows : list A) :
  (∀ x, col (patch x) = col x) →
  omap col ((λ x, if hit x then patch x else x) <$> rows) = omap col rows.
Proof.
  intros Hcol. induction rows as [|x rows IH]; [done|].
  rewrite fmap_cons. simpl. unfold omap in IH. rewrite IH.
  destruct (hit x); [by rewrite Hcol|done].
Qed.

Lemma elem_of_patched {A : Type} (hit : A → bool) (patch : A → A)
    (rows : list A) y :
  y ∈ (λ x, if hit x then patch x else x) <$> rows ↔
  ∃ x, x ∈ rows ∧ y = (if hit x then patch x else x).
Proof.
  rewrite list_elem_of_fmap.
  split; intros (x & H1 & H2); exists x; done.
Qed.

(** ** Client construction *)

Section ClientFacts.
Context {S : Type}.
Variable createClient : string → string → ClientOptions → SupabaseClient.t S.

Lemma truthy_Some (v : option string) :
  truthy v = true → ∃ s, v = Some s ∧ s ≠ "".
Proof.
  destruct v as [s|]; simpl; [|done]. intros H. exists s. split; [done|].
  intros ->. done.
Qed.

(** [a || b] is falsy exactly when both operands are. *)
Lemma truthy_or (a b : option string) :
  truthy (Js.or a b) = false ↔ truthy a = false ∧ truthy b = false.
Proof.
  unfold Js.or. destruct (truthy a) eqn:Ha; rewrite ?Ha;
    intuition congruence.
Qed.

Lemma createSupabaseClient_reuse url anonKey (p : Process S) c :
  supabaseClient p = Some c →
  createSupabaseClient createClient url anonKey p = (Ok c, p).
Proof. unfold createSupabaseClient. by intros ->. Qed.

Lemma createSupabaseClient_missing url anonKey (p : Process S) :
  supabaseClient p = None →
  truthy (Js.or url (NEXT_PUBLIC_SUPABASE_URL (env p))) = false
  ∨ truthy (Js.or anonKey (NEXT_PUBLIC_SUPABASE_ANON_KEY (env p))) = false →
  createSupabaseClient createClient url anonKey p
  = (Throw "Missing Supabase configuration", p).
Proof.
  unfold createSupabaseClient. intros -> [->| ->]; simpl; [done|].
  by rewrite orb_true_r.
Qed.

Lemma createSupabaseClient_create url anonKey (p : Process S) :
  supabaseClient p = None →
  truthy (Js.or url (NEXT_PUBLIC_SUPABASE_URL (env p))) = true →
  truthy (Js.or anonKey (NEXT_PUBLIC_SUPABASE_ANON_KEY (env p))) = true →
  ∃ u k,
    Js.or url (NEXT_PUBLIC_SUPABASE_URL (env p)) = Some u
    ∧ Js.or anonKey (NEXT_PUBLIC_SUPABASE_ANON_KEY (env p)) = Some k
    ∧ createSupabaseClient createClient url anonKey p
      = (Ok (createClient u k {| persistSession := false |}),
         {| env := env p;
            supabaseClient :=
              Some (createClient u k {| persistSession := false |}) |}).
Proof.
  unfold createSupabaseClient. intros -> Hu Hk. rewrite Hu, Hk. simpl.
  apply truthy_Some in Hu as (u & -> & _).
  apply truthy_Some in Hk as (k & -> & _).
  by exists u, k.
Qed.

(** Without overrides only the environment counts. *)
Lemma new_throws_iff (ctx : BrandContext.t) (p : Process S) :
  supabaseClient p = None →
  (∃ msg,
     (match createSupabaseClient createClient None None p with
      | (Ok c, p') => (Ok (BrandAwareSupabase.mk c ctx), p')
      | (Throw e, p') => (Throw e, p')
      end).1 = Throw msg)
  ↔ None = None (A := SupabaseClient.t S)
    ∧ (truthy (NEXT_PUBLIC_SUPABASE_URL (env p)) = false
       ∨ truthy (NEXT_PUBLIC_SUPABASE_ANON_KEY (env p)) = false).
Proof.
  intros Hc.
  destruct (truthy (NEXT_PUBLIC_SUPABASE_URL (env p))) eqn:Hu;
    destruct (truthy (NEXT_PUBLIC_SUPABASE_ANON_KEY (env p))) eqn:Hk.
  - destruct (createSupabaseClient_create None None p Hc)
      as (u & k & _ & _ & ->); [done..|].
    simpl. split; [by intros [? ?]|]. intros [_ [?|?]]; done.
  - rewrite createSupabaseClient_missing by (done || by right).
    simpl. split; [by auto|by eauto].
  - rewrite createSupabaseClient_missing by (done || by left).
    simpl. split; [by auto|by eauto].
  - rewrite createSupabaseClient_missing by (done || by left).
    simpl. split; [by auto|by eauto].
Qed.

(** C7. Client construction hands back the process-wide connection when
    there is one.  When there is none it throws the configuration error
    exactly when the endpoint URL or the API key is missing from both the
    explicit override and the environment (undefined or empty), and
    otherwise creates the connection from the two values and keeps it as
    the singleton.  A [BrandAwareSupabase] built without an explicit
    connection goes through the same path with no overrides. *)
Theorem createSupabaseClient_singleton_or_configuration
    (url anonKey : option string) (ctx : BrandContext.t) (p : Process S) :
  let r := createSupabaseClient createClient url anonKey p in
  let missing :=
    (truthy url = false
     ∧ truthy (NEXT_PUBLIC_SUPABASE_URL (env p)) = false)
    ∨ (truthy anonKey = false
       ∧ truthy (NEXT_PUBLIC_SUPABASE_ANON_KEY (env p)) = false) in
  (∀ c, supabaseClient p = Some c → r = (Ok c, p))
  ∧ ((∃ msg, r.1 = Throw msg) ↔ supabaseClient p = None ∧ missing)
  ∧ (∀ msg, r.1 = Throw msg →
       msg = "Missing Supabase configuration" ∧ r.2 = p)
  ∧ (supabaseClient p = None → ¬ missing →
     ∃ u k,
       Js.or url (NEXT_PUBLIC_SUPABASE_URL (env p)) = Some u
       ∧ Js.or anonKey (NEXT_PUBLIC_SUPABASE_ANON_KEY (env p)) = Some k
       ∧ r = (Ok (createClient u k {| persistSession := false |}),
              {| env := env p;
                 supabaseClient :=
                   Some (createClient u k
                           {| persistSession := false |}) |}))
  ∧ ((∃ msg,
        (BrandAwareSupabase.new createClient ctx None p).1 = Throw msg)
     ↔ supabaseClient p = None
       ∧ (truthy (NEXT_PUBLIC_SUPABASE_URL (env p)) = false
          ∨ truthy (NEXT_PUBLIC_SUPABASE_ANON_KEY (env p)) = false)).
Proof.
  intros r missing.
  destruct (supabaseClient p) as [c|] eqn:Hc.
  { assert (r = (Ok c, p)) as Hr
      by (subst r; by apply createSupabaseClient_reuse).
    assert (BrandAwareSupabase.new createClient ctx None p
            = (Ok (BrandAwareSupabase.mk c ctx), p)) as Hn.
    { unfold BrandAwareSupabase.new, getSupabaseClient. by rewrite Hc. }
    rewrite Hr, Hn. simpl.
    split; [intros c' ?; by simplify_eq|].
    split; [split; [by intros [msg ?]|by intros [? _]]|].
    split; [done|]. split; [done|].
    split; [by intros [msg ?]|by intros [? _]]. }
  assert (BrandAwareSupabase.new createClient ctx None p
          = match createSupabaseClient createClient None None p with
            | (Ok c, p') => (Ok (BrandAwareSupabase.mk c ctx), p')
            | (Throw e, p') => (Throw e, p')
            end) as Hn.
  { unfold BrandAwareSupabase.new, getSupabaseClient. by rewrite Hc. }
  destruct (decide missing) as [Hm|Hm].
  - assert (r = (Throw "Missing Supabase configuration", p)) as Hr.
    { subst r. apply createSupabaseClient_missing; [done|].
      rewrite !truthy_or. exact Hm. }
    rewrite Hr, Hn. cbn [fst snd]. split; [done|].
    split; [split; [by intros _|intros _; by eexists]|].
    split; [by intros; simplify_eq|]. split; [done|].
    by apply new_throws_iff.
  - assert (truthy (Js.or url (NEXT_PUBLIC_SUPABASE_URL (env p))) = true)
      as Hu.
    { apply not_false_iff_true. rewrite truthy_or. subst missing. tauto. }
    assert (truthy
              (Js.or anonKey (NEXT_PUBLIC_SUPABASE_ANON_KEY (env p)))
            = true) as Hk.
    { apply not_false_iff_true. rewrite truthy_or. subst missing. tauto. }
    destruct (createSupabaseClient_create url anonKey p Hc Hu Hk)
      as (u & k & Hue & Hke & Hr).
    fold r in Hr. rewrite Hr, Hn. cbn [fst snd]. split; [done|].
    split; [split; [by intros [? ?]|by intros [_ ?]]|].
    split; [done|]. split; [intros _ _; by exists u, k|].
    by apply new_throws_iff.
Qed.

End ClientFacts.

(** ** The store: writes keep the schema *)

Lemma fresh_id_NoDup {A : Type} (id : A → Uuid) (rows : list A) (row : A) :
  NoDup (id <$> rows) → id row = fresh (id <$> rows) →
  NoDup (id <$> (rows ++ [row])).
Proof.
  intros Hnd Hid. rewrite fmap_app. apply NoDup_app. split; [done|].
  split; [|apply NoDup_singleton].
  intros x Hx Hin. apply list_elem_of_singleton in Hin. subst x.
  rewrite Hid in Hx. by apply infinite_is_fresh in Hx.
Qed.

Lemma customers_insert_single_consistent p db r db' :
  Pg.consistent db → Pg.customers_insert_single p db = (r, db') →
  Pg.consistent db'.
Proof.
  intros Hc. unfold Pg.customers_insert_single.
  destruct (Pg.customers_ok _) as [e|] eqn:Hok; intros ?; simplify_eq; [done|].
  apply customers_ok_None in Hok as [He Hp]. destruct Hc.
  constructor; simpl; try done.
  - by apply fresh_id_NoDup.
  - eapply Forall_impl; [done|]. intros c Hin. simpl in *.
    rewrite fmap_app. apply elem_of_app. by left.
Qed.

Lemma customers_update_single_consistent p fs db r db' :
  Pg.consistent db → Pg.customers_update_single p fs db = (r, db') →
  Pg.consistent db'.
Proof.
  intros Hc. unfold Pg.customers_update_single.
  destruct (Pg.customers_ok _) as [e|] eqn:Hok; [by intros ?; simplify_eq|].
  destruct (List.filter _ _) as [|c [|c2 rest]];
    intros ?; simplify_eq; try done.
  apply customers_ok_None in Hok as [He Hp]. destruct Hc.
  constructor; simpl; try done.
  - by rewrite patched_column.
  - by rewrite patched_column.
Qed.

Lemma conversations_insert_single_consistent p db r db' :
  Pg.consistent db → Pg.conversations_insert_single p db = (r, db') →
  Pg.consistent db'.
Proof.
  intros Hc. unfold Pg.conversations_insert_single.
  destruct (Pg.conversations_ok _ _) as [e|] eqn:Hok;
    intros ?; simplify_eq; [done|].
  apply conversations_ok_None in Hok as [Hu Hfk]. destruct Hc.
  constructor; simpl; try done.
  - by apply fresh_id_NoDup.
  - eapply Forall_impl; [done|]. intros m Hin. simpl in *.
    rewrite fmap_app. apply elem_of_app. by left.
Qed.

Lemma conversations_update_consistent p fs db r db' :
  Pg.consistent db → Pg.conversations_update p fs db = (r, db') →
  Pg.consistent db'.
Proof.
  intros Hc. unfold Pg.conversations_update.
  destruct (Pg.conversations_ok _ _) as [e|] eqn:Hok;
    intros ?; simplify_eq; [done|].
  apply conversations_ok_None in Hok as [Hu Hfk]. destruct Hc.
  constructor; simpl; try done.
  - unfold Pg.patched_conversations. by rewrite patched_column.
  - unfold Pg.patched_conversations. by rewrite patched_column.
Qed.

Lemma conversations_update_single_consistent p fs db r db' :
  Pg.consistent db → Pg.conversations_update_single p fs db = (r, db') →
  Pg.consistent db'.
Proof.
  intros Hc. unfold Pg.conversations_update_single.
  destruct (Pg.conversations_ok _ _) as [e|] eqn:Hok;
    [by intros ?; simplify_eq|].
  destruct (List.filter _ _) as [|c [|c2 rest]];
    intros ?; simplify_eq; try done.
  apply conversations_ok_None in Hok as [Hu Hfk]. destruct Hc.
  constructor; simpl; try done.
  - unfold Pg.patched_conversations. by rewrite patched_column.
  - unfold Pg.patched_conversations. by rewrite patched_column.
Qed.

Lemma messages_insert_single_consistent p db r db' :
  Pg.consistent db → Pg.messages_insert_single p db = (r, db') →
  Pg.consistent db'.
Proof.
  intros Hc. unfold Pg.messages_insert_single.
  case_bool_decide as Hfk; intros ?; simplify_eq; [|done].
  destruct Hc. constructor; simpl; try done.
  - by apply fresh_id_NoDup.
  - apply Forall_app. split; [done|]. by apply Forall_singleton.
Qed.

(** ** The store: conversation updates *)

(** A payload without the key columns cannot break a constraint. *)
Lemma conversations_ok_patched p fs db :
  Pg.consistent db →
  ConversationUpdate.brand_id p = None →
  ConversationUpdate.customer_id p = None →
  ConversationUpdate.customer_phone p = None →
  ConversationUpdate.brand_phone p = None →
  Pg.conversations_ok db (Pg.patched_conversations p fs db) = None.
Proof.
  intros [] Hb Hc Hcp Hbp. apply conversations_ok_None.
  unfold Pg.patched_conversations. split.
  - rewrite patched_column; [done|]. intros x.
    unfold Pg.conv_phones_key. simpl. by rewrite Hb, Hcp, Hbp.
  - apply Forall_forall. intros y Hy.
    apply elem_of_patched in Hy as (x & Hx & ->).
    rewrite Forall_forall in conversations_customer_id_fkey.
    specialize (conversations_customer_id_fkey x Hx).
    destruct (Pg.satisfies _ _ x); [|done]. simpl. by rewrite Hc.
Qed.

Lemma patched_conversations_miss p fs db :
  (∀ c, c ∈ Pg.conversations db → Pg.satisfies Pg.conv_matches fs c = false) →
  Pg.patched_conversations p fs db = Pg.conversations db.
Proof.
  intros Hmiss. unfold Pg.patched_conversations.
  rewrite <- (list_fmap_id (Pg.conversations db)) at 2.
  apply list_fmap_ext. intros i c Hc. simpl.
  rewrite Hmiss; [done|]. by eapply list_elem_of_lookup_2.
Qed.

(** The [id] and [brand_id] predicates together select the row with that
    id when its brand is the given one, and nothing otherwise. *)
Lemma conv_satisfies_id_brand id b c :
  Pg.satisfies Pg.conv_matches [conv_eq_id id; conv_eq_brand_id b] c = true
  ↔ Conversation.id c = id ∧ Conversation.brand_id c = b.
Proof.
  unfold Pg.satisfies. simpl.
  rewrite andb_true_r, andb_true_iff, !bool_decide_eq_true. done.
Qed.

Lemma cust_satisfies_id_brand id b c :
  Pg.satisfies Pg.cust_matches [cust_eq_id id; cust_eq_brand_id b] c = true
  ↔ Customer.id c = id ∧ Customer.brand_id c = b.
Proof.
  unfold Pg.satisfies. simpl.
  rewrite andb_true_r, andb_true_iff, !bool_decide_eq_true. done.
Qed.

(** Rows are told apart by a unique key. *)
Lemma same_id_same_row {A B : Type} (id : A → B) (rows : list A) x y :
  NoDup (id <$> rows) → x ∈ rows → y ∈ rows → id x = id y → x = y.
Proof.
  induction rows as [|z rows IH]; intros Hnd Hx Hy Hid.
  { by apply not_elem_of_nil in Hx. }
  rewrite fmap_cons in Hnd. apply NoDup_cons in Hnd as [Hz Hnd].
  apply elem_of_cons in Hx as [->|Hx]; apply elem_of_cons in Hy as [->|Hy].
  - done.
  - exfalso. apply Hz. rewrite Hid. by apply list_elem_of_fmap_2.
  - exfalso. apply Hz. rewrite <- Hid. by apply list_elem_of_fmap_2.
  - by apply IH.
Qed.

(** ** [addMessage] on the store *)

Section AddMessage.
Variable ctx : BrandContext.t.
Variable data : CreateMessage.t.
Variable now : Timestamp.
Variable db : Pg.Db.

Let result := ConversationOperations.addMessage (Pg.bound ctx) data now db.


(** With its conversation stored, under whatever brand, the message is
    inserted and returned, and the stamps go to the rows that carry both
    the id and the bound brand. *)
Lemma addMessage_stored :
  Pg.consistent db →
  CreateMessage.conversation_id data ∈ Conversation.id <$> Pg.conversations db →
  ∃ m p,
    result
    = (Ok m,
       Pg.mkDb (Pg.customers db)
         (Pg.patched_conversations p
            [conv_eq_id (CreateMessage.conversation_id data);
             conv_eq_brand_id (BrandContext.brand_id ctx)] db)
         (Pg.messages db ++ [m]) (Pg.now db))
    ∧ Message.conversation_id m = CreateMessage.conversation_id data
    ∧ Message.direction m = CreateMessage.direction data
    ∧ Message.content m = CreateMessage.content data
    ∧ Message.sent_at m = now
    ∧ ConversationUpdate.message_count p = None
    ∧ ConversationUpdate.last_message_at p = Some now
    ∧ ConversationUpdate.last_inbound_at p
      = (if bool_decide
              (CreateMessage.direction data = MessageDirection.inbound)
         then Some now else None)
    ∧ ConversationUpdate.last_outbound_at p
      = (if bool_decide
              (CreateMessage.direction data = MessageDirection.inbound)
         then None else Some now).
Proof.
  intros Hc Hfk. subst result. unfold ConversationOperations.addMessage.
  simpl. unfold Pg.messages_insert_single. simpl.
  rewrite bool_decide_eq_true_2 by done.
  unfold Pg.conversations_update.
  match goal with
  | |- context [Pg.patched_conversations ?p ?fs ?d] =>
      set (pl := p); set (db1 := d)
  end.
  assert (Pg.patched_conversations pl
            [conv_eq_id (CreateMessage.conversation_id data);
             conv_eq_brand_id (BrandContext.brand_id ctx)] db1
          = Pg.patched_conversations pl
              [conv_eq_id (CreateMessage.conversation_id data);
               conv_eq_brand_id (BrandContext.brand_id ctx)] db) as Hp
    by done.
  assert (Pg.conversations_ok db1
            (Pg.patched_conversations pl
               [conv_eq_id (CreateMessage.conversation_id data);
                conv_eq_brand_id (BrandContext.brand_id ctx)] db1) = None)
    as Hok.
  { rewrite Hp.
    assert (Pg.conversations_ok db1 = Pg.conversations_ok db) as -> by done.
    apply conversations_ok_patched; [done|..];
      subst pl; by case_bool_decide. }
  rewrite Hok. eexists _, pl. split; [by rewrite Hp|].
  subst pl. repeat split; by case_bool_decide.
Qed.

End AddMessage.

(** C2. Whatever the call and whatever its outcome, [addMessage] leaves the
    [message_count] of every stored conversation, the owning one included,
    as it was: the counts read off row by row, each next to its id, are the
    same list before and after. *)
Theorem addMessage_leaves_message_count
    (ctx : BrandContext.t) (data : CreateMessage.t) (now : Timestamp)
    (db : Pg.Db) :
  let db' := (ConversationOperations.addMessage (Pg.bound ctx) data now db).2 in
  (λ c, (Conversation.id c, Conversation.message_count c))
    <$> Pg.conversations db'
  = (λ c, (Conversation.id c, Conversation.message_count c))
      <$> Pg.conversations db.
Proof.
  unfold ConversationOperations.addMessage. simpl.
  unfold Pg.messages_insert_single. simpl.
  case_bool_decide as Hfk; [|done].
  unfold Pg.conversations_update.
  destruct (Pg.conversations_ok _ _) as [e|]; [done|]. simpl.
  unfold Pg.patched_conversations. simpl.
  apply patched_column. intros c. by case_bool_decide.
Qed.

(** C8. The message insert carries no brand predicate and the stamp update
    that follows accepts matching no row: when the conversation named by the
    input is stored under a brand other than the bound one, [addMessage]
    returns the new message as a success, the message is appended to the
    [messages] table under that conversation, and no conversation row
    changes. *)
Theorem addMessage_accepts_foreign_conversation
    (ctx : BrandContext.t) (data : CreateMessage.t) (now : Timestamp)
    (db : Pg.Db) (c : Conversation.t) :
  Pg.consistent db →
  c ∈ Pg.conversations db →
  Conversation.id c = CreateMessage.conversation_id data →
  Conversation.brand_id c ≠ BrandContext.brand_id ctx →
  ∃ m,
    ConversationOperations.addMessage (Pg.bound ctx) data now db
    = (Ok m, Pg.set_messages (Pg.messages db ++ [m]) db)
    ∧ Message.conversation_id m = Conversation.id c
    ∧ Message.direction m = CreateMessage.direction data
    ∧ Message.content m = CreateMessage.content data.
Proof.
  intros Hc Hin Hid Hbrand.
  destruct (addMessage_stored ctx data now db Hc)
    as (m & p & Hr & Hmc & Hmd & Hmt & _).
  { rewrite <- Hid. by apply list_elem_of_fmap_2. }
  exists m. rewrite Hr, Hmc, Hid. repeat split; try done.
  f_equal. unfold Pg.set_messages. f_equal.
  apply patched_conversations_miss. intros x Hx.
  apply not_true_is_false. intros Hs.
  apply conv_satisfies_id_brand in Hs as [Hxid Hxb].
  apply Hbrand. rewrite <- Hxb. f_equal.
  destruct Hc.
  apply (same_id_same_row Conversation.id (Pg.conversations db));
    [done..|congruence].
Qed.

Lemma addMessage_accepts_foreign_conversation_witness :
  ∃ m,
    ConversationOperations.addMessage (Pg.bound (Scenario.ctx percymd))
      Scenario.reply Scenario.t4 Scenario.s3
    = (Ok m, Pg.set_messages (Pg.messages Scenario.s3 ++ [m]) Scenario.s3)
    ∧ Message.conversation_id m = Conversation.id Scenario.conversation
    ∧ Message.direction m = CreateMessage.direction Scenario.reply
    ∧ Message.content m = CreateMessage.content Scenario.reply.
Proof.
  apply (addMessage_accepts_foreign_conversation (Scenario.ctx percymd)
           Scenario.reply Scenario.t4 Scenario.s3 Scenario.conversation).
  - apply consistentb_spec. vm_compute. reflexivity.
  - vm_compute. apply list_elem_of_here.
  - reflexivity.
  - vm_compute. discriminate.
Defined.

(** Against C4 as stated for every call: bound to [percymd], an inbound
    [addMessage] on the [gnymble] conversation of the scenario returns its
    message, and afterwards no stored conversation with that id has
    [last_inbound_at] and [last_message_at] at the call time. *)
Lemma addMessage_inbound_foreign_conversation_unstamped :
  let r :=
    ConversationOperations.addMessage (Pg.bound (Scenario.ctx percymd))
      Scenario.reply Scenario.t4 Scenario.s3 in
  (∃ m, r.1 = Ok m)
  ∧ CreateMessage.direction Scenario.reply = MessageDirection.inbound
  ∧ ¬ ∃ c',
        c' ∈ Pg.conversations r.2
        ∧ Conversation.id c' = CreateMessage.conversation_id Scenario.reply
        ∧ Conversation.last_inbound_at c' = Some Scenario.t4
        ∧ Conversation.last_message_at c' = Some Scenario.t4.
Proof.
  intros r.
  assert (Pg.conversations r.2 = [Scenario.conversation]) as Hrows
    by (vm_compute; reflexivity).
  split; [by eexists; vm_compute|]. split; [done|].
  intros (c' & Hin & _ & Hinbound & _). rewrite Hrows in Hin.
  apply list_elem_of_singleton in Hin. subst c'. discriminate.
Qed.

(** C4 (amended). For a conversation stored under the bound brand,
    [addMessage] succeeds and the row then stored under that id has
    [last_message_at] at the call time; an inbound message also sets its
    [last_inbound_at] to the call time and keeps [last_outbound_at], an
    outbound one sets [last_outbound_at] and keeps [last_inbound_at]. *)
Theorem addMessage_stamps_by_direction
    (ctx : BrandContext.t) (data : CreateMessage.t) (now : Timestamp)
    (db : Pg.Db) (c : Conversation.t) :
  Pg.consistent db →
  c ∈ Pg.conversations db →
  Conversation.id c = CreateMessage.conversation_id data →
  Conversation.brand_id c = BrandContext.brand_id ctx →
  ∃ m db' c',
    ConversationOperations.addMessage (Pg.bound ctx) data now db = (Ok m, db')
    ∧ c' ∈ Pg.conversations db'
    ∧ (∀ x, x ∈ Pg.conversations db' →
         Conversation.id x = Conversation.id c → x = c')
    ∧ Conversation.id c' = Conversation.id c
    ∧ Conversation.last_message_at c' = Some now
    ∧ match CreateMessage.direction data with
      | MessageDirection.inbound =>
          Conversation.last_inbound_at c' = Some now
          ∧ Conversation.last_outbound_at c' = Conversation.last_outbound_at c
      | MessageDirection.outbound =>
          Conversation.last_outbound_at c' = Some now
          ∧ Conversation.last_inbound_at c' = Conversation.last_inbound_at c
      end.
Proof.
  intros Hc Hin Hid Hbrand.
  destruct (addMessage_stored ctx data now db Hc)
    as (m & p & Hr & _ & _ & _ & _ & _ & Hlm & Hli & Hlo).
  { rewrite <- Hid. by apply list_elem_of_fmap_2. }
  assert (Pg.satisfies Pg.conv_matches
            [conv_eq_id (CreateMessage.conversation_id data);
             conv_eq_brand_id (BrandContext.brand_id ctx)] c = true) as Hsat.
  { by apply conv_satisfies_id_brand. }
  eexists m, _, (Pg.patch_conversation p db c).
  split; [exact Hr|]. simpl. split; [|split; [|split; [done|]]].
  - apply elem_of_patched. exists c. by rewrite Hsat.
  - intros x Hx Hxid.
    apply elem_of_patched in Hx as (y & Hy & ->).
    assert (Conversation.id y = Conversation.id c) as Hyid.
    { destruct (Pg.satisfies _ _ y); done. }
    assert (y = c) as ->.
    { destruct Hc.
      by apply (same_id_same_row Conversation.id (Pg.conversations db)). }
    by rewrite Hsat.
  - rewrite Hlm, Hli, Hlo. simpl.
    destruct (CreateMessage.direction data); simpl; done.
Qed.

Lemma addMessage_stamps_by_direction_witness :
  ∃ m db' c',
    ConversationOperations.addMessage (Pg.bound (Scenario.ctx gnymble))
      Scenario.reply Scenario.t4 Scenario.s3 = (Ok m, db')
    ∧ c' ∈ Pg.conversations db'
    ∧ (∀ x, x ∈ Pg.conversations db' →
         Conversation.id x = Conversation.id Scenario.conversation → x = c')
    ∧ Conversation.id c' = Conversation.id Scenario.conversation
    ∧ Conversation.last_message_at c' = Some Scenario.t4
    ∧ match CreateMessage.direction Scenario.reply with
      | MessageDirection.inbound =>
          Conversation.last_inbound_at c' = Some Scenario.t4
          ∧ Conversation.last_outbound_at c'
            = Conversation.last_outbound_at Scenario.conversation
      | MessageDirection.outbound =>
          Conversation.last_outbound_at c' = Some Scenario.t4
          ∧ Conversation.last_inbound_at c'
            = Conversation.last_inbound_at Scenario.conversation
      end.
Proof.
  apply (addMessage_stamps_by_direction (Scenario.ctx gnymble)
           Scenario.reply Scenario.t4 Scenario.s3 Scenario.conversation).
  - apply consistentb_spec. vm_compute. reflexivity.
  - vm_compute. apply list_elem_of_here.
  - reflexivity.
  - reflexivity.
Defined.

(** ** Customer operations on the store *)

Section CustomersOnStore.
Variable ctx : BrandContext.t.
Variable db : Pg.Db.
Hypothesis Hdb : Pg.consistent db.

Lemma cust_satisfies_brand_id b id c :
  Pg.satisfies Pg.cust_matches [cust_eq_brand_id b; cust_eq_id id] c = true
  ↔ Customer.brand_id c = b ∧ Customer.id c = id.
Proof.
  unfold Pg.satisfies. simpl.
  rewrite andb_true_r, andb_true_iff, !bool_decide_eq_true. done.
Qed.

(** A stored customer of the bound brand is what [getById] returns. *)
Lemma getById_stored c :
  c ∈ Pg.customers db →
  Customer.brand_id c = BrandContext.brand_id ctx →
  CustomerOperations.getById (Pg.bound ctx) (Customer.id c) db = Ok (Some c).
Proof.
  intros Hin Hb. unfold CustomerOperations.getById. simpl.
  unfold Pg.customers_single, BrandAwareSupabase.customers, where_. simpl.
  rewrite run_plain.
  rewrite (bfilter_unique Customer.id _ _ c); [done|by destruct Hdb|done|..].
  - by apply cust_satisfies_brand_id.
  - intros y _ Hy. by apply cust_satisfies_brand_id in Hy as [_ ?].
Qed.

(** An update that leaves [email] and [phone] alone reaches the stored
    customer of the bound brand and nothing else. *)
Lemma update_stored c data now :
  c ∈ Pg.customers db →
  Customer.brand_id c = BrandContext.brand_id ctx →
  UpdateCustomer.email data = None →
  UpdateCustomer.phone data = None →
  let c' :=
    Pg.patch_customer (CustomerOperations.update_payload data now) db c in
  ∃ db',
    CustomerOperations.update (Pg.bound ctx) (Customer.id c) data now db
    = (Ok c', db')
    ∧ Pg.consistent db'
    ∧ c' ∈ Pg.customers db'
    ∧ (∀ x, x ∈ Pg.customers db' → Customer.id x = Customer.id c → x = c').
Proof.
  intros Hin Hb He Hp c'.
  set (fs := [cust_eq_id (Customer.id c);
              cust_eq_brand_id (BrandContext.brand_id ctx)]).
  set (p := CustomerOperations.update_payload data now).
  assert (Pg.satisfies Pg.cust_matches fs c = true) as Hsat.
  { by apply cust_satisfies_id_brand. }
  assert (Pg.customers_update_single p fs db
          = (Data c',
             Pg.set_customers
               ((λ x, if Pg.satisfies Pg.cust_matches fs x
                      then Pg.patch_customer p db x else x)
                  <$> Pg.customers db) db)) as Hup.
  { unfold Pg.customers_update_single.
    assert (Pg.customers_ok
              ((λ x, if Pg.satisfies Pg.cust_matches fs x
                     then Pg.patch_customer p db x else x)
                 <$> Pg.customers db) = None) as ->.
    { apply customers_ok_None. destruct Hdb. split.
      - rewrite patched_column; [done|]. intros x.
        unfold Pg.cust_email_key. simpl. by rewrite He.
      - rewrite patched_omap; [done|]. intros x.
        unfold Pg.cust_phone_key. simpl. by rewrite Hp. }
    rewrite (bfilter_unique Customer.id _ _ c);
      [done|by destruct Hdb|done..|].
    intros y _ Hy. by apply cust_satisfies_id_brand in Hy as [? _]. }
  eexists. split.
  { unfold CustomerOperations.update. simpl. fold p fs. by rewrite Hup. }
  split; [by eapply customers_update_single_consistent|].
  cbn [Pg.customers Pg.set_customers]. split.
  - apply elem_of_patched. exists c. by rewrite Hsat.
  - intros x Hx Hxid. apply elem_of_patched in Hx as (y & Hy & ->).
    assert (Customer.id y = Customer.id c) as Hyid.
    { destruct (Pg.satisfies _ _ y); done. }
    assert (y = c) as ->.
    { destruct Hdb.
      by apply (same_id_same_row Customer.id (Pg.customers db)). }
    by rewrite Hsat.
Qed.

(** [addTags] on a stored customer of the bound brand writes the
    de-duplicated concatenation of the stored tags and the new ones. *)
Lemma addTags_stored c tags now :
  c ∈ Pg.customers db →
  Customer.brand_id c = BrandContext.brand_id ctx →
  ∃ c' db',
    CustomerOperations.addTags (Pg.bound ctx) (Customer.id c) tags now db
    = (Ok c', db')
    ∧ Pg.consistent db'
    ∧ c' ∈ Pg.customers db'
    ∧ (∀ x, x ∈ Pg.customers db' → Customer.id x = Customer.id c → x = c')
    ∧ Customer.id c' = Customer.id c
    ∧ Customer.brand_id c' = Customer.brand_id c
    ∧ Customer.tags c'
      = Some (set_spread (default [] (Customer.tags c) ++ tags)).
Proof.
  intros Hin Hb. unfold CustomerOperations.addTags.
  rewrite getById_stored by done.
  destruct (update_stored c
              (UpdateCustomer.set_tags
                 (set_spread (default [] (Customer.tags c) ++ tags))
                 UpdateCustomer.empty) now Hin Hb eq_refl eq_refl)
    as (db' & Hup & Hc' & Hin' & Huniq).
  eexists _, db'. split; [exact Hup|].
  split; [done|]. split; [done|]. split; [done|]. by split.
Qed.

End CustomersOnStore.




(** Against C6 as stated for every customer: a customer who already
    carries the tag [vip] ends, after the two additions, with a tag array
    whose elements are not those of [a], [b], [c]. *)
Lemma addTags_keeps_earlier_tags :
  let g := Pg.bound (Scenario.ctx gnymble) in
  let r1 :=
    CustomerOperations.addTags g (Customer.id Scenario.vip_customer)
      ["a"; "b"] Scenario.t2 Scenario.vip in
  let r2 :=
    CustomerOperations.addTags g (Customer.id Scenario.vip_customer)
      ["b"; "c"] Scenario.t3 r1.2 in
  ∃ c2 final,
    r2.1 = Ok c2 ∧ Customer.tags c2 = Some final
    ∧ ¬ (∀ t, t ∈ final ↔ t ∈ ["a"; "b"; "c"]).
Proof.
  intros g r1 r2.
  let v := eval vm_compute in r2.1 in
  assert (r2.1 = v) as Hr by (vm_compute; reflexivity).
  rewrite Hr. eexists _, ["vip"; "a"; "b"; "c"].
  split; [reflexivity|]. split; [reflexivity|].
  intros Hall. assert ("vip" ∈ ["a"; "b"; "c"]) as Hin.
  { apply Hall. apply list_elem_of_here. }
  apply (bool_decide_pack _) in Hin. vm_compute in Hin. done.
Qed.

(** C6 (amended). For a customer stored under the bound brand with tags
    [T0], [addTags(id, T1)] followed by [addTags(id, T2)] both succeed and
    leave a tag array without duplicates whose elements are exactly those of
    [T0], [T1] and [T2]; the two additions may therefore come in either
    order, and repeating a tag changes nothing. *)
Theorem addTags_twice_is_union
    (ctx : BrandContext.t) (db : Pg.Db) (c : Customer.t)
    (tags1 tags2 : list string) (now1 now2 : Timestamp) :
  Pg.consistent db →
  c ∈ Pg.customers db →
  Customer.brand_id c = BrandContext.brand_id ctx →
  ∃ c1 db1 c2 db2 final,
    CustomerOperations.addTags (Pg.bound ctx) (Customer.id c) tags1 now1 db
    = (Ok c1, db1)
    ∧ CustomerOperations.addTags (Pg.bound ctx) (Customer.id c) tags2 now2 db1
      = (Ok c2, db2)
    ∧ c2 ∈ Pg.customers db2
    ∧ (∀ x, x ∈ Pg.customers db2 → Customer.id x = Customer.id c → x = c2)
    ∧ Customer.tags c2 = Some final
    ∧ NoDup final
    ∧ (∀ t, t ∈ final ↔
            t ∈ default [] (Customer.tags c) ∨ t ∈ tags1 ∨ t ∈ tags2).
Proof.
  intros Hdb Hin Hb.
  destruct (addTags_stored ctx db Hdb c tags1 now1 Hin Hb)
    as (c1 & db1 & Hr1 & Hdb1 & Hin1 & _ & Hid1 & Hb1 & Ht1).
  destruct (addTags_stored ctx db1 Hdb1 c1 tags2 now2 Hin1)
    as (c2 & db2 & Hr2 & _ & Hin2 & Huniq2 & Hid2 & _ & Ht2);
    [congruence|].
  rewrite Hid1 in Hr2, Huniq2.
  eexists c1, db1, c2, db2, _. split; [exact Hr1|]. split; [exact Hr2|].
  split; [done|]. split; [done|]. split; [exact Ht2|].
  split; [apply NoDup_set_spread|].
  intros t. rewrite Ht1. simpl.
  rewrite elem_of_set_spread, elem_of_app, elem_of_set_spread, elem_of_app.
  tauto.
Qed.

Lemma addTags_twice_is_union_witness :
  ∃ c1 db1 c2 db2 final,
    CustomerOperations.addTags (Pg.bound (Scenario.ctx gnymble))
      (Customer.id Scenario.customer) ["a"; "b"] Scenario.t2 Scenario.s1
    = (Ok c1, db1)
    ∧ CustomerOperations.addTags (Pg.bound (Scenario.ctx gnymble))
        (Customer.id Scenario.customer) ["b"; "c"] Scenario.t3 db1
      = (Ok c2, db2)
    ∧ c2 ∈ Pg.customers db2
    ∧ (∀ x, x ∈ Pg.customers db2 →
         Customer.id x = Customer.id Scenario.customer → x = c2)
    ∧ Customer.tags c2 = Some final
    ∧ NoDup final
    ∧ (∀ t, t ∈ final ↔
            t ∈ default [] (Customer.tags Scenario.customer)
            ∨ t ∈ ["a"; "b"] ∨ t ∈ ["b"; "c"]).
Proof.
  apply (addTags_twice_is_union (Scenario.ctx gnymble) Scenario.s1
           Scenario.customer ["a"; "b"] ["b"; "c"] Scenario.t2 Scenario.t3).
  - apply consistentb_spec. vm_compute. reflexivity.
  - vm_compute. apply list_elem_of_here.
  - reflexivity.
Defined.

(** On the scenario's customer, who has no tags yet, adding [a], [b] and
    then [b], [c] leaves exactly [a], [b], [c]. *)
Example addTags_ab_bc_on_untagged :
  let g := Pg.bound (Scenario.ctx gnymble) in
  let r1 :=
    CustomerOperations.addTags g (Customer.id Scenario.customer)
      ["a"; "b"] Scenario.t2 Scenario.s1 in
  let r2 :=
    CustomerOperations.addTags g (Customer.id Scenario.customer)
      ["b"; "c"] Scenario.t3 r1.2 in
  Customer.tags <$> Pg.customers r2.2 = [Some ["a"; "b"; "c"]].
Proof. vm_compute. reflexivity. Qed.

(** ** Single-row lookups *)

(** With an optional unique key pinned, at most one row is selected. *)
Lemma bfilter_at_most_one_opt {A B : Type} (key : A → option B) (k : B)
    (f : A → bool) (l : list A) :
  NoDup (omap key l) → (∀ y, y ∈ l → f y = true → key y = Some k) →
  List.filter f l = [] ∨ ∃ x, List.filter f l = [x].
Proof.
  induction l as [|z l IH]; intros Hnd Hkey; [by left|].
  assert (NoDup (omap key l)) as Hnd'.
  { simpl in Hnd. destruct (key z); [|done]. by apply NoDup_cons in Hnd as [_ ?]. }
  assert (∀ y, y ∈ l → f y = true → key y = Some k) as Hkey'.
  { intros y Hy. apply Hkey. further. }
  simpl. destruct (f z) eqn:Hfz; [|by apply IH].
  right. exists z. f_equal. apply bfilter_nil. intros y Hy.
  destruct (f y) eqn:Hfy; [|done]. exfalso.
  simpl in Hnd. rewrite (Hkey z) in Hnd by (done || here).
  apply NoDup_cons in Hnd as [Hz _]. apply Hz.
  apply list_elem_of_omap. exists y. split; [done|]. by apply Hkey'.
Qed.

(** How a lookup reads the store's answer to a [.single()] request over a
    filter that selects at most one row. *)
Lemma lookup_on_store {A : Type} (f : A → bool) (rows : list A)
    (prefix : string) :
  (List.filter f rows = [] ∨ ∃ x, List.filter f rows = [x]) →
  let result :=
    match Pg.single (List.filter f rows) with
    | Failure error =>
        if String.eqb (code error) "PGRST116" then Ok None
        else Throw (prefix ++ message error)
    | Data data => Ok (Some data)
    end in
  (result = Ok None ↔ ∀ c, c ∈ rows → f c = false)
  ∧ (∀ c, c ∈ rows → f c = true → result = Ok (Some c)).
Proof.
  intros [Hnil|[x Hone]] result; subst result.
  - rewrite Hnil. simpl. split.
    + split; [|done]. intros _ c Hc. by eapply bfilter_nil_inv.
    + intros c Hc Hfc. by rewrite (bfilter_nil_inv f rows c) in Hfc.
  - rewrite Hone. simpl.
    assert (x ∈ rows ∧ f x = true) as [Hx Hfx].
    { apply elem_of_bfilter. rewrite Hone. here. }
    split.
    + split; [done|]. intros Hall. by rewrite Hall in Hfx.
    + intros c Hc Hfc.
      assert (c ∈ List.filter f rows) as Hcin by (by apply elem_of_bfilter).
      rewrite Hone in Hcin. apply list_elem_of_singleton in Hcin. by subst.
Qed.

Lemma cust_satisfies_brand_email b email c :
  Pg.satisfies Pg.cust_matches [cust_eq_brand_id b; cust_eq_email email] c
  = true
  ↔ Customer.brand_id c = b ∧ Customer.email c = email.
Proof.
  unfold Pg.satisfies. simpl.
  rewrite andb_true_r, andb_true_iff, !bool_decide_eq_true. done.
Qed.

Lemma cust_satisfies_brand_phone b phone c :
  Pg.satisfies Pg.cust_matches [cust_eq_brand_id b; cust_eq_phone phone] c
  = true
  ↔ Customer.brand_id c = b ∧ Customer.phone c = Some phone.
Proof.
  unfold Pg.satisfies. simpl.
  rewrite andb_true_r, andb_true_iff, !bool_decide_eq_true. done.
Qed.

Lemma conv_satisfies_brand_id b id c :
  Pg.satisfies Pg.conv_matches [conv_eq_brand_id b; conv_eq_id id] c = true
  ↔ Conversation.brand_id c = b ∧ Conversation.id c = id.
Proof.
  unfold Pg.satisfies. simpl.
  rewrite andb_true_r, andb_true_iff, !bool_decide_eq_true. done.
Qed.

Lemma conv_satisfies_active_phones b cp bp c :
  Pg.satisfies Pg.conv_matches
    [conv_eq_brand_id b; conv_eq_customer_phone cp; conv_eq_brand_phone bp;
     conv_eq_status ConversationStatus.active] c = true
  ↔ Conversation.brand_id c = b
    ∧ Conversation.customer_phone c = cp
    ∧ Conversation.brand_phone c = bp
    ∧ Conversation.status c = ConversationStatus.active.
Proof.
  unfold Pg.satisfies. simpl.
  rewrite andb_true_r, !andb_true_iff, !bool_decide_eq_true. done.
Qed.

(** Turning a boolean row test into its reading, in both parts of
    [lookup_on_store]. *)
Lemma lookup_reading {A R : Type} (f : A → bool) (P : A → Prop)
    (rows : list A) (result : R) (none : R) (some : A → R) :
  (∀ c, f c = true ↔ P c) →
  (result = none ↔ ∀ c, c ∈ rows → f c = false)
  ∧ (∀ c, c ∈ rows → f c = true → result = some c) →
  (result = none ↔ ∀ c, c ∈ rows → ¬ P c)
  ∧ (∀ c, c ∈ rows → P c → result = some c).
Proof.
  intros Hf [Hnone Hsome]. split.
  - rewrite Hnone. split; intros Hall c Hc.
    + rewrite <- Hf, (Hall c Hc). done.
    + apply not_true_is_false. rewrite Hf. by apply Hall.
  - intros c Hc HP. apply Hsome; [done|]. by apply Hf.
Qed.

(** How a lookup reads any answer of the store. *)
Lemma lookup_reads_response {A : Type} (prefix : string)
    (response : Response A) :
  let result :=
    match response with
    | Failure error =>
        if String.eqb (code error) "PGRST116" then Ok None
        else Throw (prefix ++ message error)
    | Data data => Ok (Some data)
    end in
  (result = Ok None ↔ ∃ e, response = Failure e ∧ code e = PGRST116)
  ∧ (∀ e, response = Failure e → code e ≠ PGRST116 →
       result = Throw (prefix ++ message e))
  ∧ (∀ row, response = Data row → result = Ok (Some row)).
Proof.
  intros result. subst result. unfold PGRST116.
  destruct response as [row|e].
  - split; [split; [done|by intros (e & ? & _)]|]. split; [done|].
    intros row' ?. by simplify_eq.
  - destruct (String.eqb (code e) "PGRST116") eqn:Hcode.
    + apply String.eqb_eq in Hcode.
      split; [split; [by eauto|done]|]. split; [|done].
      intros e' ? Hne. by simplify_eq.
    + apply String.eqb_neq in Hcode.
      split; [split; [done|]|].
      * intros (e' & ? & Hc). by simplify_eq.
      * split; [|done]. intros e' ? _. by simplify_eq.
Qed.

(** C3. Each of the five single-row lookups returns null exactly when the
    store answers its [.single()] request with the not-found code
    [PGRST116], throws the error wrapped under its own prefix for every
    other failure, and returns the row otherwise; this for any store behind
    the connection.  On the store of [tables.sql], whose unique constraints
    leave each lookup at most one candidate, a lookup returns null exactly
    when no stored row matches its predicates and returns the matching row
    when there is one. *)
Theorem single_row_lookups_null_on_not_found :
  (∀ (S : Type) (db : BrandAwareSupabase.t S) (s : S)
     (id email phone customerPhone brandPhone : string),
     let null_on_not_found :=
       λ (A : Type) (prefix : string) (response : Response A)
         (result : Result (option A)),
         (result = Ok None ↔ ∃ e, response = Failure e ∧ code e = PGRST116)
         ∧ (∀ e, response = Failure e → code e ≠ PGRST116 →
              result = Throw (prefix ++ message e))
         ∧ (∀ row, response = Data row → result = Ok (Some row)) in
     null_on_not_found Customer.t "Failed to get customer: "
       (SupabaseClient.customers_single (BrandAwareSupabase.client db)
          (where_ (cust_eq_id id) (BrandAwareSupabase.customers db)) s)
       (CustomerOperations.getById db id s)
     ∧ null_on_not_found Customer.t "Failed to get customer by email: "
         (SupabaseClient.customers_single (BrandAwareSupabase.client db)
            (where_ (cust_eq_email email) (BrandAwareSupabase.customers db))
            s)
         (CustomerOperations.getByEmail db email s)
     ∧ null_on_not_found Customer.t "Failed to get customer by phone: "
         (SupabaseClient.customers_single (BrandAwareSupabase.client db)
            (where_ (cust_eq_phone phone) (BrandAwareSupabase.customers db))
            s)
         (CustomerOperations.getByPhone db phone s)
     ∧ null_on_not_found Conversation.t "Failed to get conversation: "
         (SupabaseClient.conversations_single (BrandAwareSupabase.client db)
            (where_ (conv_eq_id id) (BrandAwareSupabase.conversations db)) s)
         (ConversationOperations.getById db id s)
     ∧ null_on_not_found Conversation.t
         "Failed to get conversation by phones: "
         (SupabaseClient.conversations_single (BrandAwareSupabase.client db)
            (where_ (conv_eq_status ConversationStatus.active)
               (where_ (conv_eq_brand_phone brandPhone)
                  (where_ (conv_eq_customer_phone customerPhone)
                     (BrandAwareSupabase.conversations db)))) s)
         (ConversationOperations.getByPhones db customerPhone brandPhone s))
  ∧ (∀ (ctx : BrandContext.t) (db : Pg.Db)
       (id email phone customerPhone brandPhone : string),
       Pg.consistent db →
       let b := BrandContext.brand_id ctx in
       let null_when_no_row :=
         λ (A : Type) (rows : list A) (P : A → Prop)
           (result : Result (option A)),
           (result = Ok None ↔ ∀ c, c ∈ rows → ¬ P c)
           ∧ (∀ c, c ∈ rows → P c → result = Ok (Some c)) in
       null_when_no_row Customer.t (Pg.customers db)
         (λ c, Customer.brand_id c = b ∧ Customer.id c = id)
         (CustomerOperations.getById (Pg.bound ctx) id db)
       ∧ null_when_no_row Customer.t (Pg.customers db)
           (λ c, Customer.brand_id c = b ∧ Customer.email c = email)
           (CustomerOperations.getByEmail (Pg.bound ctx) email db)
       ∧ null_when_no_row Customer.t (Pg.customers db)
           (λ c, Customer.brand_id c = b ∧ Customer.phone c = Some phone)
           (CustomerOperations.getByPhone (Pg.bound ctx) phone db)
       ∧ null_when_no_row Conversation.t (Pg.conversations db)
           (λ c, Conversation.brand_id c = b ∧ Conversation.id c = id)
           (ConversationOperations.getById (Pg.bound ctx) id db)
       ∧ null_when_no_row Conversation.t (Pg.conversations db)
           (λ c, Conversation.brand_id c = b
                 ∧ Conversation.customer_phone c = customerPhone
                 ∧ Conversation.brand_phone c = brandPhone
                 ∧ Conversation.status c = ConversationStatus.active)
           (ConversationOperations.getByPhones (Pg.bound ctx) customerPhone
              brandPhone db)).
Proof.
  split.
  - intros S db s id email phone customerPhone brandPhone null_on_not_found.
    subst null_on_not_found. cbv beta.
    split; [apply lookup_reads_response|].
    split; [apply lookup_reads_response|].
    split; [apply lookup_reads_response|].
    split; apply lookup_reads_response.
  - intros ctx db id email phone customerPhone brandPhone Hdb b
      null_when_no_row.
    subst null_when_no_row. cbv beta. destruct Hdb.
    split; [|split; [|split; [|split]]].
    + apply (lookup_reading _ _ _ _ _ _ (cust_satisfies_brand_id b id)).
      apply lookup_on_store.
      apply (bfilter_at_most_one Customer.id id); [done|].
      intros y _ Hy. by apply cust_satisfies_brand_id in Hy as [_ ?].
    + apply (lookup_reading _ _ _ _ _ _ (cust_satisfies_brand_email b email)).
      apply lookup_on_store.
      apply (bfilter_at_most_one Pg.cust_email_key (b, email)); [done|].
      intros y _ Hy. apply cust_satisfies_brand_email in Hy as [Hyb Hye].
      unfold Pg.cust_email_key. by rewrite Hyb, Hye.
    + apply (lookup_reading _ _ _ _ _ _ (cust_satisfies_brand_phone b phone)).
      apply lookup_on_store.
      apply (bfilter_at_most_one_opt Pg.cust_phone_key (b, phone)); [done|].
      intros y _ Hy. apply cust_satisfies_brand_phone in Hy as [Hyb Hyp].
      unfold Pg.cust_phone_key. by rewrite Hyp, Hyb.
    + apply (lookup_reading _ _ _ _ _ _ (conv_satisfies_brand_id b id)).
      apply lookup_on_store.
      apply (bfilter_at_most_one Conversation.id id); [done|].
      intros y _ Hy. by apply conv_satisfies_brand_id in Hy as [_ ?].
    + apply (lookup_reading _ _ _ _ _ _
               (conv_satisfies_active_phones b customerPhone brandPhone)).
      apply lookup_on_store.
      apply (bfilter_at_most_one Pg.conv_phones_key
               (b, customerPhone, brandPhone)); [done|].
      intros y _ Hy.
      apply conv_satisfies_active_phones in Hy as (Hyb & Hyc & Hyp & _).
      unfold Pg.conv_phones_key. by rewrite Hyb, Hyc, Hyp.
Qed.

Lemma single_row_lookups_null_on_not_found_witness :
  CustomerOperations.getByEmail (Pg.bound (Scenario.ctx gnymble)) "a@b.com"
    Scenario.s3 = Ok (Some Scenario.customer).
Proof.
  destruct single_row_lookups_null_on_not_found as [_ Hstore].
  destruct (Hstore (Scenario.ctx gnymble) Scenario.s3 "" "a@b.com" "" "" "")
    as (_ & [_ Hfound] & _).
  - apply consistentb_spec. vm_compute. reflexivity.
  - apply Hfound.
    + vm_compute. apply list_elem_of_here.
    + split; reflexivity.
Defined.

(** ** [findOrCreate] for conversations *)

Section FindOrCreate.
Variable ctx : BrandContext.t.
Variable db : Pg.Db.
Hypothesis Hdb : Pg.consistent db.

(** [getByPhones] on the store: null exactly when the brand has no active
    conversation on the phone pair. *)
Lemma getByPhones_on_store customerPhone brandPhone :
  let result :=
    ConversationOperations.getByPhones (Pg.bound ctx) customerPhone
      brandPhone db in
  let P := λ c,
    Conversation.brand_id c = BrandContext.brand_id ctx
    ∧ Conversation.customer_phone c = customerPhone
    ∧ Conversation.brand_phone c = brandPhone
    ∧ Conversation.status c = ConversationStatus.active in
  (result = Ok None ↔ ∀ c, c ∈ Pg.conversations db → ¬ P c)
  ∧ (∀ c, c ∈ Pg.conversations db → P c → result = Ok (Some c)).
Proof.
  intros result P. subst result P.
  apply (lookup_reading _ _ _ _ _ _
           (conv_satisfies_active_phones (BrandContext.brand_id ctx)
              customerPhone brandPhone)).
  apply lookup_on_store.
  apply (bfilter_at_most_one Pg.conv_phones_key
           (BrandContext.brand_id ctx, customerPhone, brandPhone));
    [by destruct Hdb|].
  intros y _ Hy.
  apply conv_satisfies_active_phones in Hy as (Hyb & Hyc & Hyp & _).
  unfold Pg.conv_phones_key. by rewrite Hyb, Hyc, Hyp.
Qed.

(** What [getByPhones] returns is a stored active conversation of the
    brand on that phone pair. *)
Lemma getByPhones_Some customerPhone brandPhone existing :
  ConversationOperations.getByPhones (Pg.bound ctx) customerPhone brandPhone db
  = Ok (Some existing) →
  existing ∈ Pg.conversations db
  ∧ Conversation.brand_id existing = BrandContext.brand_id ctx
  ∧ Conversation.customer_phone existing = customerPhone
  ∧ Conversation.brand_phone existing = brandPhone
  ∧ Conversation.status existing = ConversationStatus.active.
Proof.
  unfold ConversationOperations.getByPhones. simpl.
  unfold Pg.conversations_single, BrandAwareSupabase.conversations, where_.
  simpl. rewrite run_plain.
  destruct (Pg.single _) as [row|e] eqn:Hs.
  - intros ?. simplify_eq. apply single_Data in Hs.
    assert (existing ∈ List.filter
              (Pg.satisfies Pg.conv_matches
                 [conv_eq_brand_id (BrandContext.brand_id ctx);
                  conv_eq_customer_phone customerPhone;
                  conv_eq_brand_phone brandPhone;
                  conv_eq_status ConversationStatus.active])
              (Pg.conversations db)) as Hin by (rewrite Hs; here).
    apply elem_of_bfilter in Hin as [Hin Hsat].
    by apply conv_satisfies_active_phones in Hsat.
  - destruct (String.eqb _ _); done.
Qed.

(** A new conversation on a phone pair the brand already has is refused
    by [conversations_brand_phones_unique]. *)
Lemma create_collides (data : CreateConversation.t) now1 now2 c :
  c ∈ Pg.conversations db →
  Conversation.brand_id c = BrandContext.brand_id ctx →
  Conversation.customer_phone c = CreateConversation.customer_phone data →
  Conversation.brand_phone c = CreateConversation.brand_phone data →
  ConversationOperations.create (Pg.bound ctx) data now1 now2 db
  = (Throw ("Failed to create conversation: "
            ++ message (Pg.unique_violation
                          "conversations_brand_phones_unique")), db).
Proof.
  intros Hin Hb Hcp Hbp. unfold ConversationOperations.create. simpl.
  unfold Pg.conversations_insert_single, Pg.conversations_ok.
  rewrite bool_decide_eq_false_2; [done|].
  rewrite fmap_app. intros Hnd. apply NoDup_app in Hnd as (_ & Hdisj & _).
  apply (Hdisj (Pg.conv_phones_key c)).
  - by apply list_elem_of_fmap_2.
  - simpl. apply list_elem_of_singleton.
    unfold Pg.conv_phones_key. simpl. by rewrite Hb, Hcp, Hbp.
Qed.

(** A conversation that [create] returns was not stored before. *)
Lemma create_is_new (data : CreateConversation.t) now1 now2 r db' :
  ConversationOperations.create (Pg.bound ctx) data now1 now2 db
  = (Ok r, db') →
  r ∉ Pg.conversations db.
Proof.
  unfold ConversationOperations.create. simpl.
  unfold Pg.conversations_insert_single.
  destruct (Pg.conversations_ok _ _); intros ?; simplify_eq.
  intros Hin. apply (list_elem_of_fmap_2 Conversation.id) in Hin.
  simpl in Hin. by apply infinite_is_fresh in Hin.
Qed.

End FindOrCreate.

(** C9. In a store that satisfies its schema, for every call of
    [findOrCreate]: a conversation that was already stored is returned only
    if it is an active one of the bound brand on the given phone pair, and
    whenever the bound brand has a stored conversation on that pair whose
    status is not active (paused, completed or archived), the call does not
    return it but attempts the insert, collides with
    [conversations_brand_phones_unique] and throws, leaving the store as it
    was. *)
Theorem findOrCreate_only_active
    (ctx : BrandContext.t) (db : Pg.Db) (customerId : Uuid)
    (customerPhone brandPhone : string)
    (campaignData : option CampaignData.t) (now1 now2 : Timestamp) :
  Pg.consistent db →
  let result :=
    ConversationOperations.findOrCreate (Pg.bound ctx) customerId
      customerPhone brandPhone campaignData now1 now2 db in
  (∀ r db', result = (Ok r, db') → r ∈ Pg.conversations db →
     Conversation.status r = ConversationStatus.active
     ∧ Conversation.brand_id r = BrandContext.brand_id ctx
     ∧ Conversation.customer_phone r = customerPhone
     ∧ Conversation.brand_phone r = brandPhone)
  ∧ (∀ c, c ∈ Pg.conversations db →
       Conversation.brand_id c = BrandContext.brand_id ctx →
       Conversation.customer_phone c = customerPhone →
       Conversation.brand_phone c = brandPhone →
       Conversation.status c ≠ ConversationStatus.active →
       result
       = (Throw ("Failed to create conversation: "
                 ++ message (Pg.unique_violation
                               "conversations_brand_phones_unique")), db)).
Proof.
  intros Hdb result. subst result.
  unfold ConversationOperations.findOrCreate. split.
  - intros r db' Hres Hin.
    destruct (ConversationOperations.getByPhones _ _ _ _)
      as [[existing|]|e] eqn:Hget.
    + apply (getByPhones_Some ctx db) in Hget
        as (_ & Hb & Hcp & Hbp & Hst).
      rewrite bool_decide_eq_true_2 in Hres by done. by simplify_eq.
    + by apply create_is_new in Hres.
    + done.
  - intros c Hin Hb Hcp Hbp Hst.
    destruct (getByPhones_on_store ctx db Hdb customerPhone brandPhone)
      as [Hnone _].
    rewrite (proj2 Hnone).
    + by apply (create_collides ctx db _ now1 now2 c).
    + intros y Hy (Hyb & Hycp & Hybp & Hyst).
      assert (y = c) as ->; [|done].
      destruct Hdb.
      apply (same_id_same_row Pg.conv_phones_key (Pg.conversations db));
        [done..|].
      unfold Pg.conv_phones_key. by rewrite Hyb, Hycp, Hybp, Hb, Hcp, Hbp.
Qed.

Lemma findOrCreate_only_active_witness :
  ConversationOperations.findOrCreate (Pg.bound (Scenario.ctx gnymble))
    Scenario.customer_id "+15551234567" "+15557654321" None
    Scenario.t4 Scenario.t4 Scenario.paused
  = (Throw ("Failed to create conversation: "
            ++ message (Pg.unique_violation
                          "conversations_brand_phones_unique")),
     Scenario.paused).
Proof.
  destruct (findOrCreate_only_active (Scenario.ctx gnymble) Scenario.paused
              Scenario.customer_id "+15551234567" "+15557654321" None
              Scenario.t4 Scenario.t4) as [_ Hthrow].
  - apply consistentb_spec. vm_compute. reflexivity.
  - eapply Hthrow.
    + vm_compute. apply list_elem_of_here.
    + reflexivity.
    + reflexivity.
    + reflexivity.
    + discriminate.
Defined.

(** The scenario's conversation once paused: [findOrCreate] on its phone
    pair throws instead of returning it. *)
Example findOrCreate_paused_throws :
  (ConversationOperations.findOrCreate (Pg.bound (Scenario.ctx gnymble))
     Scenario.customer_id "+15551234567" "+15557654321" None
     Scenario.t4 Scenario.t4 Scenario.paused).1
  = Throw ("Failed to create conversation: "
           ++ "duplicate key value violates unique constraint "
           ++ "conversations_brand_phones_unique").
Proof. vm_compute. reflexivity. Qed.

(** ** Analytics *)

(** What the guards of the two aggregations avoid: in JS arithmetic the
    ratio of zero to zero is [NaN]. *)
Example zero_over_zero_is_nan :
  PrimFloat.is_nan (number_of_nat 0 / number_of_nat 0)%float = true.
Proof. vm_compute. reflexivity. Qed.

(** C10. Whatever rows the store returns for the brand, customer
    [getAnalytics] succeeds with [conversionRate] equal to
    [active / leads * 100] when the rows hold at least one lead and to the
    literal 0 otherwise, so with no customer in stage lead the rate is 0
    and no division takes place.  Likewise conversation [getAnalytics]
    succeeds with [avgMessagesPerConversation] equal to the sum of the
    stored counts over the number of rows when there is at least one row
    and to 0 when no conversation matches. *)
Theorem analytics_guard_zero_denominators :
  (∀ (S : Type) (db : BrandAwareSupabase.t S) (s : S)
     (data : list Customer.t),
     SupabaseClient.customers_select (BrandAwareSupabase.raw db)
       (where_ (cust_eq_brand_id
                  (BrandContext.brand_id (BrandAwareSupabase.context db)))
          select) s = Data data →
     let leads :=
       length (List.filter
                 (λ c, bool_decide (Customer.stage c = CustomerStage.lead))
                 data) in
     let active :=
       length (List.filter
                 (λ c, bool_decide (Customer.stage c = CustomerStage.active))
                 data) in
     ∃ a,
       CustomerOperations.getAnalytics db s = Ok a
       ∧ CustomerAnalytics.conversionRate a
         = (if bool_decide (0 < leads)
            then (number_of_nat active / number_of_nat leads * 100)%float
            else 0%float)
       ∧ ((∀ c, c ∈ data → Customer.stage c ≠ CustomerStage.lead) →
          CustomerAnalytics.conversionRate a = 0%float))
  ∧ (∀ (S : Type) (db : BrandAwareSupabase.t S) (s : S)
       (timeRange : option TimeRange.t) (data : list Conversation.t),
       SupabaseClient.conversations_select (BrandAwareSupabase.client db)
         (match timeRange with
          | Some r =>
              where_ (conv_lte_created_at (TimeRange.end_ r))
                (where_ (conv_gte_created_at (TimeRange.start r))
                   (BrandAwareSupabase.conversations db))
          | None => BrandAwareSupabase.conversations db
          end) s = Data data →
       ∃ a,
         ConversationOperations.getAnalytics db timeRange s = Ok a
         ∧ ConversationAnalytics.total a = length data
         ∧ ConversationAnalytics.avgMessagesPerConversation a
           = (if bool_decide (0 < length data)
              then (number_of_Z (ConversationAnalytics.totalMessages a)
                    / number_of_nat (length data))%float
              else 0%float)
         ∧ (data = [] →
            ConversationAnalytics.avgMessagesPerConversation a = 0%float)).
Proof.
  split.
  - intros S db s data Hsel leads active.
    unfold CustomerOperations.getAnalytics. rewrite Hsel.
    eexists. split; [reflexivity|]. cbn [CustomerAnalytics.conversionRate].
    rewrite !count_of_tally. cbn [count_of]. fold leads active.
    split; [done|]. intros Hnone.
    assert (leads = 0) as ->; [|done].
    subst leads. rewrite bfilter_nil; [done|].
    intros c Hc. apply bool_decide_eq_false_2. by apply Hnone.
  - intros S db s timeRange data Hsel.
    unfold ConversationOperations.getAnalytics. rewrite Hsel.
    eexists. split; [reflexivity|].
    cbn [ConversationAnalytics.total ConversationAnalytics.totalMessages
         ConversationAnalytics.avgMessagesPerConversation].
    split; [done|]. split; [done|]. by intros ->.
Qed.

Lemma analytics_guard_zero_denominators_witness :
  (∃ a,
     CustomerOperations.getAnalytics (Pg.bound (Scenario.ctx percymd))
       Scenario.s3 = Ok a
     ∧ CustomerAnalytics.conversionRate a = 0%float)
  ∧ (∃ a,
       ConversationOperations.getAnalytics (Pg.bound (Scenario.ctx percymd))
         None Scenario.s3 = Ok a
       ∧ ConversationAnalytics.avgMessagesPerConversation a = 0%float).
Proof.
  destruct analytics_guard_zero_denominators as [Hcust Hconv]. split.
  - destruct (Hcust Pg.Db (Pg.bound (Scenario.ctx percymd)) Scenario.s3 [])
      as (a & Ha & _ & Hzero); [vm_compute; reflexivity|].
    exists a. split; [exact Ha|]. apply Hzero.
    intros c Hc. by apply not_elem_of_nil in Hc.
  - destruct (Hconv Pg.Db (Pg.bound (Scenario.ctx percymd)) Scenario.s3
                None [])
      as (a & Ha & _ & _ & Hzero); [vm_compute; reflexivity|].
    exists a. split; [exact Ha|]. by apply Hzero.
Defined.

(** In the scenario [gnymble] has one lead and no active customer: the
    rate is 0 out of a real division, and the one conversation averages its
    stored count of 0. *)
Example analytics_of_scenario :
  (CustomerAnalytics.conversionRate
     <$> match CustomerOperations.getAnalytics
                 (Pg.bound (Scenario.ctx gnymble)) Scenario.s3 with
         | Ok a => Some a
         | Throw _ => None
         end) = Some 0%float
  ∧ (ConversationAnalytics.avgMessagesPerConversation
       <$> match ConversationOperations.getAnalytics
                   (Pg.bound (Scenario.ctx gnymble)) None Scenario.s3 with
           | Ok a => Some a
           | Throw _ => None
           end) = Some 0%float.
Proof. split; vm_compute; reflexivity. Qed.

(** ** Brand isolation *)

(** A [select] that carries the brand predicate returns rows of that brand
    only, whatever else is chained on it. *)
Lemma customers_run_brand q rows b c :
  cust_eq_brand_id b ∈ filters q →
  c ∈ Pg.run Pg.cust_matches Pg.cust_order_key q rows →
  Customer.brand_id c = b.
Proof.
  intros Hf Hc. apply elem_of_run in Hc as [_ Hsat].
  unfold Pg.satisfies in Hsat. rewrite forallb_Forall, Forall_forall in Hsat.
  specialize (Hsat _ Hf). simpl in Hsat. by apply bool_decide_eq_true in Hsat.
Qed.

Lemma conversations_run_brand q rows b c :
  conv_eq_brand_id b ∈ filters q →
  c ∈ Pg.run Pg.conv_matches Pg.conv_order_key q rows →
  Conversation.brand_id c = b.
Proof.
  intros Hf Hc. apply elem_of_run in Hc as [_ Hsat].
  unfold Pg.satisfies in Hsat. rewrite forallb_Forall, Forall_forall in Hsat.
  specialize (Hsat _ Hf). simpl in Hsat. by apply bool_decide_eq_true in Hsat.
Qed.

Lemma single_elem_of {A : Type} (rows : list A) x :
  Pg.single rows = Data x → x ∈ rows.
Proof. intros H. apply single_Data in H. subst. here. Qed.

(** X30. Every read built on the [customers] and [conversations] getters
    returns rows of the bound brand only: the three customer lookups,
    [getByStage], and conversation [getById], [getByCustomer],
    [getByPhones] and [getActive]. *)
Lemma getter_reads_are_brand_scoped (ctx : BrandContext.t) (db : Pg.Db) :
  let h := Pg.bound ctx in
  let b := BrandContext.brand_id ctx in
  (∀ id c, CustomerOperations.getById h id db = Ok (Some c) →
           Customer.brand_id c = b)
  ∧ (∀ email c, CustomerOperations.getByEmail h email db = Ok (Some c) →
                Customer.brand_id c = b)
  ∧ (∀ phone c, CustomerOperations.getByPhone h phone db = Ok (Some c) →
                Customer.brand_id c = b)
  ∧ (∀ stage limit rows c,
       CustomerOperations.getByStage h stage limit db = Ok rows →
       c ∈ rows → Customer.brand_id c = b)
  ∧ (∀ id c, ConversationOperations.getById h id db = Ok (Some c) →
             Conversation.brand_id c = b)
  ∧ (∀ customerId rows c,
       ConversationOperations.getByCustomer h customerId db = Ok rows →
       c ∈ rows → Conversation.brand_id c = b)
  ∧ (∀ customerPhone brandPhone c,
       ConversationOperations.getByPhones h customerPhone brandPhone db
       = Ok (Some c) →
       Conversation.brand_id c = b)
  ∧ (∀ limit rows c,
       ConversationOperations.getActive h limit db = Ok rows →
       c ∈ rows → Conversation.brand_id c = b).
Proof.
  intros h b. subst h b.
  split; [|split; [|split; [|split; [|split; [|split; [|split]]]]]].
  - intros id c. unfold CustomerOperations.getById. simpl.
    unfold Pg.customers_single.
    destruct (Pg.single _) as [row|e] eqn:Hs;
      [|by destruct (String.eqb _ _)].
    intros ?. simplify_eq. apply single_elem_of in Hs.
    eapply customers_run_brand; [|done]. simpl. here.
  - intros email c. unfold CustomerOperations.getByEmail. simpl.
    unfold Pg.customers_single.
    destruct (Pg.single _) as [row|e] eqn:Hs;
      [|by destruct (String.eqb _ _)].
    intros ?. simplify_eq. apply single_elem_of in Hs.
    eapply customers_run_brand; [|done]. simpl. here.
  - intros phone c. unfold CustomerOperations.getByPhone. simpl.
    unfold Pg.customers_single.
    destruct (Pg.single _) as [row|e] eqn:Hs;
      [|by destruct (String.eqb _ _)].
    intros ?. simplify_eq. apply single_elem_of in Hs.
    eapply customers_run_brand; [|done]. simpl. here.
  - intros stage limit rows c. unfold CustomerOperations.getByStage.
    cbn [BrandAwareSupabase.client Pg.bound SupabaseClient.customers_select
         Pg.client].
    unfold Pg.customers_select. intros ? Hc. simplify_eq.
    eapply customers_run_brand; [|done]. simpl. here.
  - intros id c. unfold ConversationOperations.getById. simpl.
    unfold Pg.conversations_single.
    destruct (Pg.single _) as [row|e] eqn:Hs;
      [|by destruct (String.eqb _ _)].
    intros ?. simplify_eq. apply single_elem_of in Hs.
    eapply conversations_run_brand; [|done]. simpl. here.
  - intros customerId rows c. unfold ConversationOperations.getByCustomer.
    cbn [BrandAwareSupabase.client Pg.bound
         SupabaseClient.conversations_select Pg.client].
    unfold Pg.conversations_select. intros ? Hc. simplify_eq.
    eapply conversations_run_brand; [|done]. simpl. here.
  - intros customerPhone brandPhone c.
    unfold ConversationOperations.getByPhones. simpl.
    unfold Pg.conversations_single.
    destruct (Pg.single _) as [row|e] eqn:Hs;
      [|by destruct (String.eqb _ _)].
    intros ?. simplify_eq. apply single_elem_of in Hs.
    eapply conversations_run_brand; [|done]. simpl. here.
  - intros limit rows c. unfold ConversationOperations.getActive.
    cbn [BrandAwareSupabase.client Pg.bound
         SupabaseClient.conversations_select Pg.client].
    unfold Pg.conversations_select. intros ? Hc. simplify_eq.
    eapply conversations_run_brand; [|done]. simpl. here.
Qed.

(** [getMessages] goes through [raw] with the conversation id as its only
    predicate: what it returns does not depend on the bound brand. *)
Lemma getMessages_ignores_brand (ctx1 ctx2 : BrandContext.t)
    (conversationId : Uuid) (limit : option nat) (db : Pg.Db) :
  ConversationOperations.getMessages (Pg.bound ctx1) conversationId limit db
  = ConversationOperations.getMessages (Pg.bound ctx2) conversationId limit db.
Proof. reflexivity. Qed.

(** C1, at the input where the code departs from it.  In the scenario the
    conversation and its message were created through the handle bound to
    [gnymble]; the handle bound to [percymd] cannot see the conversation
    ([getById] returns null), and yet its [getMessages] on that
    conversation id returns the message. *)
Theorem getMessages_crosses_brands :
  (ConversationOperations.addMessage (Pg.bound (Scenario.ctx gnymble))
     Scenario.hi Scenario.t3 Scenario.s2).1 = Ok Scenario.stored_hi
  ∧ Scenario.conversation ∈ Pg.conversations Scenario.s3
  ∧ Conversation.id Scenario.conversation
    = Message.conversation_id Scenario.stored_hi
  ∧ Conversation.brand_id Scenario.conversation = gnymble
  ∧ ConversationOperations.getById (Pg.bound (Scenario.ctx percymd))
      Scenario.conversation_id Scenario.s3 = Ok None
  ∧ ConversationOperations.getMessages (Pg.bound (Scenario.ctx percymd))
      Scenario.conversation_id None Scenario.s3 = Ok [Scenario.stored_hi].
Proof.
  split; [vm_compute; reflexivity|].
  split; [vm_compute; apply list_elem_of_here|].
  split; [reflexivity|]. split; [reflexivity|].
  split; vm_compute; reflexivity.
Qed.

(** ** Construction against the store *)

(** With nothing configured the factory of [index.ts] fails at once; an
    empty endpoint counts as none. *)
Example createDatabaseClient_unconfigured :
  let p : Process Pg.Db :=
    {| env := {| NEXT_PUBLIC_SUPABASE_URL := Some "";
                 NEXT_PUBLIC_SUPABASE_ANON_KEY := Some "anon-key" |};
       supabaseClient := None |} in
  (createDatabaseClient Pg.createClient (Scenario.ctx gnymble) p).1
  = Throw "Missing Supabase configuration".
Proof. reflexivity. Qed.

(** Configured from the environment, the first construction installs the
    singleton and the next one, for another brand, reuses it. *)
Example createDatabaseClient_shares_connection :
  let p : Process Pg.Db :=
    {| env := {| NEXT_PUBLIC_SUPABASE_URL := Some "https://db.example";
                 NEXT_PUBLIC_SUPABASE_ANON_KEY := Some "anon-key" |};
       supabaseClient := None |} in
  let r1 := createDatabaseClient Pg.createClient (Scenario.ctx gnymble) p in
  let r2 := createDatabaseClient Pg.createClient (Scenario.ctx percymd) r1.2 in
  supabaseClient r1.2 = Some Pg.client
  ∧ r2.2 = r1.2
  ∧ r2.1 = Ok (DatabaseClient.mk (Pg.bound (Scenario.ctx percymd)) Pg.client
                 (Scenario.ctx percymd)).
Proof. repeat split. Qed.

(** * Further properties *)

(** ** The shared connection *)

Section SharedConnection.
Context {S : Type}.
Variable createClient : string → string → ClientOptions → SupabaseClient.t S.

(** X1. Once [createSupabaseClient] has returned a connection, that
    connection is the singleton: every later call, whatever endpoint and key
    it passes, and every [getSupabaseClient] return the same connection and
    leave the process as it is. *)
Theorem createSupabaseClient_first_caller_wins
    (url anonKey : option string) (p p' : Process S) (c : SupabaseClient.t S) :
  createSupabaseClient createClient url anonKey p = (Ok c, p') →
  supabaseClient p' = Some c
  ∧ env p' = env p
  ∧ (∀ url' anonKey',
       createSupabaseClient createClient url' anonKey' p' = (Ok c, p'))
  ∧ getSupabaseClient createClient p' = (Ok c, p').
Proof.
  intros Hr.
  assert (supabaseClient p' = Some c ∧ env p' = env p) as [Hs He].
  { unfold createSupabaseClient in Hr.
    destruct (supabaseClient p) as [c0|] eqn:Hc; [by simplify_eq|].
    destruct (negb _ || negb _); simplify_eq. done. }
  split; [done|]. split; [done|]. split.
  - intros url' anonKey'. by apply createSupabaseClient_reuse.
  - unfold getSupabaseClient. by rewrite Hs.
Qed.

(** X2. Handles built by [createDatabaseClient] share the connection: after
    one handle has been built, building another for any brand succeeds
    without touching the process, and its [raw] is the first handle's
    [raw]. *)
Theorem handles_share_one_connection
    (ctx1 ctx2 : BrandContext.t) (p p1 : Process S) (d1 : DatabaseClient.t S) :
  createDatabaseClient createClient ctx1 p = (Ok d1, p1) →
  ∃ d2,
    createDatabaseClient createClient ctx2 p1 = (Ok d2, p1)
    ∧ DatabaseClient.raw d2 = DatabaseClient.raw d1
    ∧ DatabaseClient.context d2 = ctx2
    ∧ DatabaseClient.context d1 = ctx1.
Proof.
  unfold createDatabaseClient, createBrandClient, BrandAwareSupabase.new.
  unfold getSupabaseClient.
  destruct (supabaseClient p) as [c|] eqn:Hc.
  - intros ?. simplify_eq. rewrite Hc. by eexists.
  - destruct (createSupabaseClient createClient None None p) as [[c|e] p']
      eqn:Hr; intros ?; simplify_eq.
    apply createSupabaseClient_first_caller_wins in Hr as (Hs & _).
    rewrite Hs. by eexists.
Qed.

End SharedConnection.

Lemma createSupabaseClient_first_caller_wins_witness :
  let p : Process Pg.Db :=
    {| env := {| NEXT_PUBLIC_SUPABASE_URL := None;
                 NEXT_PUBLIC_SUPABASE_ANON_KEY := None |};
       supabaseClient := None |} in
  let p' : Process Pg.Db :=
    {| env := env p; supabaseClient := Some Pg.client |} in
  supabaseClient p' = Some Pg.client
  ∧ env p' = env p
  ∧ (∀ url' anonKey',
       createSupabaseClient Pg.createClient url' anonKey' p'
       = (Ok Pg.client, p'))
  ∧ getSupabaseClient Pg.createClient p' = (Ok Pg.client, p').
Proof.
  intros p p'.
  apply (createSupabaseClient_first_caller_wins Pg.createClient
           (Some "https://db.example") (Some "anon-key") p p' Pg.client).
  reflexivity.
Defined.

Lemma handles_share_one_connection_witness :
  let p : Process Pg.Db :=
    {| env := {| NEXT_PUBLIC_SUPABASE_URL := Some "https://db.example";
                 NEXT_PUBLIC_SUPABASE_ANON_KEY := Some "anon-key" |};
       supabaseClient := None |} in
  let p1 : Process Pg.Db :=
    {| env := env p; supabaseClient := Some Pg.client |} in
  let d1 :=
    DatabaseClient.mk (Pg.bound (Scenario.ctx gnymble)) Pg.client
      (Scenario.ctx gnymble) in
  ∃ d2,
    createDatabaseClient Pg.createClient (Scenario.ctx percymd) p1
    = (Ok d2, p1)
    ∧ DatabaseClient.raw d2 = DatabaseClient.raw d1
    ∧ DatabaseClient.context d2 = Scenario.ctx percymd
    ∧ DatabaseClient.context d1 = Scenario.ctx gnymble.
Proof.
  intros p p1 d1.
  apply (handles_share_one_connection Pg.createClient (Scenario.ctx gnymble)
           (Scenario.ctx percymd) p p1 d1).
  reflexivity.
Defined.

(** ** Helpers *)


(** X3. [validateBrandId] accepts exactly the three enum strings and
    returns the brand each one names. *)
Theorem validateBrandId_exact (input : string) (b : BrandId) :
  validateBrandId input = Some b ↔ input = BrandId_name b.
Proof.
  unfold validateBrandId.
  destruct (String.eqb_spec input "gnymble") as [->|H1].
  { destruct b; simpl; split; intros H; by simplify_eq. }
  destruct (String.eqb_spec input "percymd") as [->|H2].
  { destruct b; simpl; split; intros H; by simplify_eq. }
  destruct (String.eqb_spec input "percytext") as [->|H3].
  { destruct b; simpl; split; intros H; by simplify_eq. }
  split; [done|]. intros ->. by destruct b.
Qed.



(** ** The store: order and limit *)

Lemma ascii_compare_lt_trans (a b c : Ascii.ascii) :
  Ascii.compare a b = Lt → Ascii.compare b c = Lt → Ascii.compare a c = Lt.
Proof.
  unfold Ascii.compare. rewrite !N.compare_lt_iff. lia.
Qed.

Lemma string_compare_lt_trans (a b c : string) :
  String.compare a b = Lt → String.compare b c = Lt →
  String.compare a c = Lt.
Proof.
  revert b c. induction a as [|x a IH]; intros [|y b] [|z c]; simpl;
    try done.
  destruct (Ascii.compare x y) eqn:Hxy; try done;
    destruct (Ascii.compare y z) eqn:Hyz; try done; intros Hab Hbc.
  - apply Ascii.compare_eq_iff in Hxy, Hyz. subst.
    assert (Ascii.compare z z = Eq) as ->.
    { unfold Ascii.compare. apply N.compare_refl. }
    by eapply IH.
  - apply Ascii.compare_eq_iff in Hxy. subst. by rewrite Hyz.
  - apply Ascii.compare_eq_iff in Hyz. subst. by rewrite Hxy.
  - by rewrite (ascii_compare_lt_trans x y z).
Qed.

Lemma string_ltb_asym (a b : string) :
  String.ltb a b = true → String.ltb b a = false.
Proof.
  unfold String.ltb. rewrite (String.compare_antisym b a).
  by destruct (String.compare a b).
Qed.

(** Not coming strictly later is transitive. *)
Lemma string_not_ltb_trans (a b c : string) :
  String.ltb a b = false → String.ltb b c = false → String.ltb a c = false.
Proof.
  unfold String.ltb. intros Hab Hbc.
  destruct (String.compare a b) eqn:Eab; [|done|].
  { apply String.compare_eq_iff in Eab. by subst. }
  destruct (String.compare b c) eqn:Ebc; [|done|].
  { apply String.compare_eq_iff in Ebc. subst. by rewrite Eab. }
  assert (String.compare c a = Lt) as Hca.
  { apply (string_compare_lt_trans c b a).
    - rewrite String.compare_antisym, Ebc. done.
    - rewrite String.compare_antisym, Eab. done. }
  rewrite String.compare_antisym, Hca. done.
Qed.

Section Ordering.
Context {A : Type}.
Variable key : A → option Timestamp.

(** [a] is listed no later than [b]: [b] does not come strictly before it
    in descending order of the key, [NULL]s first. *)
Let no_later (a b : A) : Prop := Pg.before_desc (key b) (key a) = false.

Lemma before_desc_asym (x y : option Timestamp) :
  Pg.before_desc x y = true → Pg.before_desc y x = false.
Proof.
  destruct x as [x|], y as [y|]; simpl; try done. apply string_ltb_asym.
Qed.

Lemma no_later_trans a b c : no_later a b → no_later b c → no_later a c.
Proof.
  unfold no_later.
  destruct (key a) as [x|], (key b) as [y|], (key c) as [z|]; simpl;
    try done.
  intros Hab Hbc. by apply (string_not_ltb_trans x y z).
Qed.

Lemma insert_desc_sorted x l :
  Sorted no_later l → Sorted no_later (Pg.insert_desc key x l).
Proof.
  induction l as [|y l IH]; intros Hs; simpl.
  { by repeat constructor. }
  apply Sorted_inv in Hs as [Hs Hhd].
  destruct (Pg.before_desc (key y) (key x)) eqn:Hyx.
  - constructor; [by apply IH|].
    destruct l as [|z l]; simpl.
    + constructor. by apply before_desc_asym.
    + apply HdRel_inv in Hhd.
      destruct (Pg.before_desc (key z) (key x));
        constructor; [done|]. by apply before_desc_asym.
  - constructor; [by constructor|]. by constructor.
Qed.

(** [ORDER BY key DESC] leaves every row listed no later than all the rows
    after it. *)
Lemma sort_desc_sorted l : StronglySorted no_later (Pg.sort_desc key l).
Proof.
  apply Sorted_StronglySorted.
  { intros a b c. apply no_later_trans. }
  induction l as [|x l IH]; simpl; [constructor|].
  by apply insert_desc_sorted.
Qed.

End Ordering.

Section Run.
Context {F O A : Type}.
Variable matches : F → A → bool.
Variable key : O → A → option Timestamp.

Lemma run_limit (q : Query F O) rows n :
  limit q = Some n → length (Pg.run matches key q rows) ≤ n.
Proof.
  unfold Pg.run. intros ->. rewrite length_take. lia.
Qed.

Lemma run_sorted (q : Query F O) rows o :
  order q = Some o →
  StronglySorted (λ a b, Pg.before_desc (key o b) (key o a) = false)
    (Pg.run matches key q rows).
Proof.
  unfold Pg.run. intros ->.
  pose proof (sort_desc_sorted (key o)
                (List.filter (Pg.satisfies matches (filters q)) rows)) as Hs.
  destruct (limit q) as [n|]; [|done].
  rewrite <- (take_drop n (Pg.sort_desc _ _)) in Hs.
  by apply StronglySorted_app_1_l in Hs.
Qed.

(** A row that satisfies the predicates is returned unless the limit cuts
    the result short. *)
Lemma run_complete (q : Query F O) rows x :
  x ∈ rows → Pg.satisfies matches (filters q) x = true →
  (∀ n, limit q = Some n →
        length (List.filter (Pg.satisfies matches (filters q)) rows) ≤ n) →
  x ∈ Pg.run matches key q rows.
Proof.
  intros Hx Hsat Hlim. unfold Pg.run.
  assert (x ∈ match order q with
              | Some o =>
                  Pg.sort_desc (key o)
                    (List.filter (Pg.satisfies matches (filters q)) rows)
              | None => List.filter (Pg.satisfies matches (filters q)) rows
              end) as Hin.
  { assert (x ∈ List.filter (Pg.satisfies matches (filters q)) rows)
      as Hf by (by apply elem_of_bfilter).
    destruct (order q); [|done]. by rewrite sort_desc_perm. }
  destruct (limit q) as [n|] eqn:Hl; [|done].
  rewrite take_ge; [done|].
  specialize (Hlim n eq_refl).
  destruct (order q); [|done]. by rewrite sort_desc_perm.
Qed.

End Run.

(** ** List reads on the store *)

Lemma bfilter_ext {A : Type} (f g : A → bool) (l : list A) :
  (∀ x, f x = g x) → List.filter f l = List.filter g l.
Proof.
  intros Hfg. induction l as [|x l IH]; [done|]. simpl.
  by rewrite Hfg, IH.
Qed.

(** X5. [getMessages] always succeeds on the store; it returns stored
    messages of the given conversation only, at most [limit] of them (50 by
    default), newest [sent_at] first, and all of them when the conversation
    has no more than the limit. *)
Theorem getMessages_newest_first
    (ctx : BrandContext.t) (conversationId : Uuid) (limit : option nat)
    (db : Pg.Db) :
  ∃ rows,
    ConversationOperations.getMessages (Pg.bound ctx) conversationId limit db
    = Ok rows
    ∧ (∀ m, m ∈ rows →
         m ∈ Pg.messages db ∧ Message.conversation_id m = conversationId)
    ∧ length rows ≤ default 50 limit
    ∧ StronglySorted
        (λ a b, String.ltb (Message.sent_at a) (Message.sent_at b) = false)
        rows
    ∧ (length (List.filter
                 (λ m, bool_decide (Message.conversation_id m = conversationId))
                 (Pg.messages db)) ≤ default 50 limit →
       ∀ m, m ∈ Pg.messages db →
            Message.conversation_id m = conversationId → m ∈ rows).
Proof.
  eexists. split; [reflexivity|].
  set (q := limit_to (default 50 limit)
              (order_by msg_sent_at_desc
                 (where_ (msg_eq_conversation_id conversationId) select))).
  assert (∀ m, Pg.satisfies Pg.msg_matches (filters q) m
               = bool_decide (Message.conversation_id m = conversationId))
    as Hsat.
  { intros m. unfold Pg.satisfies. simpl. by rewrite andb_true_r. }
  split; [|split; [|split]].
  - intros m Hm. apply elem_of_run in Hm as [Hin Hs]. split; [done|].
    rewrite Hsat in Hs. by apply bool_decide_eq_true in Hs.
  - by apply (run_limit Pg.msg_matches Pg.msg_order_key q).
  - apply (run_sorted Pg.msg_matches Pg.msg_order_key q _ msg_sent_at_desc).
    done.
  - intros Hlen m Hin Hid.
    apply (run_complete Pg.msg_matches Pg.msg_order_key q); [done|..].
    + rewrite Hsat. by apply bool_decide_eq_true.
    + intros n Hn. simpl in Hn. simplify_eq.
      by rewrite (bfilter_ext _ _ _ Hsat).
Qed.

(** X6. [getByStage] always succeeds on the store; it returns stored,
    active customers of the bound brand in the given stage only, at most
    [limit] of them (50 by default), newest [created_at] first, and all of
    them when there are no more than the limit. *)
Theorem getByStage_scoped_newest_first
    (ctx : BrandContext.t) (stage : CustomerStage.t) (limit : option nat)
    (db : Pg.Db) :
  let wanted := λ c,
    bool_decide (Customer.brand_id c = BrandContext.brand_id ctx)
    && bool_decide (Customer.stage c = stage)
    && bool_decide (Customer.is_active c = true) in
  ∃ rows,
    CustomerOperations.getByStage (Pg.bound ctx) stage limit db = Ok rows
    ∧ (∀ c, c ∈ rows → c ∈ Pg.customers db ∧ wanted c = true)
    ∧ length rows ≤ default 50 limit
    ∧ StronglySorted
        (λ a b,
           String.ltb (Customer.created_at a) (Customer.created_at b) = false)
        rows
    ∧ (length (List.filter wanted (Pg.customers db)) ≤ default 50 limit →
       ∀ c, c ∈ Pg.customers db → wanted c = true → c ∈ rows).
Proof.
  intros wanted. eexists. split; [reflexivity|].
  set (q := limit_to (default 50 limit)
              (order_by cust_created_at_desc
                 (where_ (cust_eq_is_active true)
                    (where_ (cust_eq_stage stage)
                       (BrandAwareSupabase.customers (Pg.bound ctx)))))).
  assert (∀ c, Pg.satisfies Pg.cust_matches (filters q) c = wanted c)
    as Hsat.
  { intros c. unfold Pg.satisfies, wanted. simpl.
    by rewrite andb_true_r, andb_assoc. }
  split; [|split; [|split]].
  - intros c Hc. apply elem_of_run in Hc as [Hin Hs]. by rewrite Hsat in Hs.
  - by apply (run_limit Pg.cust_matches Pg.cust_order_key q).
  - by apply (run_sorted Pg.cust_matches Pg.cust_order_key q _
                cust_created_at_desc).
  - intros Hlen c Hin Hw.
    apply (run_complete Pg.cust_matches Pg.cust_order_key q); [done|..].
    + by rewrite Hsat.
    + intros n Hn. simpl in Hn. simplify_eq.
      by rewrite (bfilter_ext _ _ _ Hsat).
Qed.

Lemma StronglySorted_weaken {A : Type} (R R' : A → A → Prop) (l : list A) :
  (∀ a b, R a b → R' a b) → StronglySorted R l → StronglySorted R' l.
Proof.
  intros HR. induction 1 as [|x l Hl IH Hx]; constructor; [done|].
  eapply Forall_impl; [exact Hx|]. intros b. apply HR.
Qed.

(** X7. [getActive] always succeeds on the store; every conversation it
    returns belongs to the bound brand and passes [canSendMessage], there
    are at most [limit] of them (50 by default), of two returned
    conversations that both carry a [last_message_at] the one listed first
    has no earlier stamp, and when the brand has no more than the limit of
    active conversations without an opt-out stamp all of them are
    returned. *)
Theorem getActive_sendable
    (ctx : BrandContext.t) (limit : option nat) (db : Pg.Db) :
  let wanted := λ c,
    bool_decide (Conversation.brand_id c = BrandContext.brand_id ctx)
    && bool_decide (Conversation.status c = ConversationStatus.active)
    && bool_decide (Conversation.opted_out_at c = None) in
  ∃ rows,
    ConversationOperations.getActive (Pg.bound ctx) limit db = Ok rows
    ∧ (∀ c, c ∈ rows →
         c ∈ Pg.conversations db
         ∧ Conversation.brand_id c = BrandContext.brand_id ctx
         ∧ canSendMessage c = true)
    ∧ length rows ≤ default 50 limit
    ∧ StronglySorted
        (λ a b, ∀ ta tb,
           Conversation.last_message_at a = Some ta →
           Conversation.last_message_at b = Some tb →
           String.ltb ta tb = false)
        rows
    ∧ (length (List.filter wanted (Pg.conversations db)) ≤ default 50 limit →
       ∀ c, c ∈ Pg.conversations db → wanted c = true → c ∈ rows).
Proof.
  intros wanted. eexists. split; [reflexivity|].
  set (q := limit_to (default 50 limit)
              (order_by conv_last_message_at_desc
                 (where_ conv_is_opted_out_at_null
                    (where_ (conv_eq_status ConversationStatus.active)
                       (BrandAwareSupabase.conversations (Pg.bound ctx)))))).
  assert (∀ c, Pg.satisfies Pg.conv_matches (filters q) c = wanted c)
    as Hsat.
  { intros c. unfold Pg.satisfies, wanted. simpl.
    by rewrite andb_true_r, andb_assoc. }
  split; [|split; [|split]].
  - intros c Hc. apply elem_of_run in Hc as [Hin Hs]. rewrite Hsat in Hs.
    unfold wanted in Hs. rewrite !andb_true_iff, !bool_decide_eq_true in Hs.
    destruct Hs as [[Hb Hst] Ho]. split; [done|]. split; [done|].
    unfold canSendMessage, isOptedOut. rewrite Ho. simpl.
    by rewrite bool_decide_eq_true_2.
  - by apply (run_limit Pg.conv_matches Pg.conv_order_key q).
  - eapply StronglySorted_weaken;
      [|by apply (run_sorted Pg.conv_matches Pg.conv_order_key q _
                    conv_last_message_at_desc)].
    intros a b Hab ta tb Ha Hb. simpl in Hab. by rewrite Ha, Hb in Hab.
  - intros Hlen c Hin Hw.
    apply (run_complete Pg.conv_matches Pg.conv_order_key q); [done|..].
    + by rewrite Hsat.
    + intros n Hn. simpl in Hn. simplify_eq.
      by rewrite (bfilter_ext _ _ _ Hsat).
Qed.

(** X8. [getByCustomer] always succeeds on the store and returns, newest
    [created_at] first and without a limit, exactly the stored
    conversations of the bound brand that reference the customer. *)
Theorem getByCustomer_exact
    (ctx : BrandContext.t) (customerId : Uuid) (db : Pg.Db) :
  ∃ rows,
    ConversationOperations.getByCustomer (Pg.bound ctx) customerId db
    = Ok rows
    ∧ rows ≡ₚ List.filter
                (λ c,
                   bool_decide
                     (Conversation.brand_id c = BrandContext.brand_id ctx)
                   && bool_decide (Conversation.customer_id c = customerId))
                (Pg.conversations db)
    ∧ StronglySorted
        (λ a b,
           String.ltb (Conversation.created_at a) (Conversation.created_at b)
           = false)
        rows.
Proof.
  eexists. split; [reflexivity|].
  set (q := order_by conv_created_at_desc
              (where_ (conv_eq_customer_id customerId)
                 (BrandAwareSupabase.conversations (Pg.bound ctx)))).
  split.
  - unfold Pg.run. simpl. rewrite sort_desc_perm.
    erewrite bfilter_ext; [done|]. intros c. unfold Pg.satisfies. simpl.
    by rewrite andb_true_r.
  - by apply (run_sorted Pg.conv_matches Pg.conv_order_key q _
                conv_created_at_desc).
Qed.

(** ** Creating customers *)

Section CreateCustomer.
Variable ctx : BrandContext.t.
Variable db : Pg.Db.
Hypothesis Hdb : Pg.consistent db.


(** The insert that [create] sends goes through when the brand has neither
    the email nor the phone yet. *)
Lemma create_free (data : CreateCustomer.t) now1 now2 :
  (∀ c, c ∈ Pg.customers db →
        Customer.brand_id c = BrandContext.brand_id ctx →
        Customer.email c ≠ CreateCustomer.email data) →
  (∀ c p, c ∈ Pg.customers db →
          Customer.brand_id c = BrandContext.brand_id ctx →
          CreateCustomer.phone data = Some p → Customer.phone c ≠ Some p) →
  ∃ c,
    CustomerOperations.create (Pg.bound ctx) data now1 now2 db
    = (Ok c, Pg.set_customers (Pg.customers db ++ [c]) db)
    ∧ Customer.id c = fresh (Customer.id <$> Pg.customers db)
    ∧ Customer.brand_id c = BrandContext.brand_id ctx
    ∧ Customer.email c = CreateCustomer.email data
    ∧ Customer.phone c = CreateCustomer.phone data
    ∧ Customer.stage c
      = default CustomerStage.lead (CreateCustomer.stage data)
    ∧ Customer.source c
      = default CustomerSource.website (CreateCustomer.source data)
    ∧ Customer.is_active c = true
    ∧ Customer.tags c = CreateCustomer.tags data
    ∧ Customer.trial_started_at c = None
    ∧ Customer.subscribed_at c = None
    ∧ Customer.created_at c = now1
    ∧ Customer.updated_at c = now2
    ∧ Customer.created_by c = BrandContext.user_id ctx.
Proof.
  intros Hemail Hphone. unfold CustomerOperations.create. simpl.
  unfold Pg.customers_insert_single.
  match goal with
  | |- context [Pg.new_customer ?p db] => set (row := Pg.new_customer p db)
  end.
  assert (Pg.customers_ok (Pg.customers db ++ [row]) = None) as ->.
  { apply customers_ok_None. destruct Hdb. split.
    - rewrite fmap_app. apply NoDup_app. split; [done|].
      split; [|apply NoDup_singleton].
      intros k Hk Hk'. apply list_elem_of_singleton in Hk'. subst k.
      apply list_elem_of_fmap in Hk as (c & Hkey & Hc).
      unfold Pg.cust_email_key in Hkey. simpl in Hkey. simplify_eq.
      by apply (Hemail c).
    - rewrite omap_app. apply NoDup_app. split; [done|]. split.
      + intros k Hk Hk'. apply list_elem_of_omap in Hk as (c & Hc & Hkc).
        apply list_elem_of_omap in Hk' as (r & Hr & Hkr).
        apply list_elem_of_singleton in Hr. subst r.
        unfold Pg.cust_phone_key in Hkc, Hkr. simpl in Hkr.
        destruct (Customer.phone c) as [pc|] eqn:Hpc; [|done].
        destruct (CreateCustomer.phone data) as [pd|] eqn:Hpd; [|done].
        simpl in *. simplify_eq.
        by apply (Hphone c pd).
      + simpl. destruct (Pg.cust_phone_key row); [|constructor].
        apply NoDup_singleton. }
  by exists row.
Qed.

End CreateCustomer.

(** [getById] on the store: null exactly when the brand has no customer
    with the id. *)
Lemma customers_getById_on_store ctx db id :
  Pg.consistent db →
  let result := CustomerOperations.getById (Pg.bound ctx) id db in
  let P := λ c,
    Customer.brand_id c = BrandContext.brand_id ctx ∧ Customer.id c = id in
  (result = Ok None ↔ ∀ c, c ∈ Pg.customers db → ¬ P c)
  ∧ (∀ c, c ∈ Pg.customers db → P c → result = Ok (Some c)).
Proof.
  intros Hdb result P. subst result P.
  apply (lookup_reading _ _ _ _ _ _
           (cust_satisfies_brand_id (BrandContext.brand_id ctx) id)).
  apply lookup_on_store.
  apply (bfilter_at_most_one Customer.id id); [by destruct Hdb|].
  intros y _ Hy. by apply cust_satisfies_brand_id in Hy as [_ ?].
Qed.

Lemma customers_getByEmail_on_store ctx db email :
  Pg.consistent db →
  let result := CustomerOperations.getByEmail (Pg.bound ctx) email db in
  let P := λ c,
    Customer.brand_id c = BrandContext.brand_id ctx
    ∧ Customer.email c = email in
  (result = Ok None ↔ ∀ c, c ∈ Pg.customers db → ¬ P c)
  ∧ (∀ c, c ∈ Pg.customers db → P c → result = Ok (Some c)).
Proof.
  intros Hdb result P. subst result P.
  apply (lookup_reading _ _ _ _ _ _
           (cust_satisfies_brand_email (BrandContext.brand_id ctx) email)).
  apply lookup_on_store.
  apply (bfilter_at_most_one Pg.cust_email_key
           (BrandContext.brand_id ctx, email)); [by destruct Hdb|].
  intros y _ Hy. apply cust_satisfies_brand_email in Hy as [Hyb Hye].
  unfold Pg.cust_email_key. by rewrite Hyb, Hye.
Qed.



(** An email the bound brand already holds is refused. *)
Lemma create_email_taken
    (ctx : BrandContext.t) (db : Pg.Db) (data : CreateCustomer.t)
    (now1 now2 : Timestamp) (c0 : Customer.t) :
  c0 ∈ Pg.customers db →
  Customer.brand_id c0 = BrandContext.brand_id ctx →
  Customer.email c0 = CreateCustomer.email data →
  CustomerOperations.create (Pg.bound ctx) data now1 now2 db
  = (Throw ("Failed to create customer: "
            ++ message (Pg.unique_violation "customers_brand_email_unique")),
     db).
Proof.
  intros Hin Hb He. unfold CustomerOperations.create. simpl.
  unfold Pg.customers_insert_single, Pg.customers_ok.
  rewrite bool_decide_eq_false_2; [done|].
  rewrite fmap_app. intros Hnd. apply NoDup_app in Hnd as (_ & Hdisj & _).
  apply (Hdisj (Pg.cust_email_key c0)).
  - by apply list_elem_of_fmap_2.
  - simpl. apply list_elem_of_singleton.
    unfold Pg.cust_email_key. simpl. by rewrite Hb, He.
Qed.

(** X10. Identity is unique per brand: [create] with an email the bound
    brand already holds throws the wrapped [customers_brand_email_unique]
    violation, and with a free email but a phone the brand already holds it
    throws the wrapped [customers_brand_phone_unique] violation; either way
    the store is left as it was. *)
Theorem create_duplicate_identity_throws
    (ctx : BrandContext.t) (db : Pg.Db) (data : CreateCustomer.t)
    (now1 now2 : Timestamp) (c0 : Customer.t) :
  Pg.consistent db →
  c0 ∈ Pg.customers db →
  Customer.brand_id c0 = BrandContext.brand_id ctx →
  (Customer.email c0 = CreateCustomer.email data →
   CustomerOperations.create (Pg.bound ctx) data now1 now2 db
   = (Throw ("Failed to create customer: "
             ++ message (Pg.unique_violation "customers_brand_email_unique")),
      db))
  ∧ (∀ p,
       Customer.phone c0 = Some p → CreateCustomer.phone data = Some p →
       (∀ c, c ∈ Pg.customers db →
             Customer.brand_id c = BrandContext.brand_id ctx →
             Customer.email c ≠ CreateCustomer.email data) →
       CustomerOperations.create (Pg.bound ctx) data now1 now2 db
       = (Throw ("Failed to create customer: "
                 ++ message (Pg.unique_violation
                               "customers_brand_phone_unique")), db)).
Proof.
  intros Hdb Hin Hb. split; [by apply create_email_taken|].
  intros p Hp0 Hpd Hfree. unfold CustomerOperations.create. simpl.
  unfold Pg.customers_insert_single, Pg.customers_ok.
  rewrite bool_decide_eq_true_2.
  - simpl. rewrite bool_decide_eq_false_2; [done|].
    rewrite omap_app. intros Hnd.
    apply NoDup_app in Hnd as (_ & Hdisj & _).
    apply (Hdisj (BrandContext.brand_id ctx, p)).
    + apply list_elem_of_omap. exists c0. split; [done|].
      unfold Pg.cust_phone_key. by rewrite Hp0, Hb.
    + simpl. unfold Pg.cust_phone_key. simpl. rewrite Hpd. simpl. here.
  - destruct Hdb. rewrite fmap_app. apply NoDup_app. split; [done|].
    split; [|apply NoDup_singleton].
    intros k Hk Hk'. apply list_elem_of_singleton in Hk'. subst k.
    apply list_elem_of_fmap in Hk as (c & Hkey & Hc).
    unfold Pg.cust_email_key in Hkey. simpl in Hkey. simplify_eq.
    by apply (Hfree c).
Qed.

Lemma create_duplicate_identity_throws_witness :
  CustomerOperations.create (Pg.bound (Scenario.ctx gnymble))
    (CreateCustomer.mk "a@b.com" None None None None None None None)
    Scenario.t4 Scenario.t4 Scenario.s3
  = (Throw ("Failed to create customer: "
            ++ message (Pg.unique_violation "customers_brand_email_unique")),
     Scenario.s3).
Proof.
  destruct (create_duplicate_identity_throws (Scenario.ctx gnymble)
              Scenario.s3
              (CreateCustomer.mk "a@b.com" None None None None None None
                 None)
              Scenario.t4 Scenario.t4 Scenario.customer) as [Hemail _].
  - apply consistentb_spec. vm_compute. reflexivity.
  - vm_compute. apply list_elem_of_here.
  - reflexivity.
  - apply Hemail. reflexivity.
Defined.



(** ** Customer writes outside the brand *)

(** An [update] that reaches no row of the brand changes nothing and comes
    back as the not-found failure. *)
Lemma update_unreachable ctx db id data now :
  Pg.consistent db →
  (∀ c, c ∈ Pg.customers db →
        ¬ (Customer.id c = id
           ∧ Customer.brand_id c = BrandContext.brand_id ctx)) →
  CustomerOperations.update (Pg.bound ctx) id data now db
  = (Throw ("Failed to update customer: " ++ message Pg.no_single_row), db).
Proof.
  intros Hdb Hnone. unfold CustomerOperations.update.
  cbn [BrandAwareSupabase.raw BrandAwareSupabase.client
       BrandAwareSupabase.context BrandAwareSupabase.brandContext Pg.bound
       SupabaseClient.customers_update_single Pg.client].
  unfold Pg.customers_update_single.
  set (fs := [cust_eq_id id; cust_eq_brand_id (BrandContext.brand_id ctx)]).
  assert (∀ c, c ∈ Pg.customers db → Pg.satisfies Pg.cust_matches fs c = false)
    as Hmiss.
  { intros c Hc. apply not_true_is_false. intros Hs.
    apply cust_satisfies_id_brand in Hs. by apply (Hnone c). }
  assert ((λ c, if Pg.satisfies Pg.cust_matches fs c
                then Pg.patch_customer
                       (CustomerOperations.update_payload data now) db c
                else c) <$> Pg.customers db = Pg.customers db) as ->.
  { rewrite <- (list_fmap_id (Pg.customers db)) at 2.
    apply list_fmap_ext. intros i c Hc. cbv beta.
    rewrite Hmiss; [done|]. by eapply list_elem_of_lookup_2. }
  assert (Pg.customers_ok (Pg.customers db) = None) as ->.
  { apply customers_ok_None. by destruct Hdb. }
  by rewrite (bfilter_nil _ _ Hmiss).
Qed.

(** X12. A customer id that the bound brand does not hold, be it unknown
    or another brand's, cannot be written through the handle: [update] and
    [progressStage] throw the wrapped not-found failure, [addTags] and
    [removeTags] throw [Customer not found], and the store is left as it
    was. *)
Theorem customer_writes_need_own_brand
    (ctx : BrandContext.t) (db : Pg.Db) (id : Uuid) :
  Pg.consistent db →
  (∀ c, c ∈ Pg.customers db →
        ¬ (Customer.id c = id
           ∧ Customer.brand_id c = BrandContext.brand_id ctx)) →
  (∀ data now,
     CustomerOperations.update (Pg.bound ctx) id data now db
     = (Throw ("Failed to update customer: " ++ message Pg.no_single_row),
        db))
  ∧ (∀ newStage now now_update,
       CustomerOperations.progressStage (Pg.bound ctx) id newStage now
         now_update db
       = (Throw ("Failed to update customer: " ++ message Pg.no_single_row),
          db))
  ∧ (∀ tags now,
       CustomerOperations.addTags (Pg.bound ctx) id tags now db
       = (Throw "Customer not found", db))
  ∧ (∀ tags now,
       CustomerOperations.removeTags (Pg.bound ctx) id tags now db
       = (Throw "Customer not found", db)).
Proof.
  intros Hdb Hnone.
  assert (CustomerOperations.getById (Pg.bound ctx) id db = Ok None) as Hget.
  { apply (customers_getById_on_store ctx db id Hdb).
    intros c Hc [Hb Hid]. by apply (Hnone c). }
  split; [|split; [|split]].
  - intros data now. by apply update_unreachable.
  - intros newStage now now_update. unfold CustomerOperations.progressStage.
    by apply update_unreachable.
  - intros tags now. unfold CustomerOperations.addTags. by rewrite Hget.
  - intros tags now. unfold CustomerOperations.removeTags. by rewrite Hget.
Qed.

Lemma customer_writes_need_own_brand_witness :
  CustomerOperations.progressStage (Pg.bound (Scenario.ctx percymd))
    Scenario.customer_id CustomerStage.churned Scenario.t4 Scenario.t4
    Scenario.s3
  = (Throw ("Failed to update customer: " ++ message Pg.no_single_row),
     Scenario.s3).
Proof.
  destruct (customer_writes_need_own_brand (Scenario.ctx percymd)
              Scenario.s3 Scenario.customer_id) as (_ & Hprogress & _).
  - apply consistentb_spec. vm_compute. reflexivity.
  - intros c Hc [_ Hb]. vm_compute in Hc.
    apply list_elem_of_singleton in Hc. subst c. discriminate.
  - apply Hprogress.
Defined.

(** X13. In [findOrCreate] an email inside [data] overrides the email
    looked up: when the brand holds neither, the call creates the customer
    under the email of [data], so the lookup of the next identical call
    still finds nothing and that call throws the wrapped
    [customers_brand_email_unique] violation. *)
Theorem customer_findOrCreate_data_email_overrides
    (ctx : BrandContext.t) (db : Pg.Db) (email other : string)
    (data : PartialCreateCustomer.t) (now1 now2 now3 now4 : Timestamp) :
  Pg.consistent db →
  PartialCreateCustomer.email data = Some other →
  other ≠ email →
  PartialCreateCustomer.phone data = None →
  (∀ c, c ∈ Pg.customers db →
        Customer.brand_id c = BrandContext.brand_id ctx →
        Customer.email c ≠ email ∧ Customer.email c ≠ other) →
  ∃ c db1,
    CustomerOperations.findOrCreate (Pg.bound ctx) email (Some data) now1
      now2 db = (Ok c, db1)
    ∧ Customer.email c = other
    ∧ CustomerOperations.findOrCreate (Pg.bound ctx) email (Some data) now3
        now4 db1
      = (Throw ("Failed to create customer: "
                ++ message (Pg.unique_violation
                              "customers_brand_email_unique")), db1).
Proof.
  intros Hdb Hde Hne Hdp Hfree. unfold CustomerOperations.findOrCreate.
  simpl.
  assert (CustomerOperations.getByEmail (Pg.bound ctx) email db = Ok None)
    as ->.
  { apply (customers_getByEmail_on_store ctx db email Hdb).
    intros c Hc [Hb He]. by destruct (Hfree c Hc Hb). }
  rewrite Hde, Hdp. simpl.
  set (cd := CreateCustomer.mk other None
               (PartialCreateCustomer.first_name data)
               (PartialCreateCustomer.last_name data)
               (PartialCreateCustomer.stage data)
               (PartialCreateCustomer.source data)
               (PartialCreateCustomer.metadata data)
               (PartialCreateCustomer.tags data)).
  destruct (create_free ctx db Hdb cd now1 now2)
    as (c & Hr & _ & Hb & He & _).
  { intros c Hc Hb. by destruct (Hfree c Hc Hb). }
  { intros c p _ _ Hp. done. }
  assert (Pg.consistent (Pg.set_customers (Pg.customers db ++ [c]) db))
    as Hdb1.
  { unfold CustomerOperations.create in Hr. simpl in Hr.
    destruct (Pg.customers_insert_single _ db) as [[row|e] db'] eqn:Hins;
      [|done].
    simplify_eq. by eapply customers_insert_single_consistent. }
  exists c, (Pg.set_customers (Pg.customers db ++ [c]) db).
  split; [exact Hr|]. split; [exact He|].
  assert (CustomerOperations.getByEmail (Pg.bound ctx) email
            (Pg.set_customers (Pg.customers db ++ [c]) db) = Ok None) as ->.
  { apply (customers_getByEmail_on_store ctx _ email Hdb1).
    intros y Hy [Hyb Hye]. simpl in Hy.
    apply elem_of_app in Hy as [Hy|Hy].
    - by destruct (Hfree y Hy Hyb).
    - apply list_elem_of_singleton in Hy. subst y. simpl in He. congruence. }
  apply (create_email_taken ctx _ cd now3 now4 c); [|done..].
  simpl. apply elem_of_app. right. here.
Qed.

Lemma customer_findOrCreate_data_email_overrides_witness :
  ∃ c db1,
    CustomerOperations.findOrCreate (Pg.bound (Scenario.ctx percymd))
      "x@y.com"
      (Some (PartialCreateCustomer.mk (Some "z@w.com") None None None None
               None None None))
      Scenario.t1 Scenario.t1 Scenario.s0 = (Ok c, db1)
    ∧ Customer.email c = "z@w.com"
    ∧ CustomerOperations.findOrCreate (Pg.bound (Scenario.ctx percymd))
        "x@y.com"
        (Some (PartialCreateCustomer.mk (Some "z@w.com") None None None None
                 None None None))
        Scenario.t2 Scenario.t2 db1
      = (Throw ("Failed to create customer: "
                ++ message (Pg.unique_violation
                              "customers_brand_email_unique")), db1).
Proof.
  apply (customer_findOrCreate_data_email_overrides (Scenario.ctx percymd)
           Scenario.s0 "x@y.com" "z@w.com").
  - apply consistentb_spec. vm_compute. reflexivity.
  - reflexivity.
  - discriminate.
  - reflexivity.
  - intros c Hc. vm_compute in Hc. by apply not_elem_of_nil in Hc.
Defined.

(** ** Journey stages *)

(** X14. For a customer stored under the bound brand, [progressStage]
    succeeds for every target stage, sets [stage], and stamps the call time
    on the one journey timestamp of that stage ([marketing], [trial],
    [active], [churned]), overwriting an earlier stamp; the other journey
    timestamps, the identity and the tags stay as they were, and
    [is_active] changes, to false, only for [churned].  No stage is refused,
    whatever the current one. *)
Theorem progressStage_stamps_its_stage
    (ctx : BrandContext.t) (db : Pg.Db) (c : Customer.t)
    (newStage : CustomerStage.t) (now now_update : Timestamp) :
  Pg.consistent db →
  c ∈ Pg.customers db →
  Customer.brand_id c = BrandContext.brand_id ctx →
  ∃ c' db',
    CustomerOperations.progressStage (Pg.bound ctx) (Customer.id c) newStage
      now now_update db = (Ok c', db')
    ∧ c' ∈ Pg.customers db'
    ∧ Customer.id c' = Customer.id c
    ∧ Customer.brand_id c' = Customer.brand_id c
    ∧ Customer.email c' = Customer.email c
    ∧ Customer.tags c' = Customer.tags c
    ∧ Customer.stage c' = newStage
    ∧ Customer.marketing_qualified_at c'
      = (if bool_decide (newStage = CustomerStage.marketing) then Some now
         else Customer.marketing_qualified_at c)
    ∧ Customer.trial_started_at c'
      = (if bool_decide (newStage = CustomerStage.trial) then Some now
         else Customer.trial_started_at c)
    ∧ Customer.subscribed_at c'
      = (if bool_decide (newStage = CustomerStage.active) then Some now
         else Customer.subscribed_at c)
    ∧ Customer.churned_at c'
      = (if bool_decide (newStage = CustomerStage.churned) then Some now
         else Customer.churned_at c)
    ∧ Customer.is_active c'
      = (if bool_decide (newStage = CustomerStage.churned) then false
         else Customer.is_active c)
    ∧ Customer.phone c' = Customer.phone c
    ∧ Customer.first_name c' = Customer.first_name c
    ∧ Customer.last_name c' = Customer.last_name c
    ∧ Customer.source c' = Customer.source c
    ∧ Customer.metadata c' = Customer.metadata c
    ∧ Customer.created_at c' = Customer.created_at c
    ∧ Customer.created_by c' = Customer.created_by c.
Proof.
  intros Hdb Hin Hb. unfold CustomerOperations.progressStage.
  match goal with
  | |- context [CustomerOperations.update _ _ ?d _ _] => set (data := d)
  end.
  destruct (update_stored ctx db Hdb c data now_update Hin Hb)
    as (db' & Hup & _ & Hin' & _).
  { subst data. by destruct newStage. }
  { subst data. by destruct newStage. }
  eexists _, db'. split; [exact Hup|]. split; [exact Hin'|].
  subst data. destruct newStage; simpl; done.
Qed.

Lemma progressStage_stamps_its_stage_witness :
  ∃ c' db',
    CustomerOperations.progressStage (Pg.bound (Scenario.ctx gnymble))
      (Customer.id Scenario.customer) CustomerStage.trial Scenario.t4
      Scenario.t4 Scenario.s3 = (Ok c', db')
    ∧ Customer.stage c' = CustomerStage.trial
    ∧ Customer.trial_started_at c' = Some Scenario.t4
    ∧ Customer.subscribed_at c' = None
    ∧ Customer.is_active c' = true.
Proof.
  destruct (progressStage_stamps_its_stage (Scenario.ctx gnymble)
              Scenario.s3 Scenario.customer CustomerStage.trial Scenario.t4
              Scenario.t4)
    as (c' & db' & Hr & _ & _ & _ & _ & _ & Hst & _ & Ht & Hs & _ & Ha & _).
  - apply consistentb_spec. vm_compute. reflexivity.
  - vm_compute. apply list_elem_of_here.
  - reflexivity.
  - exists c', db'. split; [exact Hr|]. split; [exact Hst|].
    split; [exact Ht|]. split; [exact Hs|]. exact Ha.
Defined.

(** X15. The journey helpers follow [progressStage] but not [create]: at
    a non-empty call time the customer returned by [progressStage] to
    [trial] passes [isTrialCustomer] and the one returned for [active]
    passes [isPaidCustomer], whereas a customer that [create] puts
    directly into stage [trial] or [active] passes neither, its journey
    timestamps being null. *)
Theorem journey_helpers_follow_progressStage
    (ctx : BrandContext.t) (db : Pg.Db) (c : Customer.t)
    (now now_update : Timestamp) :
  Pg.consistent db →
  c ∈ Pg.customers db →
  Customer.brand_id c = BrandContext.brand_id ctx →
  now ≠ "" →
  (∃ c' db',
     CustomerOperations.progressStage (Pg.bound ctx) (Customer.id c)
       CustomerStage.trial now now_update db = (Ok c', db')
     ∧ isTrialCustomer c' = true ∧ isPaidCustomer c' = false)
  ∧ (∃ c' db',
       CustomerOperations.progressStage (Pg.bound ctx) (Customer.id c)
         CustomerStage.active now now_update db = (Ok c', db')
       ∧ isPaidCustomer c' = true ∧ isTrialCustomer c' = false)
  ∧ (∀ data now1 now2 c' db',
       CustomerOperations.create (Pg.bound ctx) data now1 now2 db
       = (Ok c', db') →
       isTrialCustomer c' = false ∧ isPaidCustomer c' = false).
Proof.
  intros Hdb Hin Hb Hnow.
  assert (negb (String.eqb now "") = true) as Htruthy.
  { apply negb_true_iff. by apply String.eqb_neq. }
  split; [|split].
  - destruct (update_stored ctx db Hdb c
                (UpdateCustomer.set_trial_started_at now
                   (UpdateCustomer.set_stage CustomerStage.trial
                      UpdateCustomer.empty)) now_update Hin Hb eq_refl
                eq_refl) as (db' & Hup & _).
    eexists _, db'. split; [exact Hup|].
    unfold isTrialCustomer, isPaidCustomer. simpl.
    by rewrite Htruthy.
  - destruct (update_stored ctx db Hdb c
                (UpdateCustomer.set_subscribed_at now
                   (UpdateCustomer.set_stage CustomerStage.active
                      UpdateCustomer.empty)) now_update Hin Hb eq_refl
                eq_refl) as (db' & Hup & _).
    eexists _, db'. split; [exact Hup|].
    unfold isTrialCustomer, isPaidCustomer. simpl.
    by rewrite Htruthy.
  - intros data now1 now2 c' db'. unfold CustomerOperations.create. simpl.
    unfold Pg.customers_insert_single.
    destruct (Pg.customers_ok _); intros ?; simplify_eq.
    unfold isTrialCustomer, isPaidCustomer. simpl.
    by rewrite !andb_false_r.
Qed.

Lemma journey_helpers_follow_progressStage_witness :
  ∃ c' db',
    CustomerOperations.progressStage (Pg.bound (Scenario.ctx gnymble))
      (Customer.id Scenario.customer) CustomerStage.trial Scenario.t4
      Scenario.t4 Scenario.s3 = (Ok c', db')
    ∧ isTrialCustomer c' = true ∧ isPaidCustomer c' = false.
Proof.
  destruct (journey_helpers_follow_progressStage (Scenario.ctx gnymble)
              Scenario.s3 Scenario.customer Scenario.t4 Scenario.t4)
    as [Htrial _].
  - apply consistentb_spec. vm_compute. reflexivity.
  - vm_compute. apply list_elem_of_here.
  - reflexivity.
  - discriminate.
  - exact Htrial.
Defined.

(** ** Removing tags *)

(** Only membership in [seen] matters. *)
Lemma set_spread_from_ext seen seen' l :
  (∀ x, x ∈ seen ↔ x ∈ seen') →
  set_spread_from seen l = set_spread_from seen' l.
Proof.
  revert seen seen'. induction l as [|y l IH]; intros seen seen' Hs; [done|].
  simpl. rewrite (bool_decide_ext (y ∈ seen) (y ∈ seen')) by apply Hs.
  destruct (bool_decide (y ∈ seen')); [by apply IH|].
  f_equal. apply IH. intros x. rewrite !elem_of_cons, Hs. done.
Qed.

Lemma set_spread_from_app seen l1 l2 :
  set_spread_from seen (l1 ++ l2)
  = set_spread_from seen l1 ++ set_spread_from (l1 ++ seen) l2.
Proof.
  revert seen. induction l1 as [|y l1 IH]; intros seen; [done|].
  simpl. destruct (bool_decide (y ∈ seen)) eqn:Hy.
  - rewrite IH. f_equal. apply set_spread_from_ext. intros x.
    apply bool_decide_eq_true in Hy.
    repeat (rewrite elem_of_cons || rewrite elem_of_app).
    split; [tauto|]. intros [->|[?|?]]; tauto.
  - simpl. rewrite IH. f_equal. f_equal. apply set_spread_from_ext.
    intros x. repeat (rewrite elem_of_cons || rewrite elem_of_app). tauto.
Qed.

(** A list without duplicates that avoids [seen] is kept as it is. *)
Lemma set_spread_from_NoDup seen l :
  NoDup l → (∀ x, x ∈ l → x ∉ seen) → set_spread_from seen l = l.
Proof.
  revert seen. induction l as [|y l IH]; intros seen Hnd Hdisj; [done|].
  apply NoDup_cons in Hnd as [Hy Hnd]. simpl.
  rewrite bool_decide_eq_false_2 by (apply Hdisj; here).
  f_equal. apply IH; [done|]. intros x Hx.
  rewrite elem_of_cons. intros [->|Hs]; [done|].
  apply (Hdisj x); [further|done].
Qed.

Lemma bfilter_app {A : Type} (f : A → bool) (l1 l2 : list A) :
  List.filter f (l1 ++ l2) = List.filter f l1 ++ List.filter f l2.
Proof. apply List.filter_app. Qed.

Lemma bfilter_all {A : Type} (f : A → bool) (l : list A) :
  (∀ x, x ∈ l → f x = true) → List.filter f l = l.
Proof.
  induction l as [|y l IH]; intros Hall; [done|]. simpl.
  rewrite (Hall y) by here. f_equal. apply IH. intros x Hx. apply Hall.
  further.
Qed.

Lemma bfilter_sublist {A : Type} (f : A → bool) (l : list A) :
  List.filter f l `sublist_of` l.
Proof.
  induction l as [|y l IH]; simpl; [constructor|].
  destruct (f y); by constructor.
Qed.

(** The tags [removeTags] keeps. *)
Lemma kept_tags_spec (tags existing : list string) t :
  t ∈ List.filter (λ tag, negb (bool_decide (tag ∈ tags))) existing
  ↔ t ∈ existing ∧ t ∉ tags.
Proof.
  rewrite elem_of_bfilter, negb_true_iff, bool_decide_eq_false. done.
Qed.

(** Adding tags the customer did not have and removing them again gives
    back the array there was. *)
Lemma remove_added_tags (existing tags : list string) :
  NoDup existing → (∀ t, t ∈ tags → t ∉ existing) →
  List.filter (λ tag, negb (bool_decide (tag ∈ tags)))
    (set_spread (existing ++ tags)) = existing.
Proof.
  intros Hnd Hdisj. unfold set_spread.
  rewrite set_spread_from_app, bfilter_app.
  rewrite (set_spread_from_NoDup [] existing Hnd)
    by (intros x _; apply not_elem_of_nil).
  rewrite bfilter_all, bfilter_nil.
  - by rewrite app_nil_r.
  - intros x Hx. apply elem_of_set_spread_from in Hx as [Hx _].
    apply negb_false_iff. by apply bool_decide_eq_true.
  - intros x Hx. apply negb_true_iff, bool_decide_eq_false.
    intros Hxt. by apply (Hdisj x).
Qed.

Section RemoveTags.
Variable ctx : BrandContext.t.
Variable db : Pg.Db.
Hypothesis Hdb : Pg.consistent db.

Lemma removeTags_stored c tags now :
  c ∈ Pg.customers db →
  Customer.brand_id c = BrandContext.brand_id ctx →
  ∃ c' db',
    CustomerOperations.removeTags (Pg.bound ctx) (Customer.id c) tags now db
    = (Ok c', db')
    ∧ Pg.consistent db'
    ∧ c' ∈ Pg.customers db'
    ∧ (∀ x, x ∈ Pg.customers db' → Customer.id x = Customer.id c → x = c')
    ∧ Customer.id c' = Customer.id c
    ∧ Customer.brand_id c' = Customer.brand_id c
    ∧ Customer.tags c'
      = Some (List.filter (λ tag, negb (bool_decide (tag ∈ tags)))
                (default [] (Customer.tags c))).
Proof.
  intros Hin Hb. unfold CustomerOperations.removeTags.
  rewrite getById_stored by done.
  destruct (update_stored ctx db Hdb c
              (UpdateCustomer.set_tags
                 (List.filter (λ tag, negb (bool_decide (tag ∈ tags)))
                    (default [] (Customer.tags c)))
                 UpdateCustomer.empty) now Hin Hb eq_refl eq_refl)
    as (db' & Hup & Hc' & Hin' & Huniq).
  eexists _, db'. split; [exact Hup|].
  split; [done|]. split; [done|]. split; [done|]. by split.
Qed.

End RemoveTags.

(** X16. For a customer stored under the bound brand, [removeTags]
    succeeds and leaves the stored tags that are not among the given ones,
    in their order; on a customer without a tag array it writes the empty
    array.  After [addTags] of tags the customer did not carry, [removeTags]
    of the same tags restores the tag array exactly, provided that array had
    no duplicates. *)
Theorem removeTags_keeps_the_rest
    (ctx : BrandContext.t) (db : Pg.Db) (c : Customer.t)
    (tags : list string) (now1 now2 : Timestamp) :
  Pg.consistent db →
  c ∈ Pg.customers db →
  Customer.brand_id c = BrandContext.brand_id ctx →
  (∃ c' db' final,
     CustomerOperations.removeTags (Pg.bound ctx) (Customer.id c) tags now1 db
     = (Ok c', db')
     ∧ c' ∈ Pg.customers db'
     ∧ Customer.tags c' = Some final
     ∧ final `sublist_of` default [] (Customer.tags c)
     ∧ (∀ t, t ∈ final ↔ t ∈ default [] (Customer.tags c) ∧ t ∉ tags))
  ∧ (NoDup (default [] (Customer.tags c)) →
     (∀ t, t ∈ tags → t ∉ default [] (Customer.tags c)) →
     ∃ c1 db1 c2 db2,
       CustomerOperations.addTags (Pg.bound ctx) (Customer.id c) tags now1 db
       = (Ok c1, db1)
       ∧ CustomerOperations.removeTags (Pg.bound ctx) (Customer.id c) tags
           now2 db1 = (Ok c2, db2)
       ∧ c2 ∈ Pg.customers db2
       ∧ Customer.tags c2 = Some (default [] (Customer.tags c))).
Proof.
  intros Hdb Hin Hb. split.
  - destruct (removeTags_stored ctx db Hdb c tags now1 Hin Hb)
      as (c' & db' & Hr & _ & Hin' & _ & _ & _ & Ht).
    eexists c', db', _. split; [exact Hr|]. split; [done|].
    split; [exact Ht|]. split.
    + apply bfilter_sublist.
    + apply kept_tags_spec.
  - intros Hnd Hdisj.
    destruct (addTags_stored ctx db Hdb c tags now1 Hin Hb)
      as (c1 & db1 & Hr1 & Hdb1 & Hin1 & _ & Hid1 & Hb1 & Ht1).
    destruct (removeTags_stored ctx db1 Hdb1 c1 tags now2 Hin1)
      as (c2 & db2 & Hr2 & _ & Hin2 & _ & _ & _ & Ht2); [congruence|].
    rewrite Hid1 in Hr2.
    exists c1, db1, c2, db2. split; [exact Hr1|]. split; [exact Hr2|].
    split; [done|]. rewrite Ht2, Ht1. simpl. f_equal.
    by apply remove_added_tags.
Qed.

Lemma removeTags_keeps_the_rest_witness :
  ∃ c1 db1 c2 db2,
    CustomerOperations.addTags (Pg.bound (Scenario.ctx gnymble))
      (Customer.id Scenario.vip_customer) ["a"; "b"] Scenario.t2 Scenario.vip
    = (Ok c1, db1)
    ∧ CustomerOperations.removeTags (Pg.bound (Scenario.ctx gnymble))
        (Customer.id Scenario.vip_customer) ["a"; "b"] Scenario.t3 db1
      = (Ok c2, db2)
    ∧ c2 ∈ Pg.customers db2
    ∧ Customer.tags c2 = Some ["vip"].
Proof.
  destruct (removeTags_keeps_the_rest (Scenario.ctx gnymble) Scenario.vip
              Scenario.vip_customer ["a"; "b"] Scenario.t2 Scenario.t3)
    as [_ Hround].
  - apply consistentb_spec. vm_compute. reflexivity.
  - vm_compute. apply list_elem_of_here.
  - reflexivity.
  - apply Hround.
    + vm_compute. apply NoDup_singleton.
    + intros t Ht Hin. vm_compute in Hin.
      apply list_elem_of_singleton in Hin. subst t.
      apply (bool_decide_pack _) in Ht. vm_compute in Ht. done.
Defined.

(** ** Conversation operations on the store *)

Section ConversationsOnStore.
Variable ctx : BrandContext.t.
Variable db : Pg.Db.
Hypothesis Hdb : Pg.consistent db.

Lemma conversations_getById_on_store id :
  let result := ConversationOperations.getById (Pg.bound ctx) id db in
  let P := λ c,
    Conversation.brand_id c = BrandContext.brand_id ctx
    ∧ Conversation.id c = id in
  (result = Ok None ↔ ∀ c, c ∈ Pg.conversations db → ¬ P c)
  ∧ (∀ c, c ∈ Pg.conversations db → P c → result = Ok (Some c)).
Proof.
  intros result P. subst result P.
  apply (lookup_reading _ _ _ _ _ _
           (conv_satisfies_brand_id (BrandContext.brand_id ctx) id)).
  apply lookup_on_store.
  apply (bfilter_at_most_one Conversation.id id); [by destruct Hdb|].
  intros y _ Hy. by apply conv_satisfies_brand_id in Hy as [_ ?].
Qed.

(** The insert that [create] sends goes through when the customer is
    stored, under whatever brand, and the bound brand has no conversation
    on the phone pair. *)
Lemma conversation_create_free (data : CreateConversation.t) now1 now2 :
  CreateConversation.customer_id data ∈ Customer.id <$> Pg.customers db →
  (∀ c, c ∈ Pg.conversations db →
        Conversation.brand_id c = BrandContext.brand_id ctx →
        ¬ (Conversation.customer_phone c
           = CreateConversation.customer_phone data
           ∧ Conversation.brand_phone c
             = CreateConversation.brand_phone data)) →
  ∃ c,
    ConversationOperations.create (Pg.bound ctx) data now1 now2 db
    = (Ok c, Pg.set_conversations (Pg.conversations db ++ [c]) db)
    ∧ Pg.consistent (Pg.set_conversations (Pg.conversations db ++ [c]) db)
    ∧ Conversation.id c = fresh (Conversation.id <$> Pg.conversations db)
    ∧ Conversation.brand_id c = BrandContext.brand_id ctx
    ∧ Conversation.customer_id c = CreateConversation.customer_id data
    ∧ Conversation.customer_phone c = CreateConversation.customer_phone data
    ∧ Conversation.brand_phone c = CreateConversation.brand_phone data
    ∧ Conversation.status c = ConversationStatus.active
    ∧ Conversation.message_count c = 0%Z
    ∧ Conversation.last_message_at c = None
    ∧ Conversation.last_inbound_at c = None
    ∧ Conversation.last_outbound_at c = None
    ∧ Conversation.opted_out_at c = None
    ∧ Conversation.campaign_name c = CreateConversation.campaign_name data
    ∧ Conversation.created_at c = now1.
Proof.
  intros Hfk Hfree. unfold ConversationOperations.create.
  cbn [BrandAwareSupabase.raw BrandAwareSupabase.client
       BrandAwareSupabase.context BrandAwareSupabase.brandContext Pg.bound
       SupabaseClient.conversations_insert_single Pg.client].
  destruct (Pg.conversations_insert_single _ db) as [r db'] eqn:Hins.
  pose proof (conversations_insert_single_consistent _ _ _ _ Hdb Hins)
    as Hdb'.
  unfold Pg.conversations_insert_single in Hins.
  match type of Hins with
  | context [Pg.new_conversation ?p db] =>
      set (row := Pg.new_conversation p db) in *
  end.
  assert (Pg.conversations_ok db (Pg.conversations db ++ [row]) = None)
    as Hok.
  { apply conversations_ok_None. destruct Hdb. split.
    - rewrite fmap_app. apply NoDup_app. split; [done|].
      split; [|apply NoDup_singleton].
      intros k Hk Hk'. apply list_elem_of_singleton in Hk'. subst k.
      apply list_elem_of_fmap in Hk as (c & Hkey & Hc).
      unfold Pg.conv_phones_key in Hkey. simpl in Hkey. simplify_eq.
      apply (Hfree c); done.
    - apply Forall_app. split; [done|]. by apply Forall_singleton. }
  rewrite Hok in Hins. simplify_eq. by exists row.
Qed.

(** An update that leaves the key columns alone reaches the stored
    conversation of the bound brand and nothing else. *)
Lemma conversation_update_stored c p :
  c ∈ Pg.conversations db →
  Conversation.brand_id c = BrandContext.brand_id ctx →
  ConversationUpdate.brand_id p = None →
  ConversationUpdate.customer_id p = None →
  ConversationUpdate.customer_phone p = None →
  ConversationUpdate.brand_phone p = None →
  let c' := Pg.patch_conversation p db c in
  ∃ db',
    Pg.conversations_update_single p
      [conv_eq_id (Conversation.id c);
       conv_eq_brand_id (BrandContext.brand_id ctx)] db = (Data c', db')
    ∧ Pg.consistent db'
    ∧ c' ∈ Pg.conversations db'
    ∧ (∀ x, x ∈ Pg.conversations db' →
         Conversation.id x = Conversation.id c → x = c')
    ∧ Pg.customers db' = Pg.customers db
    ∧ Pg.messages db' = Pg.messages db.
Proof.
  intros Hin Hb Hp1 Hp2 Hp3 Hp4 c'.
  set (fs := [conv_eq_id (Conversation.id c);
              conv_eq_brand_id (BrandContext.brand_id ctx)]).
  assert (Pg.satisfies Pg.conv_matches fs c = true) as Hsat.
  { by apply conv_satisfies_id_brand. }
  assert (Pg.conversations_update_single p fs db
          = (Data c',
             Pg.set_conversations (Pg.patched_conversations p fs db) db))
    as Hup.
  { unfold Pg.conversations_update_single.
    rewrite conversations_ok_patched by done.
    rewrite (bfilter_unique Conversation.id _ _ c);
      [done|by destruct Hdb|done..|].
    intros y _ Hy. by apply conv_satisfies_id_brand in Hy as [? _]. }
  eexists. split; [exact Hup|].
  split; [by eapply conversations_update_single_consistent|].
  cbn [Pg.conversations Pg.customers Pg.messages Pg.set_conversations].
  split; [|split; [|done]].
  - apply elem_of_patched. exists c. by rewrite Hsat.
  - intros x Hx Hxid. apply elem_of_patched in Hx as (y & Hy & ->).
    assert (Conversation.id y = Conversation.id c) as Hyid.
    { destruct (Pg.satisfies _ _ y); done. }
    assert (y = c) as ->.
    { destruct Hdb.
      by apply (same_id_same_row Conversation.id (Pg.conversations db)). }
    by rewrite Hsat.
Qed.

(** An update with the [id] and [brand_id] predicates that reaches no row
    of the brand comes back as the not-found failure. *)
Lemma conversation_update_unreachable id p :
  (∀ c, c ∈ Pg.conversations db →
        ¬ (Conversation.id c = id
           ∧ Conversation.brand_id c = BrandContext.brand_id ctx)) →
  Pg.conversations_update_single p
    [conv_eq_id id; conv_eq_brand_id (BrandContext.brand_id ctx)] db
  = (Failure Pg.no_single_row, db).
Proof.
  intros Hnone. unfold Pg.conversations_update_single.
  set (fs := [conv_eq_id id; conv_eq_brand_id (BrandContext.brand_id ctx)]).
  assert (∀ c, c ∈ Pg.conversations db
               → Pg.satisfies Pg.conv_matches fs c = false) as Hmiss.
  { intros c Hc. apply not_true_is_false. intros Hs.
    apply conv_satisfies_id_brand in Hs. by apply (Hnone c). }
  rewrite (patched_conversations_miss p fs db Hmiss).
  assert (Pg.conversations_ok db (Pg.conversations db) = None) as ->.
  { apply conversations_ok_None. by destruct Hdb. }
  by rewrite (bfilter_nil _ _ Hmiss).
Qed.

End ConversationsOnStore.

(** ** Creating and finding conversations *)

(** X17. When the referenced customer is stored, under the bound brand or
    any other, and the bound brand has no conversation on the phone pair,
    conversation [create] succeeds: the new row carries the bound brand,
    status [active], a [message_count] of 0 and no activity or opt-out
    stamp; the store stays within its schema; the same handle finds it by
    id, and a handle bound to any other brand finds nothing under that
    id. *)
Theorem conversation_create_then_lookup
    (ctx : BrandContext.t) (db : Pg.Db) (data : CreateConversation.t)
    (now1 now2 : Timestamp) (customer : Customer.t) :
  Pg.consistent db →
  customer ∈ Pg.customers db →
  Customer.id customer = CreateConversation.customer_id data →
  (∀ c, c ∈ Pg.conversations db →
        Conversation.brand_id c = BrandContext.brand_id ctx →
        ¬ (Conversation.customer_phone c
           = CreateConversation.customer_phone data
           ∧ Conversation.brand_phone c
             = CreateConversation.brand_phone data)) →
  ∃ c db',
    ConversationOperations.create (Pg.bound ctx) data now1 now2 db
    = (Ok c, db')
    ∧ Pg.consistent db'
    ∧ Pg.conversations db' = Pg.conversations db ++ [c]
    ∧ Conversation.brand_id c = BrandContext.brand_id ctx
    ∧ Conversation.customer_id c = Customer.id customer
    ∧ Conversation.status c = ConversationStatus.active
    ∧ Conversation.message_count c = 0%Z
    ∧ Conversation.last_message_at c = None
    ∧ Conversation.opted_out_at c = None
    ∧ canSendMessage c = true
    ∧ ConversationOperations.getById (Pg.bound ctx) (Conversation.id c) db'
      = Ok (Some c)
    ∧ (∀ ctx',
         BrandContext.brand_id ctx' ≠ BrandContext.brand_id ctx →
         ConversationOperations.getById (Pg.bound ctx') (Conversation.id c)
           db' = Ok None).
Proof.
  intros Hdb Hcust Hcid Hfree.
  destruct (conversation_create_free ctx db Hdb data now1 now2)
    as (c & Hr & Hdb' & _ & Hb & Hcu & _ & _ & Hst & Hmc & Hlm & _ & _ & Hoo
        & _); [|done|].
  { rewrite <- Hcid. by apply list_elem_of_fmap_2. }
  assert (c ∈ Pg.conversations
                (Pg.set_conversations (Pg.conversations db ++ [c]) db))
    as Hin.
  { simpl. apply elem_of_app. right. here. }
  assert (∀ y,
            y ∈ Pg.conversations
                  (Pg.set_conversations (Pg.conversations db ++ [c]) db) →
            Conversation.id y = Conversation.id c → y = c) as Huniq.
  { intros y Hy Hyid. destruct Hdb'.
    by apply (same_id_same_row Conversation.id
                (Pg.conversations
                   (Pg.set_conversations (Pg.conversations db ++ [c]) db))). }
  eexists c, _. split; [exact Hr|]. split; [done|]. split; [done|].
  split; [done|]. split; [congruence|]. split; [done|]. split; [done|].
  split; [done|]. split; [done|]. split; [|split].
  - unfold canSendMessage, isOptedOut. by rewrite Hst, Hoo.
  - by apply (conversations_getById_on_store ctx _ Hdb' (Conversation.id c)).
  - intros ctx' Hne.
    apply (conversations_getById_on_store ctx' _ Hdb' (Conversation.id c)).
    intros y Hy [Hyb Hyid]. rewrite (Huniq y Hy Hyid) in Hyb. congruence.
Qed.

Lemma conversation_create_then_lookup_witness :
  ∃ c db',
    ConversationOperations.create (Pg.bound (Scenario.ctx percymd))
      (CreateConversation.mk Scenario.customer_id "+15551234567"
         "+15550000000" None None None None)
      Scenario.t4 Scenario.t4 Scenario.s3 = (Ok c, db')
    ∧ Conversation.brand_id c = percymd
    ∧ Conversation.customer_id c = Customer.id Scenario.customer
    ∧ Customer.brand_id Scenario.customer = gnymble
    ∧ ConversationOperations.getById (Pg.bound (Scenario.ctx gnymble))
        (Conversation.id c) db' = Ok None.
Proof.
  destruct (conversation_create_then_lookup (Scenario.ctx percymd)
              Scenario.s3
              (CreateConversation.mk Scenario.customer_id "+15551234567"
                 "+15550000000" None None None None)
              Scenario.t4 Scenario.t4 Scenario.customer)
    as (c & db' & Hr & _ & _ & Hb & Hcu & _ & _ & _ & _ & _ & _ & Hiso).
  - apply consistentb_spec. vm_compute. reflexivity.
  - vm_compute. apply list_elem_of_here.
  - reflexivity.
  - intros c Hc Hb. vm_compute in Hc.
    apply list_elem_of_singleton in Hc. subst c. discriminate.
  - exists c, db'. split; [exact Hr|]. split; [exact Hb|].
    split; [exact Hcu|]. split; [reflexivity|]. apply Hiso. discriminate.
Defined.



(** ** Opt-out and status *)

(** X19. For a conversation stored under the bound brand, [optOut]
    succeeds: the returned row, then the one stored under that id, has
    [opted_out_at] at the call time and status [archived]; a given reason is
    recorded and an omitted one leaves the stored reason as it was; the
    message count and [last_message_at] are untouched.  The row fails
    [canSendMessage] and, at a non-empty call time, passes [isOptedOut];
    afterwards [getActive] returns no conversation with that id and
    [getByPhones] on its phone pair returns null. *)
Theorem optOut_archives
    (ctx : BrandContext.t) (db : Pg.Db) (c : Conversation.t)
    (reason : option string) (now : Timestamp) :
  Pg.consistent db →
  c ∈ Pg.conversations db →
  Conversation.brand_id c = BrandContext.brand_id ctx →
  ∃ c' db',
    ConversationOperations.optOut (Pg.bound ctx) (Conversation.id c) reason
      now db = (Ok c', db')
    ∧ c' ∈ Pg.conversations db'
    ∧ Conversation.id c' = Conversation.id c
    ∧ Conversation.opted_out_at c' = Some now
    ∧ Conversation.status c' = ConversationStatus.archived
    ∧ Conversation.opt_out_reason c'
      = from_option Some (Conversation.opt_out_reason c) reason
    ∧ Conversation.message_count c' = Conversation.message_count c
    ∧ Conversation.last_message_at c' = Conversation.last_message_at c
    ∧ (now ≠ "" → isOptedOut c' = true)
    ∧ canSendMessage c' = false
    ∧ (∀ limit rows x,
         ConversationOperations.getActive (Pg.bound ctx) limit db' = Ok rows →
         x ∈ rows → Conversation.id x ≠ Conversation.id c)
    ∧ ConversationOperations.getByPhones (Pg.bound ctx)
        (Conversation.customer_phone c) (Conversation.brand_phone c) db'
      = Ok None.
Proof.
  intros Hdb Hin Hb. unfold ConversationOperations.optOut.
  cbn [BrandAwareSupabase.raw BrandAwareSupabase.client
       BrandAwareSupabase.context BrandAwareSupabase.brandContext Pg.bound
       SupabaseClient.conversations_update_single Pg.client].
  match goal with
  | |- context [Pg.conversations_update_single ?p _ _] => set (pl := p)
  end.
  pose proof (conversation_update_stored ctx db Hdb c pl Hin Hb
                eq_refl eq_refl eq_refl eq_refl) as Hstored.
  cbv zeta in Hstored.
  destruct Hstored as (db' & Hup & Hdb' & Hin' & Huniq & _).
  rewrite Hup. eexists _, db'. split; [reflexivity|]. split; [exact Hin'|].
  assert (Conversation.status (Pg.patch_conversation pl db c)
          = ConversationStatus.archived) as Hst by done.
  assert (Conversation.opted_out_at (Pg.patch_conversation pl db c)
          = Some now) as Hoo by done.
  split; [done|]. split; [done|]. split; [done|].
  split; [by destruct reason|]. split; [done|]. split; [done|].
  split; [|split; [|split]].
  - intros Hnow. unfold isOptedOut. rewrite Hoo. simpl.
    apply negb_true_iff. by apply String.eqb_neq.
  - unfold canSendMessage. rewrite Hst. done.
  - intros limit rows x Hrows Hx Hxid.
    unfold ConversationOperations.getActive in Hrows. simpl in Hrows.
    unfold Pg.conversations_select in Hrows. simplify_eq.
    apply elem_of_run in Hx as [Hxin Hsat].
    rewrite (Huniq x Hxin Hxid) in Hsat.
    unfold Pg.satisfies in Hsat. simpl in Hsat.
    rewrite !andb_true_iff, !bool_decide_eq_true in Hsat.
    by destruct Hsat as [_ ?].
  - apply (getByPhones_on_store ctx db' Hdb').
    intros y Hy (Hyb & Hycp & Hybp & Hyst).
    assert (y = Pg.patch_conversation pl db c) as ->; [|by rewrite Hst in Hyst].
    destruct Hdb'.
    apply (same_id_same_row Pg.conv_phones_key (Pg.conversations db'));
      [done..|].
    unfold Pg.conv_phones_key. simpl. by rewrite Hyb, Hycp, Hybp, Hb.
Qed.

Lemma optOut_archives_witness :
  ∃ c' db',
    ConversationOperations.optOut (Pg.bound (Scenario.ctx gnymble))
      (Conversation.id Scenario.conversation) (Some "STOP") Scenario.t4
      Scenario.s3 = (Ok c', db')
    ∧ Conversation.opted_out_at c' = Some Scenario.t4
    ∧ Conversation.status c' = ConversationStatus.archived
    ∧ Conversation.opt_out_reason c' = Some "STOP"
    ∧ canSendMessage c' = false.
Proof.
  destruct (optOut_archives (Scenario.ctx gnymble) Scenario.s3
              Scenario.conversation (Some "STOP") Scenario.t4)
    as (c' & db' & Hr & _ & _ & Hoo & Hst & Hre & _ & _ & _ & Hcs & _).
  - apply consistentb_spec. vm_compute. reflexivity.
  - vm_compute. apply list_elem_of_here.
  - reflexivity.
  - exists c', db'. split; [exact Hr|]. split; [exact Hoo|].
    split; [exact Hst|]. split; [exact Hre|]. exact Hcs.
Defined.

(** X20. For a conversation stored under the bound brand, [updateStatus]
    succeeds for every target status, whatever the current one, and changes
    nothing but [status] and the trigger's [updated_at]; in particular it
    keeps the opt-out stamp, so setting an opted-out conversation back to
    [active] does not make it pass [canSendMessage]. *)
Theorem updateStatus_sets_status_only
    (ctx : BrandContext.t) (db : Pg.Db) (c : Conversation.t)
    (status : ConversationStatus.t) (now : Timestamp) :
  Pg.consistent db →
  c ∈ Pg.conversations db →
  Conversation.brand_id c = BrandContext.brand_id ctx →
  ∃ c' db',
    ConversationOperations.updateStatus (Pg.bound ctx) (Conversation.id c)
      status now db = (Ok c', db')
    ∧ c' ∈ Pg.conversations db'
    ∧ Conversation.status c' = status
    ∧ Conversation.id c' = Conversation.id c
    ∧ Conversation.brand_id c' = Conversation.brand_id c
    ∧ Conversation.customer_id c' = Conversation.customer_id c
    ∧ Conversation.customer_phone c' = Conversation.customer_phone c
    ∧ Conversation.brand_phone c' = Conversation.brand_phone c
    ∧ Conversation.message_count c' = Conversation.message_count c
    ∧ Conversation.last_message_at c' = Conversation.last_message_at c
    ∧ Conversation.last_inbound_at c' = Conversation.last_inbound_at c
    ∧ Conversation.last_outbound_at c' = Conversation.last_outbound_at c
    ∧ Conversation.opted_out_at c' = Conversation.opted_out_at c
    ∧ Conversation.opt_out_reason c' = Conversation.opt_out_reason c
    ∧ Conversation.updated_at c' = Pg.now db
    ∧ Conversation.campaign_id c' = Conversation.campaign_id c
    ∧ Conversation.campaign_name c' = Conversation.campaign_name c
    ∧ Conversation.metadata c' = Conversation.metadata c
    ∧ Conversation.tags c' = Conversation.tags c
    ∧ Conversation.created_at c' = Conversation.created_at c
    ∧ (isOptedOut c = true → canSendMessage c' = false).
Proof.
  intros Hdb Hin Hb. unfold ConversationOperations.updateStatus.
  cbn [BrandAwareSupabase.raw BrandAwareSupabase.client
       BrandAwareSupabase.context BrandAwareSupabase.brandContext Pg.bound
       SupabaseClient.conversations_update_single Pg.client].
  match goal with
  | |- context [Pg.conversations_update_single ?p _ _] => set (pl := p)
  end.
  pose proof (conversation_update_stored ctx db Hdb c pl Hin Hb
                eq_refl eq_refl eq_refl eq_refl) as Hstored.
  cbv zeta in Hstored.
  destruct Hstored as (db' & Hup & _ & Hin' & _).
  rewrite Hup. eexists _, db'. split; [reflexivity|]. split; [exact Hin'|].
  do 18 (split; [done|]).
  intros Hopt. unfold canSendMessage, isOptedOut in *. simpl.
  rewrite Hopt. apply andb_false_r.
Qed.

Lemma updateStatus_sets_status_only_witness :
  ∃ c' db',
    ConversationOperations.updateStatus (Pg.bound (Scenario.ctx gnymble))
      (Conversation.id Scenario.conversation) ConversationStatus.completed
      Scenario.t4 Scenario.s3 = (Ok c', db')
    ∧ Conversation.status c' = ConversationStatus.completed
    ∧ Conversation.last_outbound_at c' = Some Scenario.t3.
Proof.
  destruct (updateStatus_sets_status_only (Scenario.ctx gnymble) Scenario.s3
              Scenario.conversation ConversationStatus.completed Scenario.t4)
    as (c' & db' & Hr & _ & Hst & _ & _ & _ & _ & _ & _ & _ & _ & Hlo & _).
  - apply consistentb_spec. vm_compute. reflexivity.
  - vm_compute. apply list_elem_of_here.
  - reflexivity.
  - exists c', db'. split; [exact Hr|]. split; [exact Hst|]. exact Hlo.
Defined.

(** X21. A conversation id that the bound brand does not hold, be it
    unknown or another brand's, cannot be updated through the handle:
    [updateStatus] and [optOut] throw the wrapped not-found failure and
    leave the store as it was. *)
Theorem conversation_updates_need_own_brand
    (ctx : BrandContext.t) (db : Pg.Db) (id : Uuid) :
  Pg.consistent db →
  (∀ c, c ∈ Pg.conversations db →
        ¬ (Conversation.id c = id
           ∧ Conversation.brand_id c = BrandContext.brand_id ctx)) →
  (∀ status now,
     ConversationOperations.updateStatus (Pg.bound ctx) id status now db
     = (Throw ("Failed to update conversation status: "
               ++ message Pg.no_single_row), db))
  ∧ (∀ reason now,
       ConversationOperations.optOut (Pg.bound ctx) id reason now db
       = (Throw ("Failed to opt out conversation: "
                 ++ message Pg.no_single_row), db)).
Proof.
  intros Hdb Hnone. split.
  - intros status now. unfold ConversationOperations.updateStatus.
    cbn [BrandAwareSupabase.raw BrandAwareSupabase.client
         BrandAwareSupabase.context BrandAwareSupabase.brandContext Pg.bound
         SupabaseClient.conversations_update_single Pg.client].
    by rewrite (conversation_update_unreachable ctx db Hdb id _ Hnone).
  - intros reason now. unfold ConversationOperations.optOut.
    cbn [BrandAwareSupabase.raw BrandAwareSupabase.client
         BrandAwareSupabase.context BrandAwareSupabase.brandContext Pg.bound
         SupabaseClient.conversations_update_single Pg.client].
    by rewrite (conversation_update_unreachable ctx db Hdb id _ Hnone).
Qed.

Lemma conversation_updates_need_own_brand_witness :
  ConversationOperations.optOut (Pg.bound (Scenario.ctx percymd))
    Scenario.conversation_id (Some "STOP") Scenario.t4 Scenario.s3
  = (Throw ("Failed to opt out conversation: " ++ message Pg.no_single_row),
     Scenario.s3).
Proof.
  destruct (conversation_updates_need_own_brand (Scenario.ctx percymd)
              Scenario.s3 Scenario.conversation_id) as [_ HoptOut].
  - apply consistentb_spec. vm_compute. reflexivity.
  - intros c Hc [_ Hb]. vm_compute in Hc.
    apply list_elem_of_singleton in Hc. subst c. discriminate.
  - apply HoptOut.
Defined.

(** ** Sequences of calls *)

Section Kept.
Variable touched : BrandId → Prop.

Lemma customer_kept_refl x : customer_kept touched x x.
Proof. by repeat split. Qed.

Lemma customer_kept_trans x y z :
  customer_kept touched x y → customer_kept touched y z →
  customer_kept touched x z.
Proof.
  intros (H1 & H2 & H3 & H4 & H5 & H6) (G1 & G2 & G3 & G4 & G5 & G6).
  unfold customer_kept.
  rewrite G1, G2, G3, G4, G5, H1, H2, H3, H4, H5.
  do 5 (split; [done|]).
  intros Hn. rewrite G6; [by apply H6|]. by rewrite H2.
Qed.

Lemma conversation_kept_refl x : conversation_kept touched x x.
Proof. by repeat split. Qed.

Lemma conversation_kept_trans x y z :
  conversation_kept touched x y → conversation_kept touched y z →
  conversation_kept touched x z.
Proof.
  intros (H1 & H2 & H3 & H4 & H5 & H6 & H7 & H8 & H9 & H10 & H11)
         (G1 & G2 & G3 & G4 & G5 & G6 & G7 & G8 & G9 & G10 & G11).
  unfold conversation_kept.
  rewrite G1, G2, G3, G4, G5, G6, G7, G8, G9,
    H1, H2, H3, H4, H5, H6, H7, H8, H9.
  do 9 (split; [done|]). split; [by intros ?; apply G10, H10|].
  intros Hn. rewrite G11; [by apply H11|]. by rewrite H2.
Qed.

Lemma evolves_refl db : evolves touched db db.
Proof.
  constructor.
  - exists (Pg.customers db), []. rewrite app_nil_r.
    split; [done|]. split; [|constructor].
    apply Forall_Forall2_diag, Forall_forall. intros x _.
    apply customer_kept_refl.
  - exists (Pg.conversations db), []. rewrite app_nil_r.
    split; [done|]. split; [|constructor].
    apply Forall_Forall2_diag, Forall_forall. intros x _.
    apply conversation_kept_refl.
  - done.
Qed.

Lemma evolves_trans db1 db2 db3 :
  evolves touched db1 db2 → evolves touched db2 db3 →
  evolves touched db1 db3.
Proof.
  intros [(o1 & n1 & E1 & K1 & N1) (p1 & m1 & F1 & L1 & M1) P1]
         [(o2 & n2 & E2 & K2 & N2) (p2 & m2 & F2 & L2 & M2) P2].
  constructor.
  - rewrite E1 in K2.
    apply Forall2_app_inv_l in K2 as (k1 & k2 & Ka & Kb & ->).
    exists k1, (k2 ++ n2). split; [by rewrite E2, app_assoc|]. split.
    + eapply Forall2_trans; [|exact K1|exact Ka].
      apply customer_kept_trans.
    + apply Forall_app. split; [|done].
      eapply Forall2_Forall_r; [exact Kb|].
      eapply Forall_impl; [exact N1|]. simpl.
      intros x Hx y (_ & Hb & _). by rewrite Hb.
  - rewrite F1 in L2.
    apply Forall2_app_inv_l in L2 as (k1 & k2 & La & Lb & ->).
    exists k1, (k2 ++ m2). split; [by rewrite F2, app_assoc|]. split.
    + eapply Forall2_trans; [|exact L1|exact La].
      apply conversation_kept_trans.
    + apply Forall_app. split; [|done].
      eapply Forall2_Forall_r; [exact Lb|].
      eapply Forall_impl; [exact M1|]. simpl.
      intros x [Hx Hc] y (_ & Hb & _ & _ & _ & _ & _ & Hm & _).
      by rewrite Hb, Hm.
  - by etrans.
Qed.

End Kept.

Lemma evolves_mono (touched touched' : BrandId → Prop) db db' :
  (∀ b, touched b → touched' b) →
  evolves touched db db' → evolves touched' db db'.
Proof.
  intros Hsub [(o & n & E & K & N) (p & m & F & L & M) Pm].
  constructor; [| |done].
  - exists o, n. split; [done|]. split.
    + eapply Forall2_impl; [exact K|].
      intros x y (H1 & H2 & H3 & H4 & H5 & H6). unfold customer_kept.
      do 5 (split; [done|]). intros Hn. apply H6. intros Ht.
      by apply Hn, Hsub.
    + eapply Forall_impl; [exact N|]. intros c. apply Hsub.
  - exists p, m. split; [done|]. split.
    + eapply Forall2_impl; [exact L|].
      intros x y (H1 & H2 & H3 & H4 & H5 & H6 & H7 & H8 & H9 & H10 & H11).
      unfold conversation_kept.
      do 10 (split; [done|]). intros Hn. apply H11. intros Ht.
      by apply Hn, Hsub.
    + eapply Forall_impl; [exact M|]. intros c [? ?]. split; [|done].
      by apply Hsub.
Qed.

(** *** One traversal of the write methods

    A property of the store that every request of a handle keeps is kept
    by every call through the handle.  The requests are taken with what
    the methods put into them: a row is inserted under the bound brand, a
    conversation with a count of 0, and an update carries the [id] and
    [brand_id] predicates and leaves the columns below out of its
    payload. *)

Section PerformInvariant.
Variable ctx : BrandContext.t.
Variable P : Pg.Db → Prop.

Let b := BrandContext.brand_id ctx.

Let customer_payload (p : CustomerUpdate.t) : Prop :=
  CustomerUpdate.brand_id p = None ∧ CustomerUpdate.source p = None
  ∧ CustomerUpdate.created_at p = None ∧ CustomerUpdate.created_by p = None.

Let conversation_payload (p : ConversationUpdate.t) : Prop :=
  ConversationUpdate.brand_id p = None
  ∧ ConversationUpdate.customer_id p = None
  ∧ ConversationUpdate.customer_phone p = None
  ∧ ConversationUpdate.brand_phone p = None
  ∧ ConversationUpdate.campaign_id p = None
  ∧ ConversationUpdate.campaign_name p = None
  ∧ ConversationUpdate.message_count p = None
  ∧ ConversationUpdate.created_at p = None.

Hypothesis customers_insert : ∀ p db r db',
  CustomerInsert.brand_id p = b → P db →
  Pg.customers_insert_single p db = (r, db') → P db'.
Hypothesis customers_update : ∀ p id db r db',
  customer_payload p → P db →
  Pg.customers_update_single p [cust_eq_id id; cust_eq_brand_id b] db
  = (r, db') → P db'.
Hypothesis conversations_insert : ∀ p db r db',
  ConversationInsert.brand_id p = b →
  ConversationInsert.message_count p = Some 0%Z → P db →
  Pg.conversations_insert_single p db = (r, db') → P db'.
Hypothesis conversations_update : ∀ p id db r db',
  conversation_payload p → P db →
  Pg.conversations_update p [conv_eq_id id; conv_eq_brand_id b] db
  = (r, db') → P db'.
Hypothesis conversations_update_single : ∀ p id db r db',
  conversation_payload p → P db →
  Pg.conversations_update_single p [conv_eq_id id; conv_eq_brand_id b] db
  = (r, db') → P db'.
Hypothesis messages_insert : ∀ p db r db',
  P db → Pg.messages_insert_single p db = (r, db') → P db'.

Lemma customers_create_invariant data now1 now2 db :
  P db → P (CustomerOperations.create (Pg.bound ctx) data now1 now2 db).2.
Proof.
  intros HP. unfold CustomerOperations.create.
  cbn [BrandAwareSupabase.raw BrandAwareSupabase.client
       BrandAwareSupabase.context BrandAwareSupabase.brandContext Pg.bound
       SupabaseClient.customers_insert_single Pg.client].
  destruct (Pg.customers_insert_single _ db) as [[c|e] db'] eqn:E;
    simpl; (eapply customers_insert; [|exact HP|exact E]); reflexivity.
Qed.

Lemma customers_update_invariant id data now db :
  P db → P (CustomerOperations.update (Pg.bound ctx) id data now db).2.
Proof.
  intros HP. unfold CustomerOperations.update.
  cbn [BrandAwareSupabase.raw BrandAwareSupabase.client
       BrandAwareSupabase.context BrandAwareSupabase.brandContext Pg.bound
       SupabaseClient.customers_update_single Pg.client].
  destruct (Pg.customers_update_single _ _ db) as [[c|e] db'] eqn:E;
    simpl; (eapply customers_update; [|exact HP|exact E]); done.
Qed.

Lemma conversations_create_invariant data now1 now2 db :
  P db →
  P (ConversationOperations.create (Pg.bound ctx) data now1 now2 db).2.
Proof.
  intros HP. unfold ConversationOperations.create.
  cbn [BrandAwareSupabase.raw BrandAwareSupabase.client
       BrandAwareSupabase.context BrandAwareSupabase.brandContext Pg.bound
       SupabaseClient.conversations_insert_single Pg.client].
  destruct (Pg.conversations_insert_single _ db) as [[c|e] db'] eqn:E;
    simpl; (eapply conversations_insert; [| |exact HP|exact E]);
    reflexivity.
Qed.

Lemma perform_invariant call db : P db → P (perform ctx call db).
Proof.
  intros HP. destruct call; cbn [perform].
  - by apply customers_create_invariant.
  - by apply customers_update_invariant.
  - by apply customers_update_invariant.
  - unfold CustomerOperations.findOrCreate.
    destruct (CustomerOperations.getByEmail _ _ _) as [[c|]|e]; [done| |done].
    by apply customers_create_invariant.
  - unfold CustomerOperations.addTags.
    destruct (CustomerOperations.getById _ _ _) as [[c|]|e]; [|done..].
    by apply customers_update_invariant.
  - unfold CustomerOperations.removeTags.
    destruct (CustomerOperations.getById _ _ _) as [[c|]|e]; [|done..].
    by apply customers_update_invariant.
  - by apply conversations_create_invariant.
  - unfold ConversationOperations.findOrCreate.
    destruct (ConversationOperations.getByPhones _ _ _ _) as [[c|]|e];
      [|by apply conversations_create_invariant|done].
    case_bool_decide; [done|]. by apply conversations_create_invariant.
  - unfold ConversationOperations.addMessage.
    cbn [BrandAwareSupabase.raw BrandAwareSupabase.client
         BrandAwareSupabase.context BrandAwareSupabase.brandContext Pg.bound
         SupabaseClient.messages_insert_single
         SupabaseClient.conversations_update Pg.client].
    destruct (Pg.messages_insert_single _ db) as [[m|e] db1] eqn:E1;
      [|by eapply messages_insert].
    apply messages_insert in E1; [|done].
    destruct (Pg.conversations_update _ _ db1) as [[u|e] db2] eqn:E2;
      simpl; (eapply conversations_update; [|exact E1|exact E2]);
      by case_bool_decide.
  - unfold ConversationOperations.updateStatus.
    cbn [BrandAwareSupabase.raw BrandAwareSupabase.client
         BrandAwareSupabase.context BrandAwareSupabase.brandContext Pg.bound
         SupabaseClient.conversations_update_single Pg.client].
    destruct (Pg.conversations_update_single _ _ db) as [[c|e] db'] eqn:E;
      simpl; (eapply conversations_update_single; [|exact HP|exact E]);
      done.
  - unfold ConversationOperations.optOut.
    cbn [BrandAwareSupabase.raw BrandAwareSupabase.client
         BrandAwareSupabase.context BrandAwareSupabase.brandContext Pg.bound
         SupabaseClient.conversations_update_single Pg.client].
    destruct (Pg.conversations_update_single _ _ db) as [[c|e] db'] eqn:E;
      simpl; (eapply conversations_update_single; [|exact HP|exact E]);
      done.
Qed.

End PerformInvariant.

(** *** What each request changes *)

Section Requests.
Variable touched : BrandId → Prop.

Lemma evolves_set_customers db old new :
  Forall2 (customer_kept touched) (Pg.customers db) old →
  Forall (λ c, touched (Customer.brand_id c)) new →
  evolves touched db (Pg.set_customers (old ++ new) db).
Proof.
  intros Hold Hnew. destruct (evolves_refl touched db) as [_ Hc Hm].
  constructor; [|done..]. by exists old, new.
Qed.

Lemma evolves_set_conversations db old new :
  Forall2 (conversation_kept touched) (Pg.conversations db) old →
  Forall (λ c, touched (Conversation.brand_id c)
               ∧ Conversation.message_count c = 0%Z) new →
  evolves touched db (Pg.set_conversations (old ++ new) db).
Proof.
  intros Hold Hnew. destruct (evolves_refl touched db) as [Hc _ Hm].
  constructor; [done| |done]. by exists old, new.
Qed.

Lemma kept_in_place {A : Type} (R : A → A → Prop) (f : A → A) (l : list A) :
  (∀ x, R x (f x)) → Forall2 R l (f <$> l).
Proof.
  intros HR. apply Forall2_fmap_r, Forall_Forall2_diag, Forall_forall.
  intros x _. apply HR.
Qed.

Lemma customers_insert_single_evolves p db r db' :
  touched (CustomerInsert.brand_id p) →
  Pg.customers_insert_single p db = (r, db') → evolves touched db db'.
Proof.
  intros Hb. unfold Pg.customers_insert_single.
  destruct (Pg.customers_ok _); intros ?; simplify_eq;
    [apply evolves_refl|].
  apply evolves_set_customers.
  - apply Forall_Forall2_diag, Forall_forall. intros x _.
    apply customer_kept_refl.
  - by apply Forall_singleton.
Qed.

Lemma customers_update_single_evolves p id b db r db' :
  touched b →
  CustomerUpdate.brand_id p = None → CustomerUpdate.source p = None →
  CustomerUpdate.created_at p = None → CustomerUpdate.created_by p = None →
  Pg.customers_update_single p [cust_eq_id id; cust_eq_brand_id b] db
  = (r, db') → evolves touched db db'.
Proof.
  intros Hb Hp1 Hp2 Hp3 Hp4. unfold Pg.customers_update_single.
  destruct (Pg.customers_ok _); [intros ?; simplify_eq; apply evolves_refl|].
  destruct (List.filter _ _) as [|c [|c2 rest]];
    intros ?; simplify_eq; try apply evolves_refl.
  rewrite <- (app_nil_r (_ <$> _)).
  apply evolves_set_customers; [|constructor].
  apply kept_in_place. intros x.
  destruct (Pg.satisfies _ _ x) eqn:Hs; [|apply customer_kept_refl].
  apply cust_satisfies_id_brand in Hs as [_ Hxb].
  unfold customer_kept. simpl. rewrite Hp1, Hp2, Hp3, Hp4. simpl.
  do 5 (split; [done|]). intros Hn. by rewrite Hxb in Hn.
Qed.

Lemma conversations_insert_single_evolves p db r db' :
  touched (ConversationInsert.brand_id p) →
  ConversationInsert.message_count p = Some 0%Z →
  Pg.conversations_insert_single p db = (r, db') → evolves touched db db'.
Proof.
  intros Hb Hm. unfold Pg.conversations_insert_single.
  destruct (Pg.conversations_ok _ _); intros ?; simplify_eq;
    [apply evolves_refl|].
  apply evolves_set_conversations.
  - apply Forall_Forall2_diag, Forall_forall. intros x _.
    apply conversation_kept_refl.
  - apply Forall_singleton. simpl. by rewrite Hm.
Qed.

Lemma patched_conversations_kept p id b db :
  touched b →
  ConversationUpdate.brand_id p = None →
  ConversationUpdate.customer_id p = None →
  ConversationUpdate.customer_phone p = None →
  ConversationUpdate.brand_phone p = None →
  ConversationUpdate.campaign_id p = None →
  ConversationUpdate.campaign_name p = None →
  ConversationUpdate.message_count p = None →
  ConversationUpdate.created_at p = None →
  evolves touched db
    (Pg.set_conversations
       (Pg.patched_conversations p [conv_eq_id id; conv_eq_brand_id b] db)
       db).
Proof.
  intros Hb Hp1 Hp2 Hp3 Hp4 Hp5 Hp6 Hp7 Hp8.
  rewrite <- (app_nil_r (Pg.patched_conversations _ _ _)).
  apply evolves_set_conversations; [|constructor].
  apply kept_in_place. intros x.
  destruct (Pg.satisfies _ _ x) eqn:Hs; [|apply conversation_kept_refl].
  apply conv_satisfies_id_brand in Hs as [_ Hxb].
  unfold conversation_kept. simpl.
  rewrite Hp1, Hp2, Hp3, Hp4, Hp5, Hp6, Hp7, Hp8. simpl.
  do 9 (split; [done|]). split.
  - intros [t Ht]. rewrite Ht.
    destruct (ConversationUpdate.opted_out_at p); by eexists.
  - intros Hn. by rewrite Hxb in Hn.
Qed.

Lemma conversations_update_evolves p id b db r db' :
  touched b →
  ConversationUpdate.brand_id p = None →
  ConversationUpdate.customer_id p = None →
  ConversationUpdate.customer_phone p = None →
  ConversationUpdate.brand_phone p = None →
  ConversationUpdate.campaign_id p = None →
  ConversationUpdate.campaign_name p = None →
  ConversationUpdate.message_count p = None →
  ConversationUpdate.created_at p = None →
  Pg.conversations_update p [conv_eq_id id; conv_eq_brand_id b] db
  = (r, db') → evolves touched db db'.
Proof.
  intros Hb Hp1 Hp2 Hp3 Hp4 Hp5 Hp6 Hp7 Hp8.
  unfold Pg.conversations_update.
  destruct (Pg.conversations_ok _ _); intros ?; simplify_eq;
    [apply evolves_refl|].
  by apply patched_conversations_kept.
Qed.

Lemma conversations_update_single_evolves p id b db r db' :
  touched b →
  ConversationUpdate.brand_id p = None →
  ConversationUpdate.customer_id p = None →
  ConversationUpdate.customer_phone p = None →
  ConversationUpdate.brand_phone p = None →
  ConversationUpdate.campaign_id p = None →
  ConversationUpdate.campaign_name p = None →
  ConversationUpdate.message_count p = None →
  ConversationUpdate.created_at p = None →
  Pg.conversations_update_single p [conv_eq_id id; conv_eq_brand_id b] db
  = (r, db') → evolves touched db db'.
Proof.
  intros Hb Hp1 Hp2 Hp3 Hp4 Hp5 Hp6 Hp7 Hp8.
  unfold Pg.conversations_update_single.
  destruct (Pg.conversations_ok _ _);
    [intros ?; simplify_eq; apply evolves_refl|].
  destruct (List.filter _ _) as [|c [|c2 rest]];
    intros ?; simplify_eq; try apply evolves_refl.
  by apply patched_conversations_kept.
Qed.

Lemma messages_insert_single_evolves p db r db' :
  Pg.messages_insert_single p db = (r, db') → evolves touched db db'.
Proof.
  unfold Pg.messages_insert_single.
  case_bool_decide; intros ?; simplify_eq; [|apply evolves_refl].
  destruct (evolves_refl touched db) as [Hc Hv _].
  constructor; [done..|]. simpl. by apply prefix_app_r.
Qed.

End Requests.

(** *** Calls *)

(** Every call keeps the store within its schema. *)
Lemma perform_consistent ctx call db :
  Pg.consistent db → Pg.consistent (perform ctx call db).
Proof.
  apply perform_invariant.
  - intros p d r d' _. apply customers_insert_single_consistent.
  - intros p id d r d' _. apply customers_update_single_consistent.
  - intros p d r d' _ _. apply conversations_insert_single_consistent.
  - intros p id d r d' _. apply conversations_update_consistent.
  - intros p id d r d' _. apply conversations_update_single_consistent.
  - intros p d r d'. apply messages_insert_single_consistent.
Qed.

(** A call changes the store as a call of its handle's brand may. *)
Lemma perform_evolves ctx call db :
  evolves (λ b, b = BrandContext.brand_id ctx) db (perform ctx call db).
Proof.
  apply (perform_invariant ctx
           (evolves (λ b, b = BrandContext.brand_id ctx) db));
    [..|apply evolves_refl].
  - intros p d r d' Hb Hd Hr. eapply evolves_trans; [exact Hd|].
    by eapply customers_insert_single_evolves.
  - intros p id d r d' (? & ? & ? & ?) Hd Hr.
    eapply evolves_trans; [exact Hd|].
    by eapply (customers_update_single_evolves _ p id).
  - intros p d r d' Hb Hm Hd Hr. eapply evolves_trans; [exact Hd|].
    by eapply conversations_insert_single_evolves.
  - intros p id d r d' (? & ? & ? & ? & ? & ? & ? & ?) Hd Hr.
    eapply evolves_trans; [exact Hd|].
    by eapply (conversations_update_evolves _ p id).
  - intros p id d r d' (? & ? & ? & ? & ? & ? & ? & ?) Hd Hr.
    eapply evolves_trans; [exact Hd|].
    by eapply (conversations_update_single_evolves _ p id).
  - intros p d r d' Hd Hr. eapply evolves_trans; [exact Hd|].
    by eapply messages_insert_single_evolves.
Qed.

Lemma tick_consistent t db : Pg.consistent db → Pg.consistent (tick t db).
Proof. by intros []. Qed.

Lemma tick_evolves touched t db : evolves touched db (tick t db).
Proof.
  destruct (evolves_refl touched db) as [Hc Hv Hm]. by constructor.
Qed.

Lemma perform_all_consistent calls db :
  Pg.consistent db → Pg.consistent (perform_all calls db).
Proof.
  revert db. induction calls as [|e calls IH]; intros db Hdb; [done|].
  apply IH. by apply perform_consistent, tick_consistent.
Qed.

Lemma perform_all_evolves calls db :
  evolves (λ b, b ∈ callers calls) db (perform_all calls db).
Proof.
  revert db. induction calls as [|e calls IH]; intros db.
  { apply evolves_refl. }
  eapply evolves_trans; [|eapply evolves_mono; [|apply IH]].
  - eapply evolves_trans; [apply tick_evolves|].
    eapply evolves_mono; [|apply perform_evolves].
    intros b ->. apply list_elem_of_here.
  - intros b Hb. by apply list_elem_of_further.
Qed.

(** *** What no sequence of calls does *)

Lemma kept_column {A B : Type} (R : A → A → Prop) (g : A → B)
    (l k : list A) :
  (∀ x y, R x y → g y = g x) → Forall2 R l k → g <$> k = g <$> l.
Proof.
  intros Hg. induction 1 as [|x y l k Hxy _ IH]; [done|].
  rewrite !fmap_cons, IH. f_equal. by apply Hg.
Qed.

Lemma kept_bfilter {A : Type} (R : A → A → Prop) (f : A → bool)
    (l k : list A) :
  (∀ x y, R x y → f y = f x ∧ (f x = true → y = x)) →
  Forall2 R l k → List.filter f k = List.filter f l.
Proof.
  intros Hf. induction 1 as [|x y l k Hxy _ IH]; [done|].
  simpl. destruct (Hf x y Hxy) as [-> Hsame], (f x); [|done].
  by rewrite IH, Hsame.
Qed.

Lemma kept_elem_of {A : Type} (R : A → A → Prop) (l k : list A) x :
  Forall2 R l k → x ∈ l → ∃ y, y ∈ k ∧ R x y.
Proof.
  induction 1 as [|x' y l k Hxy _ IH]; intros Hx.
  { by apply not_elem_of_nil in Hx. }
  apply elem_of_cons in Hx as [->|Hx].
  - exists y. split; [here|done].
  - destruct (IH Hx) as (z & Hz & HR). exists z. split; [further|done].
Qed.

Lemma bfilter_narrow {A : Type} (f g : A → bool) (l : list A) :
  (∀ x, f x = true → g x = true) →
  List.filter f (List.filter g l) = List.filter f l.
Proof.
  intros Hfg. induction l as [|x l IH]; [done|]. simpl.
  destruct (g x) eqn:Hg; simpl; [by rewrite IH|].
  destruct (f x) eqn:Hf; [|done]. by rewrite (Hfg x Hf) in Hg.
Qed.

(** A query sees the table only through the rows its predicates select. *)
Lemma run_narrow {F O A : Type} (matches : F → A → bool)
    (key : O → A → option Timestamp) (q : Query F O) (g : A → bool)
    (rows rows' : list A) :
  (∀ x, Pg.satisfies matches (filters q) x = true → g x = true) →
  List.filter g rows' = List.filter g rows →
  Pg.run matches key q rows' = Pg.run matches key q rows.
Proof.
  intros Hg Hrows. unfold Pg.run.
  by rewrite <- (bfilter_narrow _ g rows'), <- (bfilter_narrow _ g rows),
    Hrows.
Qed.

(** X23. Calls never reach the rows of a brand whose handle issued none of
    them: after any sequence of calls the customers and conversations
    stored under such a brand are the same rows in the same order, and
    every request that carries the [brand_id] predicate of that brand, as
    all requests built on the [customers] and [conversations] getters do,
    gets the answer it got before. *)
Theorem other_brands_rows_untouched
    (calls : list (Timestamp * BrandContext.t * Call)) (db : Pg.Db)
    (b : BrandId) :
  b ∉ callers calls →
  let db' := perform_all calls db in
  List.filter (λ c, bool_decide (Customer.brand_id c = b)) (Pg.customers db')
  = List.filter (λ c, bool_decide (Customer.brand_id c = b))
      (Pg.customers db)
  ∧ List.filter (λ c, bool_decide (Conversation.brand_id c = b))
      (Pg.conversations db')
    = List.filter (λ c, bool_decide (Conversation.brand_id c = b))
        (Pg.conversations db)
  ∧ (∀ q, cust_eq_brand_id b ∈ filters q →
          Pg.customers_select q db' = Pg.customers_select q db
          ∧ Pg.customers_single q db' = Pg.customers_single q db)
  ∧ (∀ q, conv_eq_brand_id b ∈ filters q →
          Pg.conversations_select q db' = Pg.conversations_select q db
          ∧ Pg.conversations_single q db' = Pg.conversations_single q db).
Proof.
  intros Hb db'.
  destruct (perform_all_evolves calls db)
    as [(o & n & E & K & N) (p & m & F & L & M) _].
  fold db' in E, F.
  assert (List.filter (λ c, bool_decide (Customer.brand_id c = b))
            (Pg.customers db')
          = List.filter (λ c, bool_decide (Customer.brand_id c = b))
              (Pg.customers db)) as Hcust.
  { rewrite E, bfilter_app, (bfilter_nil _ n), app_nil_r.
    - apply (kept_bfilter (customer_kept (λ b, b ∈ callers calls))); [|done].
      intros x y (_ & Hyb & _ & _ & _ & Hsame). rewrite Hyb.
      split; [done|]. intros Hx. apply bool_decide_eq_true in Hx.
      apply Hsame. by rewrite Hx.
    - intros x Hx. rewrite Forall_forall in N.
      apply bool_decide_eq_false. intros Hxb. apply Hb.
      rewrite <- Hxb. by apply N. }
  assert (List.filter (λ c, bool_decide (Conversation.brand_id c = b))
            (Pg.conversations db')
          = List.filter (λ c, bool_decide (Conversation.brand_id c = b))
              (Pg.conversations db)) as Hconv.
  { rewrite F, bfilter_app, (bfilter_nil _ m), app_nil_r.
    - apply (kept_bfilter (conversation_kept (λ b, b ∈ callers calls)));
        [|done].
      intros x y (_ & Hyb & H). rewrite Hyb.
      split; [done|]. intros Hx. apply bool_decide_eq_true in Hx.
      apply H. by rewrite Hx.
    - intros x Hx. rewrite Forall_forall in M.
      apply bool_decide_eq_false. intros Hxb. apply Hb.
      rewrite <- Hxb. by apply M. }
  split; [exact Hcust|]. split; [exact Hconv|]. split.
  - intros q Hq.
    assert (Pg.run Pg.cust_matches Pg.cust_order_key q (Pg.customers db')
            = Pg.run Pg.cust_matches Pg.cust_order_key q (Pg.customers db))
      as Hrun.
    { eapply run_narrow; [|exact Hcust]. intros x Hx.
      unfold Pg.satisfies in Hx.
      rewrite forallb_Forall, Forall_forall in Hx. exact (Hx _ Hq). }
    unfold Pg.customers_select, Pg.customers_single. by rewrite Hrun.
  - intros q Hq.
    assert (Pg.run Pg.conv_matches Pg.conv_order_key q (Pg.conversations db')
            = Pg.run Pg.conv_matches Pg.conv_order_key q
                (Pg.conversations db)) as Hrun.
    { eapply run_narrow; [|exact Hconv]. intros x Hx.
      unfold Pg.satisfies in Hx.
      rewrite forallb_Forall, Forall_forall in Hx. exact (Hx _ Hq). }
    unfold Pg.conversations_select, Pg.conversations_single.
    by rewrite Hrun.
Qed.

Lemma other_brands_rows_untouched_witness :
  let db' :=
    perform_all
      [(Scenario.t4, Scenario.ctx percymd,
        customers_progressStage Scenario.customer_id CustomerStage.churned
          Scenario.t4 Scenario.t4);
       (Scenario.t4, Scenario.ctx percytext,
        conversations_optOut Scenario.conversation_id None Scenario.t4)]
      Scenario.s3 in
  List.filter (λ c, bool_decide (Customer.brand_id c = gnymble))
    (Pg.customers db')
  = List.filter (λ c, bool_decide (Customer.brand_id c = gnymble))
      (Pg.customers Scenario.s3)
  ∧ List.filter (λ c, bool_decide (Conversation.brand_id c = gnymble))
      (Pg.conversations db')
    = List.filter (λ c, bool_decide (Conversation.brand_id c = gnymble))
        (Pg.conversations Scenario.s3).
Proof.
  intros db'.
  destruct (other_brands_rows_untouched
              [(Scenario.t4, Scenario.ctx percymd,
                customers_progressStage Scenario.customer_id
                  CustomerStage.churned Scenario.t4 Scenario.t4);
               (Scenario.t4, Scenario.ctx percytext,
                conversations_optOut Scenario.conversation_id None
                  Scenario.t4)]
              Scenario.s3 gnymble) as (Hc & Hv & _).
  - apply (bool_decide_unpack _). vm_compute. exact I.
  - split; [exact Hc|exact Hv].
Defined.

(** X24. Calls only ever add: after any sequence of calls every customer
    that was stored is still stored at its place with its id, brand,
    source, creation time and creator, every conversation with its id,
    brand, customer, phone pair, campaign, message count and creation
    time, and every message exactly as it was; what is new comes after.
    No method deletes a row, moves one to another brand, or edits a
    message. *)
Theorem calls_only_add
    (calls : list (Timestamp * BrandContext.t * Call)) (db : Pg.Db) :
  let db' := perform_all calls db in
  let customer_columns := λ c,
    (Customer.id c, Customer.brand_id c, Customer.source c,
     Customer.created_at c, Customer.created_by c) in
  let conversation_columns := λ c,
    (Conversation.id c, Conversation.brand_id c, Conversation.customer_id c,
     Conversation.customer_phone c, Conversation.brand_phone c,
     Conversation.campaign_id c, Conversation.campaign_name c,
     Conversation.message_count c, Conversation.created_at c) in
  customer_columns <$> Pg.customers db
    `prefix_of` customer_columns <$> Pg.customers db'
  ∧ conversation_columns <$> Pg.conversations db
      `prefix_of` conversation_columns <$> Pg.conversations db'
  ∧ Pg.messages db `prefix_of` Pg.messages db'.
Proof.
  intros db' customer_columns conversation_columns.
  destruct (perform_all_evolves calls db)
    as [(o & n & E & K & N) (p & m & F & L & M) Hm].
  fold db' in E, F, Hm. split; [|split; [|done]].
  - rewrite E, fmap_app. apply prefix_app_r.
    rewrite (kept_column (customer_kept (λ b, b ∈ callers calls))
               customer_columns (Pg.customers db) o); [done| |exact K].
    intros x y (H1 & H2 & H3 & H4 & H5 & _). unfold customer_columns.
    by rewrite H1, H2, H3, H4, H5.
  - rewrite F, fmap_app. apply prefix_app_r.
    rewrite (kept_column (conversation_kept (λ b, b ∈ callers calls))
               conversation_columns (Pg.conversations db) p);
      [done| |exact L].
    intros x y (H1 & H2 & H3 & H4 & H5 & H6 & H7 & H8 & H9 & _).
    unfold conversation_columns.
    by rewrite H1, H2, H3, H4, H5, H6, H7, H8, H9.
Qed.

(** X25. An opt-out is permanent: once a stored conversation carries an
    opt-out stamp, after any sequence of calls by any brands the
    conversation under that id still carries one, and [getActive] of no
    handle returns it, whatever status [updateStatus] has given it
    since. *)
Theorem opt_out_is_permanent
    (calls : list (Timestamp * BrandContext.t * Call)) (db : Pg.Db)
    (c : Conversation.t) :
  Pg.consistent db →
  c ∈ Pg.conversations db →
  is_Some (Conversation.opted_out_at c) →
  let db' := perform_all calls db in
  (∃ c', c' ∈ Pg.conversations db'
         ∧ Conversation.id c' = Conversation.id c
         ∧ is_Some (Conversation.opted_out_at c'))
  ∧ (∀ ctx limit rows x,
       ConversationOperations.getActive (Pg.bound ctx) limit db' = Ok rows →
       x ∈ rows → Conversation.id x ≠ Conversation.id c).
Proof.
  intros Hdb Hc Hopt db'.
  pose proof (perform_all_consistent calls db Hdb) as Hdb'. fold db' in Hdb'.
  destruct (perform_all_evolves calls db) as [_ (p & m & F & L & _) _].
  fold db' in F.
  destruct (kept_elem_of _ _ _ c L Hc)
    as (c' & Hc' & Hid & _ & _ & _ & _ & _ & _ & _ & _ & Hkeep & _).
  assert (c' ∈ Pg.conversations db') as Hin.
  { rewrite F. apply elem_of_app. by left. }
  split; [exists c'; by auto|].
  intros ctx limit rows x Hrows Hx Hxid.
  unfold ConversationOperations.getActive in Hrows. simpl in Hrows.
  unfold Pg.conversations_select in Hrows. simplify_eq.
  apply elem_of_run in Hx as [Hxin Hsat].
  assert (x = c') as ->.
  { destruct Hdb'.
    apply (same_id_same_row Conversation.id (Pg.conversations db'));
      [done..|]. by rewrite Hid. }
  unfold Pg.satisfies in Hsat. simpl in Hsat.
  rewrite !andb_true_iff, !bool_decide_eq_true in Hsat.
  destruct Hsat as (_ & _ & Hnull & _). destruct (Hkeep Hopt) as [t Ht].
  by rewrite Ht in Hnull.
Qed.

Lemma opt_out_is_permanent_witness :
  let db := perform (Scenario.ctx gnymble)
              (conversations_optOut Scenario.conversation_id (Some "STOP")
                 Scenario.t4) Scenario.s3 in
  let db' :=
    perform_all
      [(Scenario.t4, Scenario.ctx gnymble,
        conversations_updateStatus Scenario.conversation_id
          ConversationStatus.active Scenario.t4)] db in
  ∃ c', c' ∈ Pg.conversations db'
        ∧ Conversation.id c' = Scenario.conversation_id
        ∧ is_Some (Conversation.opted_out_at c').
Proof.
  intros db db'.
  assert (∃ c, Pg.conversations db = [c]
               ∧ Conversation.id c = Scenario.conversation_id
               ∧ Conversation.opted_out_at c = Some Scenario.t4)
    as (c & Hrows & Hid & Hopt).
  { eexists. split; [reflexivity|]. split; reflexivity. }
  destruct (opt_out_is_permanent
              [(Scenario.t4, Scenario.ctx gnymble,
                conversations_updateStatus Scenario.conversation_id
                  ConversationStatus.active Scenario.t4)] db c)
    as [Hstill _].
  - apply consistentb_spec. vm_compute. reflexivity.
  - rewrite Hrows. apply list_elem_of_here.
  - rewrite Hopt. by eexists.
  - rewrite <- Hid. exact Hstill.
Defined.

(** X26. No method raises a conversation's message count: in every store
    that calls build up from the empty one each conversation has a
    [message_count] of 0, however many messages [addMessage] has stored
    for it, and so [getAnalytics] of every handle reports [totalMessages]
    as 0 for every time range. *)
Theorem message_count_stays_zero
    (calls : list (Timestamp * BrandContext.t * Call)) (t : Timestamp) :
  let db := perform_all calls (Pg.empty t) in
  (∀ c, c ∈ Pg.conversations db → Conversation.message_count c = 0%Z)
  ∧ (∀ ctx timeRange, ∃ analytics,
       ConversationOperations.getAnalytics (Pg.bound ctx) timeRange db
       = Ok analytics
       ∧ ConversationAnalytics.totalMessages analytics = 0%Z).
Proof.
  intros db.
  assert (∀ c, c ∈ Pg.conversations db → Conversation.message_count c = 0%Z)
    as Hzero.
  { destruct (perform_all_evolves calls (Pg.empty t))
      as [_ (p & m & F & L & M) _].
    fold db in F. simpl in L. apply Forall2_nil_inv_l in L. subst p.
    simpl in F. rewrite F. rewrite Forall_forall in M.
    intros c Hc. by apply M. }
  split; [exact Hzero|].
  intros ctx timeRange. eexists. split; [reflexivity|]. simpl.
  match goal with
  | |- fold_left _ ?rows 0%Z = 0%Z =>
      assert (∀ c, c ∈ rows → Conversation.message_count c = 0%Z) as Hrows;
      [|generalize dependent rows]
  end.
  { intros c Hc. apply elem_of_run in Hc as [Hc _]. by apply Hzero. }
  intros rows. induction rows as [|c rows IH]; intros Hrows; [done|].
  simpl. rewrite (Hrows c) by here. simpl. apply IH.
  intros x Hx. apply Hrows. further.
Qed.

(** ** Messages of a conversation *)



(** X27. A message goes in and comes back: when its conversation is
    stored, under the bound brand or any other, [addMessage] appends
    exactly one message, under a new id, with the given direction and
    content and the call time as [sent_at]; afterwards [getMessages] of
    any handle returns it together with the conversation's earlier
    messages, as long as they fit the limit; and the answers of
    [getMessages] for every other conversation are what they were. *)
Theorem addMessage_then_getMessages
    (ctx reader : BrandContext.t) (data : CreateMessage.t) (now : Timestamp)
    (db : Pg.Db) (limit : option nat) :
  Pg.consistent db →
  CreateMessage.conversation_id data
    ∈ Conversation.id <$> Pg.conversations db →
  ∃ m db',
    ConversationOperations.addMessage (Pg.bound ctx) data now db = (Ok m, db')
    ∧ Pg.messages db' = Pg.messages db ++ [m]
    ∧ (Message.id m ∉ Message.id <$> Pg.messages db)
    ∧ Message.conversation_id m = CreateMessage.conversation_id data
    ∧ Message.direction m = CreateMessage.direction data
    ∧ Message.content m = CreateMessage.content data
    ∧ Message.sent_at m = now
    ∧ (∀ other, other ≠ CreateMessage.conversation_id data →
         ConversationOperations.getMessages (Pg.bound reader) other limit db'
         = ConversationOperations.getMessages (Pg.bound reader) other limit
             db)
    ∧ (length (List.filter
                 (λ m', bool_decide (Message.conversation_id m'
                                     = CreateMessage.conversation_id data))
                 (Pg.messages db)) < default 50 limit →
       ∃ rows,
         ConversationOperations.getMessages (Pg.bound reader)
           (CreateMessage.conversation_id data) limit db' = Ok rows
         ∧ m ∈ rows
         ∧ ∀ m', m' ∈ Pg.messages db →
                 Message.conversation_id m'
                 = CreateMessage.conversation_id data → m' ∈ rows).
Proof.
  intros Hdb Hfk.
  pose proof (perform_consistent ctx (conversations_addMessage data now) db
                Hdb) as Hdb'.
  cbn [perform] in Hdb'.
  destruct (addMessage_stored ctx data now db Hdb Hfk)
    as (m & p & Hr & Hmc & Hmd & Hmt & Hms & _).
  rewrite Hr in Hdb'. rewrite Hr. eexists m, _. split; [reflexivity|].
  cbn [Pg.messages]. split; [done|].
  assert (∀ id, Pg.satisfies Pg.msg_matches [msg_eq_conversation_id id] m
                = bool_decide (Message.conversation_id m = id)) as Hsat.
  { intros id. unfold Pg.satisfies. simpl. apply andb_true_r. }
  split; [|do 4 (split; [done|]); split].
  - destruct Hdb' as [_ _ _ _ _ _ Hnd _]. cbn [Pg.messages snd] in Hnd.
    rewrite fmap_app in Hnd. apply NoDup_app in Hnd as (_ & Hnot & _).
    intros Hin. apply (Hnot _ Hin). simpl. here.
  - intros other Hother. unfold ConversationOperations.getMessages.
    cbn [BrandAwareSupabase.raw BrandAwareSupabase.client Pg.bound
         SupabaseClient.messages_select Pg.client].
    unfold Pg.messages_select, Pg.run. cbn [Pg.messages filters].
    rewrite bfilter_app. simpl List.filter at 2.
    unfold Pg.satisfies at 2. simpl forallb.
    rewrite bool_decide_eq_false_2, app_nil_r; [done|]. by rewrite Hmc.
  - intros Hlen. eexists. split; [reflexivity|].
    set (q := limit_to (default 50 limit)
                (order_by msg_sent_at_desc
                   (where_ (msg_eq_conversation_id
                              (CreateMessage.conversation_id data)) select))).
    assert (∀ x, Pg.satisfies Pg.msg_matches (filters q) x
                 = bool_decide (Message.conversation_id x
                                = CreateMessage.conversation_id data))
      as Hq.
    { intros x. unfold Pg.satisfies. simpl. apply andb_true_r. }
    assert (∀ n, Postgrest.limit q = Some n →
                 length (List.filter (Pg.satisfies Pg.msg_matches (filters q))
                           (Pg.messages db ++ [m])) ≤ n) as Hfit.
    { intros n Hn. simpl in Hn. simplify_eq.
      rewrite (bfilter_ext _ _ _ Hq), bfilter_app, length_app. simpl.
      rewrite bool_decide_eq_true_2 by done. simpl. lia. }
    split.
    + apply (run_complete Pg.msg_matches Pg.msg_order_key q);
        [apply elem_of_app; right; here| |exact Hfit].
      rewrite Hq. by apply bool_decide_eq_true.
    + intros m' Hin Hid.
      apply (run_complete Pg.msg_matches Pg.msg_order_key q);
        [apply elem_of_app; by left| |exact Hfit].
      rewrite Hq. by apply bool_decide_eq_true.
Qed.

Lemma addMessage_then_getMessages_witness :
  ∃ m db',
    ConversationOperations.addMessage (Pg.bound (Scenario.ctx gnymble))
      Scenario.reply Scenario.t4 Scenario.s3 = (Ok m, db')
    ∧ Pg.messages db' = Pg.messages Scenario.s3 ++ [m]
    ∧ Message.content m = "reply"
    ∧ Message.sent_at m = Scenario.t4.
Proof.
  destruct (addMessage_then_getMessages (Scenario.ctx gnymble)
              (Scenario.ctx percymd) Scenario.reply Scenario.t4 Scenario.s3
              None)
    as (m & db' & Hr & Hms & _ & _ & _ & Hc & Ht & _).
  - apply consistentb_spec. vm_compute. reflexivity.
  - vm_compute. apply list_elem_of_here.
  - exists m, db'. split; [exact Hr|]. split; [exact Hms|].
    split; [exact Hc|exact Ht].
Defined.

(** X28. After [addMessage] on a conversation of the bound brand, at a
    non-empty call time, [getLastMessageDirection] of the stored
    conversation is the direction of that message provided the clock has
    not gone back: for an outbound message it is enough that the stored
    inbound stamp is not later than the call time, for an inbound one the
    call time has to be later than the stored outbound stamp, since on
    equal stamps the helper answers [outbound]. *)
Theorem addMessage_sets_last_direction
    (later : Timestamp → Timestamp → bool) (ctx : BrandContext.t)
    (data : CreateMessage.t) (now : Timestamp) (db : Pg.Db)
    (c : Conversation.t) :
  Pg.consistent db →
  c ∈ Pg.conversations db →
  Conversation.id c = CreateMessage.conversation_id data →
  Conversation.brand_id c = BrandContext.brand_id ctx →
  now ≠ "" →
  match CreateMessage.direction data with
  | MessageDirection.inbound =>
      ∀ o, Conversation.last_outbound_at c = Some o → o ≠ "" →
           later now o = true
  | MessageDirection.outbound =>
      ∀ i, Conversation.last_inbound_at c = Some i → i ≠ "" →
           later i now = false
  end →
  ∃ m db' c',
    ConversationOperations.addMessage (Pg.bound ctx) data now db = (Ok m, db')
    ∧ c' ∈ Pg.conversations db'
    ∧ Conversation.id c' = Conversation.id c
    ∧ getLastMessageDirection later c' = Some (CreateMessage.direction data).
Proof.
  intros Hdb Hin Hid Hbrand Hnow Hclock.
  destruct (addMessage_stored ctx data now db Hdb)
    as (m & p & Hr & _ & _ & _ & _ & _ & _ & Hli & Hlo).
  { rewrite <- Hid. by apply list_elem_of_fmap_2. }
  assert (Pg.satisfies Pg.conv_matches
            [conv_eq_id (CreateMessage.conversation_id data);
             conv_eq_brand_id (BrandContext.brand_id ctx)] c = true) as Hsat.
  { by apply conv_satisfies_id_brand. }
  eexists m, _, (Pg.patch_conversation p db c).
  split; [exact Hr|]. cbn [Pg.conversations]. split; [|split; [done|]].
  { apply elem_of_patched. exists c. by rewrite Hsat. }
  assert (truthy (Some now) = true) as Htruthy.
  { simpl. apply negb_true_iff. by apply String.eqb_neq. }
  unfold getLastMessageDirection. cbn [Pg.patch_conversation
    Conversation.last_inbound_at Conversation.last_outbound_at].
  rewrite Hli, Hlo.
  destruct (CreateMessage.direction data); simpl from_option.
  - rewrite Htruthy. simpl negb. simpl andb.
    destruct (Conversation.last_outbound_at c) as [o|] eqn:Ho; [|done].
    destruct (truthy (Some o)) eqn:Hot; [|done]. simpl negb. simpl default.
    rewrite (Hclock o eq_refl); [done|].
    simpl in Hot. apply negb_true_iff in Hot. by apply String.eqb_neq.
  - rewrite Htruthy. simpl negb. rewrite andb_false_r.
    destruct (Conversation.last_inbound_at c) as [i|] eqn:Hi; [|done].
    destruct (truthy (Some i)) eqn:Hit; [|done]. simpl negb. simpl default.
    rewrite (Hclock i eq_refl); [done|].
    simpl in Hit. apply negb_true_iff in Hit. by apply String.eqb_neq.
Qed.

Lemma addMessage_sets_last_direction_witness :
  ∃ m db' c',
    ConversationOperations.addMessage (Pg.bound (Scenario.ctx gnymble))
      Scenario.reply Scenario.t4 Scenario.s3 = (Ok m, db')
    ∧ c' ∈ Pg.conversations db'
    ∧ Conversation.id c' = Conversation.id Scenario.conversation
    ∧ getLastMessageDirection (λ a b, String.ltb b a) c'
      = Some MessageDirection.inbound.
Proof.
  apply (addMessage_sets_last_direction (λ a b, String.ltb b a)
           (Scenario.ctx gnymble) Scenario.reply Scenario.t4 Scenario.s3
           Scenario.conversation).
  - apply consistentb_spec. vm_compute. reflexivity.
  - vm_compute. apply list_elem_of_here.
  - reflexivity.
  - reflexivity.
  - discriminate.
  - simpl. intros o Ho _. injection Ho as <-. vm_compute. reflexivity.
Defined.

(** ** Analytics on the store *)

Lemma count_if {A : Type} (f : A → bool) (rows : list A) (n : nat) :
  fold_left (λ acc row, if f row then acc + 1 else acc) rows n
  = n + length (List.filter f rows).
Proof.
  revert n. induction rows as [|row rows IH]; intros n; simpl; [lia|].
  rewrite IH. destruct (f row); simpl; lia.
Qed.

(** X29. On the store both [getAnalytics] tally exactly the rows of the
    bound brand.  For customers, deactivated ones included: [total] is
    their number, [byStage] and [bySource] hold for every stage and source
    the number of customers in it, and [avgTimeToConversion] is always 0.
    For conversations without a time range: [total] is their number,
    [byStatus] holds the number in each status, [active] is the number in
    status [active], opted out or not, and [optedOut] the number with a
    non-empty opt-out stamp. *)
Theorem analytics_tally_the_brand (ctx : BrandContext.t) (db : Pg.Db) :
  let customers :=
    List.filter
      (λ c, bool_decide (Customer.brand_id c = BrandContext.brand_id ctx))
      (Pg.customers db) in
  let conversations :=
    List.filter
      (λ c, bool_decide (Conversation.brand_id c = BrandContext.brand_id ctx))
      (Pg.conversations db) in
  (∃ a,
     CustomerOperations.getAnalytics (Pg.bound ctx) db = Ok a
     ∧ CustomerAnalytics.total a = length customers
     ∧ (∀ stage,
          count_of stage (CustomerAnalytics.byStage a)
          = length (List.filter
                      (λ c, bool_decide (Customer.stage c = stage))
                      customers))
     ∧ (∀ source,
          count_of source (CustomerAnalytics.bySource a)
          = length (List.filter
                      (λ c, bool_decide (Customer.source c = source))
                      customers))
     ∧ CustomerAnalytics.avgTimeToConversion a = 0%float)
  ∧ (∃ a,
       ConversationOperations.getAnalytics (Pg.bound ctx) None db = Ok a
       ∧ ConversationAnalytics.total a = length conversations
       ∧ (∀ status,
            count_of status (ConversationAnalytics.byStatus a)
            = length (List.filter
                        (λ c, bool_decide (Conversation.status c = status))
                        conversations))
       ∧ ConversationAnalytics.active a
         = length (List.filter
                     (λ c, bool_decide (Conversation.status c
                                        = ConversationStatus.active))
                     conversations)
       ∧ ConversationAnalytics.optedOut a
         = length (List.filter
                     (λ c, truthy (Conversation.opted_out_at c))
                     conversations)).
Proof.
  intros customers conversations.
  assert (Pg.run Pg.cust_matches Pg.cust_order_key
            (where_ (cust_eq_brand_id (BrandContext.brand_id ctx)) select)
            (Pg.customers db) = customers) as Hcust.
  { unfold Pg.run. cbn [where_ select filters order limit].
    apply bfilter_ext. intros c.
    unfold Pg.satisfies. simpl. apply andb_true_r. }
  assert (Pg.run Pg.conv_matches Pg.conv_order_key
            (BrandAwareSupabase.conversations (Pg.bound ctx))
            (Pg.conversations db) = conversations) as Hconv.
  { unfold Pg.run, BrandAwareSupabase.conversations.
    cbn [where_ select filters order limit].
    apply bfilter_ext. intros c.
    unfold Pg.satisfies. simpl. apply andb_true_r. }
  split.
  - unfold CustomerOperations.getAnalytics.
    cbn [BrandAwareSupabase.raw BrandAwareSupabase.client
         BrandAwareSupabase.context BrandAwareSupabase.brandContext Pg.bound
         SupabaseClient.customers_select Pg.client].
    unfold Pg.customers_select. rewrite Hcust.
    eexists. split; [reflexivity|]. cbn [CustomerAnalytics.total
      CustomerAnalytics.byStage CustomerAnalytics.bySource
      CustomerAnalytics.avgTimeToConversion].
    split; [done|]. split; [|split; [|done]].
    + intros stage. by rewrite count_of_tally.
    + intros source. by rewrite count_of_tally.
  - unfold ConversationOperations.getAnalytics.
    cbn [BrandAwareSupabase.client Pg.bound
         SupabaseClient.conversations_select Pg.client].
    unfold Pg.conversations_select. rewrite Hconv.
    eexists. split; [reflexivity|]. cbn [ConversationAnalytics.total
      ConversationAnalytics.byStatus ConversationAnalytics.active
      ConversationAnalytics.optedOut].
    split; [done|]. split; [|split].
    + intros status. by rewrite count_of_tally.
    + by rewrite (count_if
                    (λ c, bool_decide (Conversation.status c
                                       = ConversationStatus.active))).
    + by rewrite (count_if (λ c, truthy (Conversation.opted_out_at c))).
Qed.
